(** * Verification of [followers/data_classification.py]

    The program is a linear script: read a CSV table, split it into a
    training and a validation partition, wrap both in shuffled and batched
    datasets, adapt one preprocessing layer per feature on the training
    dataset, build a small feed-forward classifier, fit it and predict one
    sample.  The script's own statements are embedded below under their
    source names.  The pandas, tf.data and Keras operations it calls are
    not part of the repository; each is modelled next to its first use and
    marked as such. *)

From Stdlib Require Import ZArith QArith Reals Lra Lia List Permutation String.
From stdpp Require Import base option list gmap strings sorting.

Open Scope string_scope.

(** * Data model *)

(** A cell of the table.  pandas infers [int64] or [float64] per column;
    decimal literals of the CSV are kept as exact rationals. *)
Inductive value : Type :=
  | VInt (n : Z)
  | VFloat (q : Q).

#[global] Instance Q_eq_dec : EqDecision Q.
Proof. solve_decision. Defined.

#[global] Instance value_eq_dec : EqDecision value.
Proof. solve_decision. Defined.

(** One record of the table: its index label and its named cells. *)
Record Row : Type := mkRow {
  row_label : Z;
  row_cells : gmap string value
}.

#[global] Instance Row_eq_dec : EqDecision Row.
Proof. solve_decision. Defined.

(** A pandas [DataFrame]: the column names in order and the rows in order. *)
Record DataFrame : Type := mkDataFrame {
  df_columns : list string;
  df_rows : list Row
}.

(** [len(dataframe)] *)
Definition df_len (df : DataFrame) : nat := length (df_rows df).

(** [dataframe.index] *)
Definition df_index (df : DataFrame) : list Z := row_label <$> df_rows df.

(** [dataframe[name]]: the cells of one column, [None] for a [KeyError]. *)
Definition df_column (name : string) (df : DataFrame) : option (list value) :=
  if decide (name ∈ df_columns df)
  then mapM (λ r, row_cells r !! name) (df_rows df)
  else None.

Module Pandas.

(** Modelled from the spec: [pandas.read_csv] is library code.  It reads
    a delimited table with a header row into a frame whose index is the
    default [RangeIndex] 0, 1, ..., N-1; a row whose number of fields
    differs from the header is malformed and fails the load. *)
Definition read_csv (header : list string) (lines : list (list value))
  : option DataFrame :=
  if forallb (λ l, length l =? length header)%nat lines
  then Some (mkDataFrame header
               (imap (λ i l, mkRow (Z.of_nat i) (list_to_map (zip header l)))
                     lines))
  else None.

(** Python's [round] on a non-negative rational: to the nearest integer,
    halves to the even neighbour. *)
Definition round_half_even (q : Q) : Z :=
  let n := Qnum q in
  let d := Z.pos (Qden q) in
  let f := (n / d)%Z in
  let r := (n mod d)%Z in
  if (2 * r <? d)%Z then f
  else if (d <? 2 * r)%Z then (f + 1)%Z
  else if Z.even f then f else (f + 1)%Z.

(** The number of rows [sample(frac=...)] draws from a frame of [N]
    rows: [round(frac * N)]. *)
Definition sample_size (frac : Q) (N : nat) : nat :=
  Z.to_nat (round_half_even (frac * inject_Z (Z.of_nat N))).

(** Modelled from the spec: [DataFrame.drop(labels)] is library code.
    It removes every row whose index label is among [labels], and
    raises [KeyError] when a label is not in the index. *)
Definition drop (labels : list Z) (df : DataFrame) : option DataFrame :=
  if decide (Forall (λ l, l ∈ df_index df) labels)
  then Some (mkDataFrame (df_columns df)
               (filter (λ r, row_label r ∉ labels) (df_rows df)))
  else None.

Section Sampling.

(** Modelled from the spec: numpy's generator is library code.
    [permutation seed n] is the order in which
    [RandomState(seed).permutation(n)] lists the positions 0..n-1. *)
Variable permutation : Z → nat → list nat.

(** The seed a generator takes from the operating system when the
    caller gives none; it differs from run to run. *)
Variable entropy : Z.

(** Modelled from the spec: [DataFrame.sample(frac, random_state)] is
    library code.  It draws [round(frac * N)] distinct row positions,
    the first ones of the generator's permutation, and returns those
    rows with their index labels. *)
Definition sample (frac : Q) (random_state : option Z) (df : DataFrame)
  : DataFrame :=
  let seed := default entropy random_state in
  let locs := take (sample_size frac (df_len df))
                   (permutation seed (df_len df)) in
  mkDataFrame (df_columns df) (omap (λ i, df_rows df !! i) locs).


End Sampling.

End Pandas.

(** * The object store

    Frames are mutable objects handled by reference: [pop] changes the
    frame it is called on, [copy] makes a new one.  A computation of the
    script threads the store and stops at the first exception. *)

Definition loc : Type := positive.

Definition Store : Type := gmap loc DataFrame.

Definition M (A : Type) : Type := Store → option (A * Store).

Definition ret {A} (a : A) : M A := λ σ, Some (a, σ).

Definition bind {A B} (m : M A) (k : A → M B) : M B :=
  λ σ, match m σ with
       | Some (a, σ') => k a σ'
       | None => None
       end.

Definition raise_if_none {A} (o : option A) : M A :=
  λ σ, match o with Some a => Some (a, σ) | None => None end.

Notation "'let!' x ':=' m 'in' k" := (bind m (λ x, k))
  (at level 10, x name, m at level 100, k at level 200).

(** A reference that no object of the store uses yet. *)
Definition next_loc (σ : Store) : loc :=
  (map_fold (λ l _ acc, Pos.max l acc) 1 σ + 1)%positive.

(** Binding a new frame object to a name. *)
Definition alloc (df : DataFrame) : M loc :=
  λ σ, let l := next_loc σ in Some (l, <[l := df]> σ).

(** Reading the frame behind a reference. *)
Definition deref (l : loc) : M DataFrame :=
  λ σ, match σ !! l with Some df => Some (df, σ) | None => None end.

(** Modelled from the spec: [DataFrame.copy()] is library code.  It
    returns a new frame object with the same columns, rows and index. *)
Definition copy (l : loc) : M loc :=
  let! df := deref l in alloc df.

(** A frame without the column [name]. *)
Definition df_without (name : string) (df : DataFrame) : DataFrame :=
  mkDataFrame
    (filter (λ c, c ≠ name) (df_columns df))
    ((λ r, mkRow (row_label r) (delete name (row_cells r))) <$> df_rows df).

(** Modelled from the spec: [DataFrame.pop(name)] is library code.  It
    returns the column and removes it from the frame object in place;
    [KeyError] when the frame has no such column. *)
Definition pop (l : loc) (name : string) : M (list value) :=
  λ σ, match σ !! l with
       | Some df =>
           match df_column name df with
           | Some col => Some (col, <[l := df_without name df]> σ)
           | None => None
           end
       | None => None
       end.

(** [dict(dataframe)]: the mapping from column name to column. *)
Definition dict (df : DataFrame) : gmap string (list value) :=
  list_to_map (omap (λ c, (c ,.) <$> df_column c df) (df_columns df)).

(** * tf.data *)

Module TfData.

(** One element of an unbatched dataset: the feature mapping of a record
    and its label. *)
Definition Element : Type := (gmap string value * value)%type.

(** One batch: per feature name the array of the batch's values, and the
    array of its labels. *)
Definition Batch : Type := (gmap string (list value) * list value)%type.

(** A dataset is a restartable sequence.  Every pass over it may consume
    random draws; given the draws of one pass, the dataset yields the
    elements of that pass in order. *)
Definition Dataset (A : Type) : Type := list nat → list A.

(** Modelled from the spec: [Dataset.from_tensor_slices] is library code.
    It slices the columns and the labels along their first axis, element
    [i] pairing the [i]-th value of every column with the [i]-th label;
    components of different lengths are an error. *)
Definition slices (d : gmap string (list value)) (labels : list value)
  : list Element :=
  imap (λ i y, (omap (λ col : list value, col !! i) d, y)) labels.

Definition from_tensor_slices (d : gmap string (list value)) (labels : list value)
  : option (Dataset Element) :=
  if decide (map_Forall (λ _ col, length col = length labels) d)
  then Some (λ _, slices d labels)
  else None.

(** The buffer algorithm of [shuffle]: the buffer holds the next elements
    of the input; each step draws a slot of the buffer at random, yields
    its element and refills the slot from the input, or closes the slot
    once the input is exhausted. *)
Fixpoint shuffle_run {A} (fuel : nat) (draws : list nat) (buffer rest : list A)
  : list A :=
  match fuel with
  | O => []
  | S fuel' =>
      let i := (hd 0 draws mod length buffer)%nat in
      match buffer !! i with
      | None => []
      | Some x =>
          match rest with
          | [] => x :: shuffle_run fuel' (tl draws) (delete i buffer) []
          | y :: rest' => x :: shuffle_run fuel' (tl draws) (<[i := y]> buffer) rest'
          end
      end
  end.

(** Modelled from the spec: [Dataset.shuffle(buffer_size)] is library
    code.  It fills a buffer with the first [buffer_size] elements and
    runs the buffer algorithm anew at every pass. *)
Definition shuffle {A} (buffer_size : nat) (ds : Dataset A) : Dataset A :=
  λ draws,
    let l := ds draws in
    shuffle_run (length l) draws (take buffer_size l) (drop buffer_size l).

(** Consecutive groups of [n] elements, the last one possibly shorter. *)
Fixpoint chunks {A} (fuel n : nat) (l : list A) : list (list A) :=
  match fuel with
  | O => []
  | S fuel' =>
      match l with
      | [] => []
      | _ :: _ => take n l :: chunks fuel' n (drop n l)
      end
  end.

(** Stacking the elements of one group componentwise. *)
Definition stack (es : list Element) : Batch :=
  (match es with
   | [] => ∅
   | e :: _ => map_imap (λ name _, Some (omap (λ e' : Element, e'.1 !! name) es)) e.1
   end,
   snd <$> es).

(** Modelled from the spec: [Dataset.batch(batch_size)] is library code.
    It groups consecutive elements into batches of [batch_size] and keeps
    the shorter remainder as the last batch. *)
Definition batch (batch_size : nat) (ds : Dataset Element) : Dataset Batch :=
  λ draws, let l := ds draws in stack <$> chunks (length l) batch_size l.

(** Modelled from the spec: [Dataset.map(f)] is library code; it applies
    [f] to every element. *)
Definition map {A B} (f : A → B) (ds : Dataset A) : Dataset B :=
  λ draws, f <$> ds draws.

End TfData.

(** Lines 96-101 of the script. *)
Definition dataframe_to_dataset (dataframe : loc)
  : M (TfData.Dataset TfData.Element) :=
  let! dataframe := copy dataframe in
  let! labels := pop dataframe "Bot_or_Not" in
  let! df := deref dataframe in
  let! ds := raise_if_none (TfData.from_tensor_slices (dict df) labels) in
  ret (TfData.shuffle (df_len df) ds).

(** * Keras *)

Module Keras.

Inductive dtype : Type := int64 | float32.

#[global] Instance dtype_eq_dec : EqDecision dtype.
Proof. solve_decision. Defined.

(** [keras.Input(shape=(1,), name=..., dtype=...)]: a named input slot. *)
Record Input : Type := mkInput {
  input_name : string;
  input_dtype : dtype
}.

(** The value of a cell as a real number and as an integer code. *)
Definition value_to_R (v : value) : R :=
  match v with
  | VInt n => IZR n
  | VFloat q => Q2R q
  end.

Definition value_to_code (v : value) : Z :=
  match v with
  | VInt n => n
  | VFloat q => Z.quot (Qnum q) (Z.pos (Qden q))
  end.

(** ** Statistics *)

Definition sum (xs : list R) : R := foldr Rplus 0%R xs.

Definition mean (xs : list R) : R := (sum xs / INR (length xs))%R.

Definition variance (xs : list R) : R :=
  mean ((λ x, (x - mean xs) * (x - mean xs))%R <$> xs).

Definition std (xs : list R) : R := sqrt (variance xs).

(** The backend's fuzz factor, [keras.backend.epsilon()]. *)
Definition epsilon : R := (1 / 10000000)%R.

(** ** Preprocessing layers and their adapted state *)

Inductive Layer : Type :=
  | Normalization (mean variance : R)
  | CategoryEncoding (vocabulary : list Z).

(** Modelled from the spec: the [Normalization] layer is library code.
    [adapt] learns the mean and the variance of the values it is shown;
    the layer then maps [x] to [(x - mean) / max(std, epsilon)]. *)
Definition Normalization_adapt (xs : list R) : Layer :=
  Normalization (mean xs) (variance xs).

Definition normalize (mean variance x : R) : R :=
  ((x - mean) / Rmax (sqrt variance) epsilon)%R.

(** Modelled from the spec: the [CategoryEncoding] layer is library code.
    [adapt] learns the distinct integer codes it is shown, kept in
    ascending order.  The layer maps a code to a one-hot vector with one
    slot per learned code and one reserved slot, slot 0, for codes that
    were not seen. *)
Definition learned (codes : list Z) : list Z :=
  merge_sort Z.le (elements (list_to_set codes : gset Z)).

Definition CategoryEncoding_adapt (codes : list Z) : Layer :=
  CategoryEncoding (learned codes).

Definition one_hot_width (vocabulary : list Z) : nat := S (length vocabulary).

Definition code_index (vocabulary : list Z) (c : Z) : nat :=
  match list_find (λ t, t = c) vocabulary with
  | Some (i, _) => S i
  | None => O
  end.

Definition one_hot (width i : nat) : list R :=
  (λ j, if decide (j = i) then 1%R else 0%R) <$> seq 0 width.

(** Calling an adapted layer on one value. *)
Definition call (l : Layer) (v : value) : list R :=
  match l with
  | Normalization m var => [normalize m var (value_to_R v)]
  | CategoryEncoding vocabulary =>
      one_hot (one_hot_width vocabulary) (code_index vocabulary (value_to_code v))
  end.

(** The output width of an adapted layer. *)
Definition output_width (l : Layer) : nat :=
  match l with
  | Normalization _ _ => 1
  | CategoryEncoding vocabulary => one_hot_width vocabulary
  end.

(** A symbolic tensor of the graph: an adapted layer applied to an input. *)
Record Tensor : Type := mkTensor {
  tensor_input : Input;
  tensor_layer : Layer
}.

(** ** The network *)

(** [layers.Dense(units)]: [units] output units, each with a weight row
    and a bias. *)
Record Dense : Type := mkDense {
  units : nat;
  kernel : list (list R);
  bias : list R
}.

Definition dot (w x : list R) : R := sum (zip_with Rmult w x).

Definition dense_call (d : Dense) (x : list R) : list R :=
  (λ j, (dot (default [] (kernel d !! j)) x + default 0 (bias d !! j))%R)
    <$> seq 0 (units d).

Definition relu (x : R) : R := Rmax 0 x.

(** Modelled from the spec: the sigmoid activation is library code, the
    logistic function, here over the real numbers.  Floating-point
    arithmetic evaluates it to a nearby value, which may be 0 or 1
    itself, so what is stated of a prediction below is the closed
    interval from 0 to 1. *)
Definition sigmoid (x : R) : R := (/ (1 + exp (- x)))%R.

(** [layers.Dropout(rate)] outside training passes its input through. *)
Definition dropout_inference (rate : Q) (x : list R) : list R := x.

Record Weights : Type := mkWeights {
  hidden : Dense;
  output : Dense
}.

(** [keras.Model(all_inputs, output)]: the input slots, the encoded
    features in the order of concatenation, and the trainable weights. *)
Record Model : Type := mkModel {
  inputs : list Input;
  features : list Tensor;
  weights : Weights
}.

(** The layer a model applies to the input slot named [name]. *)
Definition layer_of (m : Model) (name : string) : option Layer :=
  tensor_layer <$>
    head (filter (λ t, input_name (tensor_input t) = name) (features m)).

(** Lines 275-277: the network behind the concatenated features. *)
Definition network (w : Weights) (all_features : list R) : list R :=
  let x := relu <$> dense_call (hidden w) all_features in
  let x := dropout_inference (1 # 2) x in
  sigmoid <$> dense_call (output w) x.

Inductive error : Type :=
  | MissingInput (name : string)
  | WrongType (name : string)
  | ShapeMismatch (name : string).

(** Modelled from the spec: input slots are typed as integer or float,
    and a call must supply every input in the correct numeric type.  A
    slot typed as integer takes whole numbers only; a slot typed as float
    takes floats and whole numbers, which the script's own sample
    supplies for its float inputs. *)
Definition correct_numeric_type (d : dtype) (v : value) : bool :=
  match d, v with
  | int64, VInt _ => true
  | int64, VFloat _ => false
  | float32, _ => true
  end.

End Keras.

(** * The script *)

Import Keras.

(** [tf.expand_dims(x, -1)]: every value of a batch becomes a row of its
    own. *)
Definition expand_dims (x : list value) : list (list value) := (λ v, [v]) <$> x.

(** The values an [adapt] call sees in one pass over a feature dataset;
    [None] when the pass raises, as for a feature name that a batch does
    not have. *)
Definition adapt_values (feature_ds : TfData.Dataset (option (list (list value))))
  (pass : list nat) : option (list value) :=
  (λ bs, concat (concat bs)) <$> mapM (λ o, o) (feature_ds pass).

(** The values of the feature [name] that an [adapt] call sees in one pass
    over a batched dataset, prepared as in the three encoders. *)
Definition feature_values (name : string) (dataset : TfData.Dataset TfData.Batch)
  (pass : list nat) : option (list value) :=
  let feature_ds := TfData.map (λ b : TfData.Batch, b.1 !! name) dataset in
  let feature_ds := TfData.map (fmap expand_dims) feature_ds in
  adapt_values feature_ds pass.

(** Lines 155-168. *)
Definition encode_numerical_feature (feature : Input) (name : string)
  (dataset : TfData.Dataset TfData.Batch) (pass : list nat) : option Tensor :=
  let feature_ds := TfData.map (λ b : TfData.Batch, b.1 !! name) dataset in
  let feature_ds := TfData.map (fmap expand_dims) feature_ds in
  xs ← adapt_values feature_ds pass;
  let normalizer := Normalization_adapt (value_to_R <$> xs) in
  Some (mkTensor feature normalizer).

(** Lines 199-212. *)
Definition encode_integer_categorical_feature (feature : Input) (name : string)
  (dataset : TfData.Dataset TfData.Batch) (pass : list nat) : option Tensor :=
  let feature_ds := TfData.map (λ b : TfData.Batch, b.1 !! name) dataset in
  let feature_ds := TfData.map (fmap expand_dims) feature_ds in
  xs ← adapt_values feature_ds pass;
  let encoder := CategoryEncoding_adapt (value_to_code <$> xs) in
  Some (mkTensor feature encoder).

(** Lines 221-234: the input slots. *)
Definition Profile_pic : Input := mkInput "Profile_picture" int64.
Definition Bot_Score : Input := mkInput "Bot_Score" int64.
Definition followers : Input := mkInput "followers" float32.
Definition following : Input := mkInput "following" float32.
Definition creation_date : Input := mkInput "creation_date" float32.
Definition number_of_tweets : Input := mkInput "number_of_tweets" float32.
Definition Retweet_Ratio : Input := mkInput "Retweet_Ratio" float32.
Definition Tweets_Per_Day : Input := mkInput "Tweets_Per_Day" float32.

(** Lines 236-245. *)
Definition all_inputs : list Input :=
  [ followers; following; creation_date; number_of_tweets; Retweet_Ratio;
    Profile_pic; Tweets_Per_Day; Bot_Score ].

(** Lines 307-315: the example the script predicts. *)
Definition sample : gmap string value :=
  list_to_map
    [ ("followers", VInt 100);
      ("following", VInt 50);
      ("creation_date", VInt 2010);
      ("number_of_tweets", VInt 800);
      ("Retweet_Ratio", VFloat (3 # 10));
      ("Profile_picture", VInt 1);
      ("Bot_Score", VInt 5) ].

(** Line 317: every scalar wrapped into a tensor of one row. *)
Definition input_dict : gmap string (list value) := (λ v, [v]) <$> sample.

(** The concatenated encoded features of row [j] of a batch of inputs. *)
Definition encode_row (m : Model) (x : gmap string (list value)) (j : nat)
  : option (list R) :=
  (λ xs, concat xs) <$>
    mapM (λ t, col ← x !! input_name (tensor_input t);
               v ← col !! j;
               Some (call (tensor_layer t) v))
         (features m).

(** The tensors a call supplies for the model's input slots, in the order
    of the slots. *)
Fixpoint gather (x : gmap string (list value)) (slots : list Input)
  : error + list (Input * list value) :=
  match slots with
  | [] => inr []
  | s :: slots' =>
      match x !! input_name s with
      | None => inl (MissingInput (input_name s))
      | Some t =>
          match gather x slots' with
          | inl e => inl e
          | inr ts => inr ((s, t) :: ts)
          end
      end
  end.

Section Script.

(** Modelled from the spec: the random sources and the numeric core of the
    libraries are library code: numpy's permutation, the seed taken when
    none is given, the draws of the [k]-th pass over a dataset, the
    initial weights of a dense layer of given units and input width, one
    optimizer update on an encoded batch, and the rule by which an input
    slot of a dtype accepts a supplied value; [correct_numeric_type] is
    the rule the spec describes. *)
Variable permutation : Z → nat → list nat.
Variable entropy : Z.
Variable draws : nat → list nat.
Variable initializer : nat → nat → list (list R) * list R.
Variable optimizer_step : Weights → list (list R * R) → Weights.
Variable accepts : dtype → value → bool.

(** Lines 83-84. *)
Definition val_dataframe (dataframe : DataFrame) : DataFrame :=
  Pandas.sample permutation entropy (15 # 100) (Some 1337%Z) dataframe.

Definition train_dataframe (dataframe : DataFrame) : option DataFrame :=
  Pandas.drop (df_index (val_dataframe dataframe)) dataframe.

(** The same split for an arbitrary seed: the validation partition and
    the training partition, or the [KeyError] of [drop]. *)
Definition split_at_seed (seed : Z) (dataframe : DataFrame)
  : DataFrame * option DataFrame :=
  let val := Pandas.sample permutation entropy (15 # 100) (Some seed) dataframe in
  (val, Pandas.drop (df_index val) dataframe).

(** Lines 104-121: both partitions wrapped and batched. *)
Definition datasets (train val : loc)
  : M (TfData.Dataset TfData.Batch * TfData.Dataset TfData.Batch) :=
  let! train_ds := dataframe_to_dataset train in
  let! val_ds := dataframe_to_dataset val in
  let train_ds := TfData.batch 32 train_ds in
  let val_ds := TfData.batch 32 val_ds in
  ret (train_ds, val_ds).

Definition dense (n width : nat) : Dense :=
  mkDense n (initializer n width).1 (initializer n width).2.

(** Lines 248-278: the encoders, adapted in the order of the script, each
    in a pass of its own over the training dataset, and the model. *)
Definition build_model (train_ds : TfData.Dataset TfData.Batch) : option Model :=
  Profile_pic_encoded ←
    encode_integer_categorical_feature Profile_pic "Profile_picture" train_ds (draws 1);
  Tweets_Per_Day_encoded ←
    encode_integer_categorical_feature Tweets_Per_Day "Bot_Score" train_ds (draws 2);
  followers_encoded ← encode_numerical_feature followers "followers" train_ds (draws 3);
  following_encoded ← encode_numerical_feature following "following" train_ds (draws 4);
  creation_date_encoded ←
    encode_numerical_feature creation_date "creation_date" train_ds (draws 5);
  number_of_tweets_encoded ←
    encode_numerical_feature number_of_tweets "number_of_tweets" train_ds (draws 6);
  Retweet_Ratio_encoded ←
    encode_numerical_feature Retweet_Ratio "Retweet_Ratio" train_ds (draws 7);
  Bot_Score_encoded ← encode_numerical_feature Bot_Score "Tweets_Per_Day" train_ds (draws 8);
  let all_features :=
    [ followers_encoded; following_encoded; creation_date_encoded;
      number_of_tweets_encoded; Retweet_Ratio_encoded; Profile_pic_encoded;
      Tweets_Per_Day_encoded; Bot_Score_encoded ] in
  let width := sum_list (output_width ∘ tensor_layer <$> all_features) in
  Some (mkModel all_inputs all_features
          (mkWeights (dense 32 width) (dense 1 32))).

(** One batch of the training dataset as the optimizer sees it: the
    encoded rows with their labels. *)
Definition encode_batch (m : Model) (b : TfData.Batch) : option (list (list R * R)) :=
  mapM (λ j, x ← encode_row m b.1 j;
             y ← b.2 !! j;
             Some (x, value_to_R y))
       (seq 0 (length b.2)).

(** Line 292: [fit] passes [epochs] times over the training dataset and
    updates the weights batch by batch.  The validation pass of an epoch
    only measures. *)
Fixpoint fit_epochs (m : Model) (train_ds : TfData.Dataset TfData.Batch)
  (epochs pass : nat) (w : Weights) : option Weights :=
  match epochs with
  | O => Some w
  | S epochs' =>
      bs ← mapM (encode_batch m) (train_ds (draws pass));
      fit_epochs m train_ds epochs' (pass + 2) (foldl optimizer_step w bs)
  end.

Definition fit (m : Model) (train_ds : TfData.Dataset TfData.Batch) (epochs : nat)
  : option Model :=
  w ← fit_epochs m train_ds epochs 9 (weights m);
  Some (mkModel (inputs m) (features m) w).

(** Modelled from the spec: [Model.predict] is library code.  The call
    must supply a tensor for every input slot of the model, of a type the
    slot accepts and all of one length, or it fails; otherwise every row
    goes through the encoders and the network, and the network's output
    is returned as it is. *)
Definition predict (m : Model) (x : gmap string (list value))
  : error + list (list R) :=
  match gather x (inputs m) with
  | inl e => inl e
  | inr ts =>
      match list_find (λ st, ¬ Forall (λ v, accepts (input_dtype st.1) v = true) st.2) ts with
      | Some (_, (s, _)) => inl (WrongType (input_name s))
      | None =>
          let n := from_option (λ st, length st.2) 0 (head ts) in
          match list_find (λ st, length st.2 ≠ n) ts with
          | Some (_, (s, _)) => inl (ShapeMismatch (input_name s))
          | None =>
              match mapM (encode_row m x) (seq 0 n) with
              | None => inl (MissingInput "")
              | Some rows => inr (network (weights m) <$> rows)
              end
          end
      end
  end.

(** Lines 318-322: the prediction of the example, and the chance the
    script prints. *)
Definition predictions (m : Model) : error + list (list R) := predict m input_dict.

Definition printed_chance (p : list (list R)) : option R :=
  row ← p !! 0; x ← row !! 0; Some (100 * x)%R.

End Script.

(** * Example data

    A generator that lists the positions in descending order, a table of
    seven records read from CSV lines, in which every account was created
    in 2010, and a frame whose rows all carry the index label 0. *)

Definition descending (seed : Z) (n : nat) : list nat := rev (seq 0 n).

Definition example_header : list string :=
  [ "followers"; "following"; "creation_date"; "number_of_tweets"; "Retweet_Ratio";
    "Profile_picture"; "Tweets_Per_Day"; "Bot_Score"; "Bot_or_Not" ].

Definition example_line (i : nat) : list value :=
  [ VInt (Z.of_nat (10 * i)); VInt (Z.of_nat (5 * i + 1)); VInt 2010;
    VInt (Z.of_nat (100 * i)); VFloat (Z.of_nat i # 10); VInt (Z.of_nat (i mod 2));
    VFloat (Z.of_nat i # 2); VInt (Z.of_nat (i mod 3)); VInt (Z.of_nat (i mod 2)) ].

Definition example_lines : list (list value) := example_line <$> seq 0 7.

Definition example_dataframe : DataFrame :=
  mkDataFrame example_header
    (imap (λ i l, mkRow (Z.of_nat i) (list_to_map (zip example_header l)))
          example_lines).

Definition same_label_dataframe : DataFrame :=
  mkDataFrame ["Bot_or_Not"] (replicate 7 (mkRow 0 {[ "Bot_or_Not" := VInt 1 ]})).

(** The training dataset the wrapper and [batch] make of the example
    table. *)
Definition example_train_ds : TfData.Dataset TfData.Batch :=
  match dataframe_to_dataset 1%positive {[ 1%positive := example_dataframe ]} with
  | Some (ds, _) => TfData.batch 32 ds
  | None => λ _, []
  end.

(** The values the adapt passes see on the example table, and the model
    built from them. *)
Definition example_features : list Tensor :=
  [ mkTensor followers
      (Normalization_adapt (value_to_R <$> (VInt <$> [0; 10; 20; 30; 40; 50; 60]%Z)));
    mkTensor following
      (Normalization_adapt (value_to_R <$> (VInt <$> [1; 6; 11; 16; 21; 26; 31]%Z)));
    mkTensor creation_date
      (Normalization_adapt (value_to_R <$> replicate 7 (VInt 2010)));
    mkTensor number_of_tweets
      (Normalization_adapt
         (value_to_R <$> (VInt <$> [0; 100; 200; 300; 400; 500; 600]%Z)));
    mkTensor Retweet_Ratio
      (Normalization_adapt
         (value_to_R <$> (VFloat <$> [0 # 10; 1 # 10; 2 # 10; 3 # 10; 4 # 10; 5 # 10;
                                      6 # 10])));
    mkTensor Profile_pic
      (CategoryEncoding_adapt (value_to_code <$> (VInt <$> [0; 1; 0; 1; 0; 1; 0]%Z)));
    mkTensor Tweets_Per_Day
      (CategoryEncoding_adapt (value_to_code <$> (VInt <$> [0; 1; 2; 0; 1; 2; 0]%Z)));
    mkTensor Bot_Score
      (Normalization_adapt
         (value_to_R <$> (VFloat <$> [0 # 2; 1 # 2; 2 # 2; 3 # 2; 4 # 2; 5 # 2;
                                      6 # 2]))) ].

(** Two runs on the example table as training frame, with different
    validation frames, stores and shuffling draws. *)
Definition example_store1 : Store :=
  {[ 1%positive := example_dataframe; 2%positive := same_label_dataframe ]}.

Definition example_store2 : Store :=
  {[ 5%positive := example_dataframe; 3%positive := example_dataframe ]}.

Definition example_draws (k : nat) : list nat := [k; 2 * k; 1; k].

Definition no_datasets : TfData.Dataset TfData.Batch * TfData.Dataset TfData.Batch :=
  (λ _, [], λ _, []).

Definition example_datasets1 : TfData.Dataset TfData.Batch * TfData.Dataset TfData.Batch :=
  from_option fst no_datasets (datasets 1%positive 2%positive example_store1).

Definition example_datasets2 : TfData.Dataset TfData.Batch * TfData.Dataset TfData.Batch :=
  from_option fst no_datasets (datasets 5%positive 3%positive example_store2).

(** The script's sample completed with a value for the input it leaves
    out. *)
Definition completed_input_dict : gmap string (list value) :=
  <[ "Tweets_Per_Day" := [VFloat (2 # 1)] ]> input_dict.

(** * The script up to the batched datasets *)

Section Pipeline.

Variable permutation : Z → nat → list nat.
Variable entropy : Z.

(** Lines 62-121 in one piece: the table is read, split, both partitions
    are bound to names, wrapped and batched. *)
Definition prepare_datasets (header : list string) (lines : list (list value))
  : M (TfData.Dataset TfData.Batch * TfData.Dataset TfData.Batch) :=
  let! df := raise_if_none (Pandas.read_csv header lines) in
  let! dataframe := alloc df in
  let! val_dataframe := alloc (val_dataframe permutation entropy df) in
  let! train := raise_if_none (train_dataframe permutation entropy df) in
  let! train_dataframe := alloc train in
  datasets train_dataframe val_dataframe.

End Pipeline.

(** A frame is complete when every row has a cell for exactly the columns
    of the frame. *)
Definition complete (df : DataFrame) : Prop :=
  ∀ r, r ∈ df_rows df → dom (row_cells r) = (list_to_set (df_columns df) : gset string).

(** The names of the model's input slots. *)
Definition feature_names : list string := input_name <$> all_inputs.

(** The example table without its label column. *)
Definition unlabelled_header : list string :=
  [ "followers"; "following"; "creation_date"; "number_of_tweets"; "Retweet_Ratio";
    "Profile_picture"; "Tweets_Per_Day"; "Bot_Score" ].

Definition unlabelled_lines : list (list value) := take 8 <$> example_lines.

(** A store that holds the example table. *)
Definition example_store : Store := {[ 1%positive := example_dataframe ]}.

(** The values of the example table's columns "Bot_or_Not" and
    "followers". *)
Definition example_labels : list value :=
  VInt <$> [0; 1; 0; 1; 0; 1; 0]%Z.

Definition example_followers : list value :=
  VInt <$> [0; 10; 20; 30; 40; 50; 60]%Z.




(** Initial weights that are not empty, an optimizer update that moves
    the bias of the output unit, the model of the example table with
    these weights, and the completed sample with a float for the integer
    input "Bot_Score". *)
Definition example_initializer (n width : nat) : list (list R) * list R :=
  (replicate n (replicate width (1 / 10)%R), replicate n 0%R).

Definition example_optimizer_step (w : Weights) (b : list (list R * R)) : Weights :=
  mkWeights (hidden w)
    (mkDense (units (output w)) (kernel (output w))
       ((λ c, (c - 1 / 100)%R) <$> bias (output w))).

Definition example_model : Model :=
  mkModel all_inputs example_features
    (mkWeights
       (dense example_initializer 32
          (sum_list (output_width ∘ tensor_layer <$> example_features)))
       (dense example_initializer 1 32)).

Definition float_bot_score_input_dict : gmap string (list value) :=
  <[ "Bot_Score" := [VFloat (5 # 2)] ]> completed_input_dict.

(** * Properties of the split *)

Section SplitFacts.
Variable permutation : Z → nat → list nat.
Hypothesis permutation_spec : ∀ seed n, permutation seed n ≡ₚ seq 0 n.
Variable entropy : Z.

Lemma sample_locs_NoDup seed k n : NoDup (take k (permutation seed n)).
Proof.
  eapply sublist_NoDup; [|apply sublist_take].
  rewrite (permutation_spec seed n). apply NoDup_seq.
Qed.

Lemma sample_locs_lt seed k n i : i ∈ take k (permutation seed n) → (i < n)%nat.
Proof.
  intros Hi. apply elem_of_take in Hi as (j & Hj & _).
  apply list_elem_of_lookup_2 in Hj. rewrite (permutation_spec seed n) in Hj.
  apply elem_of_seq in Hj. lia.
Qed.

Lemma sample_locs_length seed k n : (k ≤ n)%nat → length (take k (permutation seed n)) = k.
Proof.
  intros Hk. rewrite length_take, (Permutation_length (permutation_spec seed n)), length_seq. lia.
Qed.

Lemma omap_lookup_rows {A} (l : list A) (locs : list nat) :
  (∀ i, i ∈ locs → (i < length l)%nat) →
  length (omap (λ i, l !! i) locs) = length locs.
Proof.
  induction locs as [|i locs IH]; intros Hlt; [done|].
  cbn. destruct (lookup_lt_is_Some_2 l i) as [x Hx]; [apply Hlt; left|].
  rewrite Hx. cbn. f_equal. apply IH. intros j Hj. apply Hlt. by right.
Qed.

Lemma omap_lookup_NoDup {A} (l : list A) (locs : list nat) :
  NoDup l → NoDup locs → NoDup (omap (λ i, l !! i) locs).
Proof.
  intros Hl. induction 1 as [|i locs Hi Hlocs IH]; [constructor|].
  cbn. destruct (l !! i) as [x|] eqn:Hx; [|done].
  cbn. constructor; [|done].
  intros Hin. apply list_elem_of_omap in Hin as (j & Hj & Hjx).
  assert (i = j) as -> by exact (NoDup_lookup l i j x Hl Hx Hjx). done.
Qed.

Lemma elem_of_sample_rows frac rs df r :
  r ∈ df_rows (Pandas.sample permutation entropy frac rs df) → r ∈ df_rows df.
Proof.
  cbn. intros Hin. apply list_elem_of_omap in Hin as (j & _ & Hj).
  by eapply list_elem_of_lookup_2.
Qed.

Lemma filter_ext_elem {A} (P Q : A → Prop) `{∀ x, Decision (P x)} `{∀ x, Decision (Q x)}
  (l : list A) : (∀ x, x ∈ l → (P x ↔ Q x)) → filter P l = filter Q l.
Proof.
  induction l as [|x l IH]; intros Hl; [done|].
  rewrite !filter_cons. rewrite IH by (intros y Hy; apply Hl; by right).
  destruct (decide (P x)) as [HP|HP], (decide (Q x)) as [HQ|HQ]; try done.
  - destruct HQ. apply Hl; [left|done].
  - destruct HP. apply Hl; [left|done].
Qed.

Lemma NoDup_rows_of_labels (rows : list Row) : NoDup (row_label <$> rows) → NoDup rows.
Proof. apply NoDup_fmap_1. Qed.

Lemma label_inj_rows (rows : list Row) r1 r2 :
  NoDup (row_label <$> rows) → r1 ∈ rows → r2 ∈ rows →
  row_label r1 = row_label r2 → r1 = r2.
Proof.
  intros Hnd H1 H2 Heq.
  apply list_elem_of_lookup in H1 as [i Hi], H2 as [j Hj].
  assert (i = j).
  { eapply NoDup_lookup; [exact Hnd| |]; rewrite list_lookup_fmap.
    - by rewrite Hi.
    - rewrite Hj. cbn. by rewrite Heq. }
  subst. congruence.
Qed.

Lemma drop_sampled_is_Some frac rs df :
  Pandas.drop (df_index (Pandas.sample permutation entropy frac rs df)) df
  = Some (mkDataFrame (df_columns df)
            (filter (λ r, row_label r ∉ df_index (Pandas.sample permutation entropy frac rs df))
                    (df_rows df))).
Proof.
  unfold Pandas.drop. case_decide as Hall; [done|]. destruct Hall.
  apply Forall_forall. intros l Hl. unfold df_index in *.
  apply list_elem_of_fmap in Hl as (r & -> & Hr).
  apply list_elem_of_fmap. exists r. split; [done|]. by eapply elem_of_sample_rows.
Qed.


Lemma complement_by_label (rows val : list Row) r :
  NoDup (row_label <$> rows) → (∀ v, v ∈ val → v ∈ rows) → r ∈ rows →
  row_label r ∉ row_label <$> val ↔ r ∉ val.
Proof.
  intros Hnd Hsub Hr. split; intros Hn Hin; apply Hn.
  - apply list_elem_of_fmap. by exists r.
  - apply list_elem_of_fmap in Hin as (v & Heq & Hv).
    by rewrite (label_inj_rows rows r v Hnd Hr (Hsub v Hv) Heq).
Qed.

Lemma partition_lengths (rows val : list Row) :
  NoDup rows → NoDup val → (∀ r, r ∈ val → r ∈ rows) →
  (length val + length (filter (λ r, r ∉ val) rows) = length rows)%nat.
Proof.
  intros Hrows Hval Hsub.
  rewrite <- (Permutation_length (filter_app_complement (λ r, r ∈ val) rows)), length_app.
  f_equal. apply Permutation_length, NoDup_Permutation; [done|by apply NoDup_filter|].
  intros r. rewrite list_elem_of_filter. split; [intros Hr; split; [done|by apply Hsub]|by intros [Hr _]].
Qed.

Lemma sample_rows_NoDup frac rs df :
  NoDup (df_rows df) → NoDup (df_rows (Pandas.sample permutation entropy frac rs df)).
Proof. intros Hnd. cbn. apply omap_lookup_NoDup; [done|apply sample_locs_NoDup]. Qed.

Lemma round_half_even_bounds (N : nat) :
  let k := Pandas.round_half_even ((15 # 100) * inject_Z (Z.of_nat N)) in
  (0 ≤ k ≤ Z.of_nat N ∧ Z.abs (100 * k - 15 * Z.of_nat N) ≤ 50)%Z.
Proof.
  unfold Pandas.round_half_even. cbn [Qmult Qnum Qden inject_Z].
  replace (Z.pos (100 * 1)) with 100%Z by done.
  set (n := (15 * Z.of_nat N)%Z).
  assert (100 ≠ 0)%Z as Hnz by done. assert (0 < 100)%Z as Hpos by done.
  pose proof (Z.div_mod n 100 Hnz) as Hdm.
  pose proof (Z.mod_pos_bound n 100 Hpos) as Hmod.
  assert (0 ≤ n)%Z by lia.
  repeat case_match; cbn zeta; lia.
Qed.

Lemma sample_size_le N : (Pandas.sample_size (15 # 100) N ≤ N)%nat.
Proof. unfold Pandas.sample_size. pose proof (round_half_even_bounds N). cbn zeta in *. lia. Qed.

Lemma sample_len df rs :
  df_len (Pandas.sample permutation entropy (15 # 100) rs df)
  = Pandas.sample_size (15 # 100) (df_len df).
Proof.
  unfold df_len. cbn [Pandas.sample df_rows].
  rewrite omap_lookup_rows; [apply sample_locs_length, sample_size_le|].
  intros i. apply sample_locs_lt.
Qed.

End SplitFacts.

Lemma imap_of_nat_seq {A} (l : list A) k :
  imap (λ (i : nat) (_ : A), Z.of_nat (k + i)) l = Z.of_nat <$> seq k (length l).
Proof.
  revert k. induction l as [|x l IH]; intros k; [done|].
  cbn. f_equal; [f_equal; lia|]. rewrite <- (IH (S k)).
  apply imap_ext. intros i y _. cbn. f_equal. lia.
Qed.

Lemma read_csv_index header lines df :
  Pandas.read_csv header lines = Some df →
  df_index df = Z.of_nat <$> seq 0 (length lines).
Proof.
  unfold Pandas.read_csv. case_match; [|done]. intros [= <-].
  unfold df_index. cbn [df_rows]. rewrite fmap_imap.
  apply (imap_of_nat_seq lines 0).
Qed.

Lemma read_csv_index_NoDup header lines df :
  Pandas.read_csv header lines = Some df → NoDup (df_index df).
Proof.
  intros Hdf. rewrite (read_csv_index _ _ _ Hdf).
  apply NoDup_fmap_2; [apply Nat2Z.inj'|apply NoDup_seq].
Qed.

Section SplitTheorems.

Variable permutation : Z → nat → list nat.
Hypothesis permutation_spec : ∀ seed n, permutation seed n ≡ₚ seq 0 n.

Lemma split_distinct_index entropy seed dataframe :
  NoDup (df_index dataframe) →
  let val := Pandas.sample permutation entropy (15 # 100) (Some seed) dataframe in
  ∃ train,
    Pandas.drop (df_index val) dataframe = Some train
    ∧ df_rows train = filter (λ r, r ∉ df_rows val) (df_rows dataframe)
    ∧ (∀ r, r ∈ df_rows val → r ∉ df_rows train)
    ∧ (df_len val + df_len train = df_len dataframe)%nat.
Proof.
  intros Hnd val. eexists. split; [apply drop_sampled_is_Some|].
  cbn [df_rows]. fold val.
  assert (Hsub : ∀ r, r ∈ df_rows val → r ∈ df_rows dataframe)
    by (intros r; apply elem_of_sample_rows).
  assert (Hiff : ∀ r, r ∈ df_rows dataframe →
                   row_label r ∉ df_index val ↔ r ∉ df_rows val)
    by (intros r; by apply complement_by_label).
  unfold df_len. cbn [df_rows]. rewrite (filter_ext_elem _ _ _ Hiff).
  split; [done|]. split.
  - intros r Hr Hin. apply list_elem_of_filter in Hin as [Hn _]. by apply Hn.
  - apply partition_lengths; [|
      apply (sample_rows_NoDup permutation permutation_spec)|done];
      by apply NoDup_rows_of_labels.
Qed.

(** C3: for a table read from CSV and any fixed seed, the split does not
    depend on the entropy of the run, so running it again gives the same
    two partitions; no record is in both; their sizes add up to the number
    of records; and the validation partition holds 15% of the rows, as
    [sample] rounds it to a whole number of rows (within half a row).  The
    script's two frames are this split at seed 1337. *)
Theorem split_deterministic_disjoint_exhaustive header lines dataframe seed entropy :
  Pandas.read_csv header lines = Some dataframe →
  ∃ val train,
    split_at_seed permutation entropy seed dataframe = (val, Some train)
    ∧ (∀ entropy',
         split_at_seed permutation entropy' seed dataframe = (val, Some train))
    ∧ (∀ r, r ∈ df_rows val → r ∉ df_rows train)
    ∧ (df_len val + df_len train = df_len dataframe)%nat
    ∧ (Z.abs (100 * Z.of_nat (df_len val) - 15 * Z.of_nat (df_len dataframe)) ≤ 50)%Z
    ∧ (seed = 1337%Z →
       val_dataframe permutation entropy dataframe = val
       ∧ train_dataframe permutation entropy dataframe = Some train).
Proof.
  intros Hcsv. apply read_csv_index_NoDup in Hcsv.
  destruct (split_distinct_index entropy seed dataframe Hcsv)
    as (train & Hdrop & _ & Hdisj & Hlen).
  exists (Pandas.sample permutation entropy (15 # 100) (Some seed) dataframe), train.
  split; [unfold split_at_seed; cbn zeta; by rewrite Hdrop|].
  split; [intros entropy'; unfold split_at_seed; cbn zeta; by rewrite <- Hdrop|].
  split; [done|]. split; [done|]. split.
  - rewrite (sample_len permutation permutation_spec).
    unfold Pandas.sample_size.
    pose proof (round_half_even_bounds (df_len dataframe)) as Hb. cbn zeta in Hb.
    rewrite Z2Nat.id; lia.
  - intros ->. by split.
Qed.

(** C10: when the index labels are pairwise distinct, the training
    partition is exactly the rows that were not sampled, so the two
    partitions are disjoint and their sizes add up; in every frame,
    dropping by index removes each row that shares its label with a
    sampled row; and in a frame whose rows share one label the sizes do
    not add up, so distinct labels are needed. *)
Theorem split_complement_needs_distinct_index entropy dataframe :
  let val := val_dataframe permutation entropy dataframe in
  (NoDup (df_index dataframe) →
   ∃ train,
     train_dataframe permutation entropy dataframe = Some train
     ∧ df_rows train = filter (λ r, r ∉ df_rows val) (df_rows dataframe)
     ∧ (∀ r, r ∈ df_rows val → r ∉ df_rows train)
     ∧ (df_len val + df_len train = df_len dataframe)%nat)
  ∧ (∀ train r,
       train_dataframe permutation entropy dataframe = Some train →
       r ∈ df_rows dataframe → row_label r ∈ df_index val → r ∉ df_rows train)
  ∧ (¬ NoDup (df_index same_label_dataframe)
     ∧ ∃ train,
         train_dataframe permutation entropy same_label_dataframe = Some train
         ∧ (df_len (val_dataframe permutation entropy same_label_dataframe)
            + df_len train < df_len same_label_dataframe)%nat).
Proof.
  intros val. split; [|split].
  - intros Hnd. apply (split_distinct_index entropy 1337%Z dataframe Hnd).
  - intros train r. subst val. unfold train_dataframe, val_dataframe.
    rewrite drop_sampled_is_Some. intros [= <-] _ Hlabel Hin. cbn [df_rows] in Hin.
    apply list_elem_of_filter in Hin as [Hn _]. by apply Hn.
  - split.
    + intros Hnd. cbn in Hnd. apply NoDup_cons in Hnd as [Hnin _]. apply Hnin. left.
    + unfold train_dataframe, val_dataframe. rewrite drop_sampled_is_Some.
      eexists. split; [done|].
      fold (val_dataframe permutation entropy same_label_dataframe).
      set (v := val_dataframe permutation entropy same_label_dataframe).
      assert (Hlen : df_len v = 1%nat)
        by apply (sample_len permutation permutation_spec).
      rewrite Hlen. unfold df_len at 1. cbn [df_rows].
      assert (Hall : ∀ r, r ∈ df_rows same_label_dataframe →
                          ¬ (row_label r ∉ df_index v)).
      { intros r Hr Hn. apply Hn. clear Hn.
        destruct (df_rows v) as [|r0 rs] eqn:Hv;
          [unfold df_len in Hlen; by rewrite Hv in Hlen|].
        assert (Hr0 : r0 ∈ df_rows same_label_dataframe).
        { apply (elem_of_sample_rows permutation entropy (15 # 100) (Some 1337%Z)).
          fold (val_dataframe permutation entropy same_label_dataframe). fold v.
          rewrite Hv. left. }
        apply elem_of_replicate in Hr as [-> _], Hr0 as [-> _].
        unfold df_index. rewrite Hv. left. }
      destruct (filter _ (df_rows same_label_dataframe)) as [|x xs] eqn:Hf;
        [cbn; lia|].
      assert (Hx : x ∈ x :: xs) by left. rewrite <- Hf in Hx.
      apply list_elem_of_filter in Hx as [HP Hx]. by destruct (Hall x Hx).
Qed.

End SplitTheorems.

Lemma descending_spec seed n : descending seed n ≡ₚ seq 0 n.
Proof. unfold descending. symmetry. apply Permutation_rev. Qed.

Lemma split_deterministic_disjoint_exhaustive_witness :
  (∀ seed n, descending seed n ≡ₚ seq 0 n)
  ∧ Pandas.read_csv example_header example_lines = Some example_dataframe
  ∧ ∃ val train,
      split_at_seed descending 0 1337 example_dataframe = (val, Some train)
      ∧ (∀ entropy',
           split_at_seed descending entropy' 1337 example_dataframe = (val, Some train))
      ∧ (∀ r, r ∈ df_rows val → r ∉ df_rows train)
      ∧ (df_len val + df_len train = df_len example_dataframe)%nat
      ∧ (Z.abs (100 * Z.of_nat (df_len val)
                - 15 * Z.of_nat (df_len example_dataframe)) ≤ 50)%Z
      ∧ (1337%Z = 1337%Z →
         val_dataframe descending 0 example_dataframe = val
         ∧ train_dataframe descending 0 example_dataframe = Some train).
Proof.
  split; [exact descending_spec|]. split; [vm_compute; reflexivity|].
  apply (split_deterministic_disjoint_exhaustive descending descending_spec
           example_header example_lines example_dataframe 1337%Z 0%Z).
  vm_compute. reflexivity.
Defined.

Lemma split_complement_needs_distinct_index_witness :
  (∀ seed n, descending seed n ≡ₚ seq 0 n)
  ∧ NoDup (df_index example_dataframe)
  ∧ ∃ train,
      train_dataframe descending 0 example_dataframe = Some train
      ∧ df_rows train
        = filter (λ r, r ∉ df_rows (val_dataframe descending 0 example_dataframe))
                 (df_rows example_dataframe)
      ∧ (∀ r, r ∈ df_rows (val_dataframe descending 0 example_dataframe) →
              r ∉ df_rows train)
      ∧ (df_len (val_dataframe descending 0 example_dataframe) + df_len train
         = df_len example_dataframe)%nat.
Proof.
  assert (Hnd : NoDup (df_index example_dataframe))
    by (apply (bool_decide_unpack _); vm_compute; reflexivity).
  split; [exact descending_spec|]. split; [exact Hnd|].
  exact (proj1 (split_complement_needs_distinct_index descending descending_spec
                  0%Z example_dataframe) Hnd).
Defined.

(** * Properties of shuffling and batching *)

Section Shuffle.

Context {A : Type}.
Implicit Types (buffer rest l p : list A) (draws : list nat).

Lemma insert_delete_Permutation buffer i y :
  (i < length buffer)%nat → <[i := y]> buffer ≡ₚ y :: delete i buffer.
Proof.
  revert i. induction buffer as [|x buffer IH]; intros [|i] Hi; cbn in *; try lia.
  - done.
  - rewrite (IH i) by lia. apply perm_swap.
Qed.

Lemma shuffle_run_Permutation fuel draws buffer rest :
  (length buffer + length rest ≤ fuel)%nat →
  (buffer = [] → rest = []) →
  TfData.shuffle_run fuel draws buffer rest ≡ₚ buffer ++ rest.
Proof.
  revert draws buffer rest.
  induction fuel as [|fuel IH]; intros draws buffer rest Hfuel Hbuf.
  - destruct buffer, rest; cbn in *; (done || lia).
  - cbn [TfData.shuffle_run].
    destruct (decide (buffer = [])) as [->|Hne]; [by rewrite (Hbuf eq_refl)|].
    assert (0 < length buffer)%nat as Hpos by (destruct buffer; cbn; (done || lia)).
    set (i := (hd 0%nat draws mod length buffer)%nat).
    assert (i < length buffer)%nat as Hi by (apply Nat.mod_upper_bound; lia).
    destruct (lookup_lt_is_Some_2 buffer i Hi) as [x Hx]. rewrite Hx.
    destruct rest as [|y rest].
    + rewrite IH.
      * rewrite !app_nil_r. symmetry. by apply delete_Permutation.
      * rewrite length_delete by eauto. cbn in *. lia.
      * done.
    + rewrite IH.
      * rewrite insert_delete_Permutation by done.
        etransitivity;
          [|symmetry; apply Permutation_app_tail, (delete_Permutation buffer i x Hx)].
        cbn. apply perm_skip, Permutation_middle.
      * rewrite length_insert. cbn in *. lia.
      * intros Hnil. apply (f_equal length) in Hnil.
        rewrite length_insert in Hnil. cbn in Hnil. lia.
Qed.


(** With a buffer as long as the sequence, a pass yields a permutation of
    the sequence, and every permutation is the outcome of some draws. *)
Lemma shuffle_full_Permutation l draws :
  TfData.shuffle (length l) (λ _, l) draws ≡ₚ l.
Proof.
  unfold TfData.shuffle. rewrite firstn_all, drop_all.
  rewrite shuffle_run_Permutation; [by rewrite app_nil_r|cbn; lia|done].
Qed.


End Shuffle.

Section Chunks.

Context {A : Type}.
Implicit Types l b : list A.

Lemma chunks_lookup fuel n l i b :
  TfData.chunks fuel n l !! i = Some b →
  b = take n (drop (i * n) l) ∧ (i * n < length l ∨ n = 0)%nat.
Proof.
  revert l i. induction fuel as [|fuel IH]; intros l i; [done|].
  cbn [TfData.chunks]. destruct l as [|x l]; [done|].
  destruct i as [|i].
  - intros [= <-]. split; [done|]. cbn. lia.
  - cbn [lookup list_lookup]. intros Hb. apply IH in Hb as [-> Hlt].
    rewrite drop_drop. split; [f_equal; f_equal; lia|].
    rewrite length_drop in Hlt. lia.
Qed.



Lemma chunks_concat fuel n l :
  (0 < n)%nat → (length l ≤ fuel)%nat → concat (TfData.chunks fuel n l) = l.
Proof.
  intros Hn. revert l. induction fuel as [|fuel IH]; intros l Hfuel.
  - destruct l; cbn in *; (done || lia).
  - cbn [TfData.chunks]. destruct l as [|x l]; [done|].
    cbn [concat]. rewrite IH; [apply take_drop|].
    rewrite length_drop. cbn [length] in *. lia.
Qed.

Lemma chunks_elem_of fuel n l b x :
  b ∈ TfData.chunks fuel n l → x ∈ b → x ∈ l.
Proof.
  intros Hb Hx. apply list_elem_of_lookup in Hb as [i Hi].
  apply chunks_lookup in Hi as [-> _].
  apply elem_of_take in Hx as (j & Hj & _). rewrite lookup_drop in Hj.
  by eapply list_elem_of_lookup_2.
Qed.

End Chunks.

(** * Properties of the dataset wrapper *)

Lemma mapM_lookup {A B} (f : A → option B) (l : list A) (k : list B) i :
  mapM f l = Some k → k !! i = l !! i ≫= f.
Proof.
  rewrite mapM_Some. intros HF. revert i.
  induction HF as [|x y l k Hxy _ IH]; intros [|i]; cbn; first [done|apply IH].
Qed.

Lemma list_to_map_omap_lookup {V} (g : string → option V) (cols : list string) name :
  (list_to_map (omap (λ c, (c ,.) <$> g c) cols) : gmap string V) !! name
  = if decide (name ∈ cols) then g name else None.
Proof.
  induction cols as [|c cols IH]; [done|].
  cbn [omap list_omap]. destruct (decide (c = name)) as [->|Hne].
  - rewrite decide_True by left. destruct (g name) as [v|] eqn:Hg; cbn.
    + by rewrite lookup_insert_eq.
    + rewrite IH. by case_decide.
  - assert (name ∈ c :: cols ↔ name ∈ cols) as Hiff.
    { rewrite elem_of_cons. split; [intros [Heq|Hin]; [by destruct Hne|done]|by right]. }
    destruct (g c) as [v|]; cbn; [rewrite lookup_insert_ne by done|];
      rewrite IH; repeat case_decide; tauto.
Qed.

Lemma df_column_elem_of name df col :
  df_column name df = Some col → name ∈ df_columns df.
Proof. unfold df_column. by case_decide. Qed.

Lemma dict_lookup df name : dict df !! name = df_column name df.
Proof.
  unfold dict. rewrite list_to_map_omap_lookup. case_decide as Hin; [done|].
  unfold df_column. by rewrite decide_False.
Qed.

Lemma df_column_lookup name df col i :
  df_column name df = Some col →
  col !! i = df_rows df !! i ≫= λ r, row_cells r !! name.
Proof. unfold df_column. case_decide; [apply mapM_lookup|done]. Qed.

Lemma df_column_length name df col :
  df_column name df = Some col → length col = df_len df.
Proof.
  unfold df_column, df_len. case_decide; [|done].
  intros Hm. by rewrite (length_mapM _ _ _ Hm).
Qed.

Lemma df_without_len name df : df_len (df_without name df) = df_len df.
Proof. unfold df_len, df_without. cbn. apply length_fmap. Qed.

Lemma df_without_column name df : df_column name (df_without name df) = None.
Proof.
  unfold df_column, df_without. cbn [df_columns]. rewrite decide_False; [done|].
  rewrite list_elem_of_filter. by intros [? _].
Qed.

Lemma slices_lookup d labels i :
  TfData.slices d labels !! i
  = (λ y, (omap (λ col : list value, col !! i) d, y)) <$> labels !! i.
Proof.
  unfold TfData.slices.
  exact (list_lookup_imap (λ i y, (omap (λ col : list value, col !! i) d, y)) labels i).
Qed.

Lemma slices_length d labels : length (TfData.slices d labels) = length labels.
Proof. unfold TfData.slices. apply length_imap. Qed.

(** The features of the [i]-th element of a wrapped frame are cells of the
    [i]-th row other than the label, and its target is that row's label. *)
Lemma slices_element label df labels i e :
  df_column label df = Some labels →
  TfData.slices (dict (df_without label df)) labels !! i = Some e →
  ∃ r, df_rows df !! i = Some r
       ∧ row_cells r !! label = Some e.2
       ∧ e.1 !! label = None
       ∧ e.1 ⊆ delete label (row_cells r).
Proof.
  intros Hlabels. rewrite slices_lookup.
  destruct (labels !! i) as [y|] eqn:Hy; [|done]. intros [= <-]. cbn [fst snd].
  rewrite (df_column_lookup _ _ _ i Hlabels) in Hy.
  destruct (df_rows df !! i) as [r|] eqn:Hr; [|done]. cbn in Hy.
  exists r. split; [done|]. split; [done|]. split.
  - by rewrite lookup_omap, dict_lookup, df_without_column.
  - apply map_subseteq_spec. intros name v.
    rewrite lookup_omap, dict_lookup.
    destruct (df_column name (df_without label df)) as [col|] eqn:Hcol; [|done].
    cbn. rewrite (df_column_lookup _ _ _ i Hcol).
    unfold df_without. cbn [df_rows]. by rewrite list_lookup_fmap, Hr.
Qed.

(** Every element of a wrapped frame has the same feature names. *)
Lemma slices_same_keys df labels e e' name :
  (∀ c col, dict df !! c = Some col → length col = length labels) →
  e ∈ TfData.slices (dict df) labels → e' ∈ TfData.slices (dict df) labels →
  is_Some (e.1 !! name) → is_Some (e'.1 !! name).
Proof.
  intros Hlen He He'.
  apply list_elem_of_lookup in He as [i Hi], He' as [j Hj].
  rewrite slices_lookup in Hi, Hj.
  destruct (labels !! i) as [y|] eqn:Hy; [|done].
  destruct (labels !! j) as [y'|] eqn:Hy'; [|done].
  injection Hi as <-. injection Hj as <-. cbn [fst].
  rewrite !lookup_omap. destruct (dict df !! name) as [col|] eqn:Hcol; cbn.
  - intros _. apply lookup_lt_is_Some. rewrite (Hlen _ _ Hcol).
    by eapply lookup_lt_Some.
  - by intros [? ?].
Qed.

Lemma next_loc_fresh (σ : Store) : σ !! next_loc σ = None.
Proof.
  assert (Hbound : ∀ l, is_Some (σ !! l) →
            (l ≤ map_fold (λ l _ acc, Pos.max l acc) 1 σ)%positive).
  { apply (map_fold_weak_ind
             (λ b (m : gmap positive DataFrame),
                ∀ l, is_Some (m !! l) → (l ≤ b)%positive)).
    - intros l [? Hl]. by apply lookup_empty_Some in Hl.
    - intros i x m r _ IH l Hl. destruct (decide (i = l)) as [->|Hne]; [lia|].
      rewrite lookup_insert_ne in Hl by done. specialize (IH l Hl). lia. }
  apply eq_None_not_Some. intros Hsome. apply Hbound in Hsome.
  unfold next_loc in Hsome. lia.
Qed.

(** What a call of the wrapper returns and what it leaves in the store. *)
Lemma dataframe_to_dataset_eq σ dataframe df labels :
  σ !! dataframe = Some df →
  df_column "Bot_or_Not" df = Some labels →
  dataframe_to_dataset dataframe σ
  = Some (TfData.shuffle (df_len df)
            (λ _, TfData.slices (dict (df_without "Bot_or_Not" df)) labels),
          <[next_loc σ := df_without "Bot_or_Not" df]> σ).
Proof.
  intros Hdf Hlabels.
  unfold dataframe_to_dataset, bind, copy, bind, deref, alloc, pop, raise_if_none, ret.
  unfold Store, loc in *.
  rewrite Hdf. rewrite lookup_insert_eq, Hlabels, insert_insert_eq, lookup_insert_eq.
  unfold TfData.from_tensor_slices. rewrite decide_True, df_without_len; [done|].
  intros name col. rewrite dict_lookup. intros Hcol.
  rewrite (df_column_length _ _ _ Hcol), df_without_len.
  symmetry. by eapply df_column_length.
Qed.

Lemma dataset_slice_lengths label df labels c col :
  df_column label df = Some labels →
  dict (df_without label df) !! c = Some col → length col = length labels.
Proof.
  intros Hlabels. rewrite dict_lookup. intros Hcol.
  rewrite (df_column_length _ _ _ Hcol), df_without_len.
  symmetry. by eapply df_column_length.
Qed.



Lemma df_without_column_ne label name df :
  name ≠ label → df_column name (df_without label df) = df_column name df.
Proof.
  intros Hne. unfold df_column, df_without. cbn [df_columns df_rows].
  assert (Hrows : mapM (λ r, row_cells r !! name)
                    ((λ r, mkRow (row_label r) (delete label (row_cells r)))
                       <$> df_rows df)
                  = mapM (λ r, row_cells r !! name) (df_rows df)).
  { induction (df_rows df) as [|r rows IH]; [done|].
    cbn. rewrite lookup_delete_ne by done.
    destruct (row_cells r !! name); [|done]. cbn. cbn in IH. by rewrite IH. }
  rewrite Hrows. repeat case_decide; try done.
  - exfalso. rewrite list_elem_of_filter in *. tauto.
  - exfalso. rewrite list_elem_of_filter in *. tauto.
Qed.

Lemma batch_labels (ds : TfData.Dataset TfData.Element) pass :
  concat ((λ b : TfData.Batch, b.2) <$> TfData.batch 32 ds pass) = snd <$> ds pass.
Proof.
  unfold TfData.batch. rewrite <- list_fmap_compose.
  rewrite <- (chunks_concat (length (ds pass)) 32 (ds pass)) at 3 by lia.
  induction (TfData.chunks _ _ _) as [|c cs IH]; [done|].
  cbn. by rewrite fmap_app, IH.
Qed.





(** Without the copy, [pop] changes the frame it is called on. *)
Lemma pop_mutates σ l (name : string) col σ' df :
  σ !! l = Some df → pop l name σ = Some (col, σ') →
  σ' !! l = Some (df_without name df).
Proof.
  unfold pop. intros ->. destruct (df_column name df); [|done].
  intros [= _ <-]. unfold Store, loc in *. apply lookup_insert_eq.
Qed.

(** C9: a call of the wrapper leaves the caller's frame as it was, label
    column and rows included, and changes no other object of the store;
    every pair it yields has a feature mapping without the label key,
    made of cells of one row, and that row's label as target. *)
Theorem wrapper_leaves_argument_unchanged σ dataframe df labels :
  σ !! dataframe = Some df →
  df_column "Bot_or_Not" df = Some labels →
  ∃ ds σ',
    dataframe_to_dataset dataframe σ = Some (ds, σ')
    ∧ σ' !! dataframe = Some df
    ∧ "Bot_or_Not" ∈ df_columns df
    ∧ (∀ l, is_Some (σ !! l) → σ' !! l = σ !! l)
    ∧ ∀ draws e, e ∈ ds draws →
        e.1 !! "Bot_or_Not" = None
        ∧ ∃ r, r ∈ df_rows df
               ∧ row_cells r !! "Bot_or_Not" = Some e.2
               ∧ e.1 ⊆ delete "Bot_or_Not" (row_cells r).
Proof.
  intros Hdf Hlabels. do 2 eexists.
  split; [by apply dataframe_to_dataset_eq|].
  assert (Hfresh : ∀ l, is_Some (σ !! l) → next_loc σ ≠ l).
  { intros l [x Hl] <-. by rewrite next_loc_fresh in Hl. }
  unfold Store, loc in *.
  split; [rewrite lookup_insert_ne; [done|by apply Hfresh]|].
  split; [by eapply df_column_elem_of|].
  split; [intros l Hl; rewrite lookup_insert_ne; [done|by apply Hfresh]|].
  intros draws e He.
  assert (Hlen : length (TfData.slices (dict (df_without "Bot_or_Not" df)) labels)
                 = df_len df).
  { rewrite slices_length. by eapply df_column_length. }
  rewrite <- Hlen, shuffle_full_Permutation in He.
  apply list_elem_of_lookup in He as [i Hi].
  destruct (slices_element _ _ _ _ _ Hlabels Hi) as (r & Hr & Hy & Hnone & Hsub).
  split; [done|]. exists r. split; [by eapply list_elem_of_lookup_2|done].
Qed.

Lemma wrapper_leaves_argument_unchanged_witness :
  ∃ ds σ',
    dataframe_to_dataset 1%positive {[ 1%positive := example_dataframe ]} = Some (ds, σ')
    ∧ σ' !! 1%positive = Some example_dataframe
    ∧ "Bot_or_Not" ∈ df_columns example_dataframe
    ∧ (∀ l, is_Some (({[ 1%positive := example_dataframe ]} : Store) !! l) →
            σ' !! l = ({[ 1%positive := example_dataframe ]} : Store) !! l)
    ∧ ∀ draws e, e ∈ ds draws →
        e.1 !! "Bot_or_Not" = None
        ∧ ∃ r, r ∈ df_rows example_dataframe
               ∧ row_cells r !! "Bot_or_Not" = Some e.2
               ∧ e.1 ⊆ delete "Bot_or_Not" (row_cells r).
Proof.
  apply (wrapper_leaves_argument_unchanged {[ 1%positive := example_dataframe ]}
           1%positive example_dataframe
           [VInt 0; VInt 1; VInt 0; VInt 1; VInt 0; VInt 1; VInt 0]).
  - vm_compute. reflexivity.
  - vm_compute. reflexivity.
Defined.

(** * Properties of the encoders *)

Lemma concat_expand_dims (x : list value) : concat (expand_dims x) = x.
Proof. unfold expand_dims. induction x as [|v x IH]; [done|]. cbn. by rewrite IH. Qed.

Lemma concat_concat_expand_dims (cols : list (list value)) :
  concat (concat (expand_dims <$> cols)) = concat cols.
Proof.
  induction cols as [|x cols IH]; [done|].
  cbn. by rewrite concat_app, concat_expand_dims, IH.
Qed.

Lemma mapM_fmap_fmap {A B C} (f : A → option B) (g : B → C) (l : list A) :
  mapM (λ o, o) (fmap g <$> (f <$> l)) = fmap g <$> mapM f l.
Proof.
  induction l as [|a l IH]; [done|].
  cbn. destruct (f a) as [b|]; [|done]. cbn. rewrite IH.
  by destruct (mapM f l).
Qed.

Lemma feature_values_eq name (dataset : TfData.Dataset TfData.Batch) pass :
  feature_values name dataset pass
  = (λ cols, concat cols) <$> mapM (λ b : TfData.Batch, b.1 !! name) (dataset pass).
Proof.
  unfold feature_values, adapt_values, TfData.map. rewrite mapM_fmap_fmap.
  destruct (mapM _ (dataset pass)) as [cols|]; [|done].
  cbn. by rewrite concat_concat_expand_dims.
Qed.

Lemma encode_integer_categorical_feature_eq feature name dataset pass :
  encode_integer_categorical_feature feature name dataset pass
  = (λ xs, mkTensor feature (CategoryEncoding_adapt (value_to_code <$> xs)))
      <$> feature_values name dataset pass.
Proof.
  unfold encode_integer_categorical_feature, feature_values.
  by destruct (adapt_values _ _).
Qed.

Lemma encode_numerical_feature_eq feature name dataset pass :
  encode_numerical_feature feature name dataset pass
  = (λ xs, mkTensor feature (Normalization_adapt (value_to_R <$> xs)))
      <$> feature_values name dataset pass.
Proof.
  unfold encode_numerical_feature, feature_values.
  by destruct (adapt_values _ _).
Qed.

Section Vocabulary.

Implicit Types (codes : list Z) (c : Z).

Lemma learned_Permutation codes : learned codes ≡ₚ elements (list_to_set codes : gset Z).
Proof. apply merge_sort_Permutation. Qed.

Lemma learned_NoDup codes : NoDup (learned codes).
Proof. rewrite learned_Permutation. apply NoDup_elements. Qed.

Lemma elem_of_learned codes c : c ∈ learned codes ↔ c ∈ codes.
Proof. by rewrite learned_Permutation, elem_of_elements, elem_of_list_to_set. Qed.

Lemma learned_length codes : length (learned codes) = size (list_to_set codes : gset Z).
Proof. by rewrite learned_Permutation. Qed.

Lemma code_index_seen (vocabulary : list Z) c :
  c ∈ vocabulary →
  ∃ i, code_index vocabulary c = S i ∧ vocabulary !! i = Some c.
Proof.
  intros Hc. unfold code_index.
  destruct (list_find_elem_of (λ t, t = c) vocabulary c Hc eq_refl) as [[i t] Hfind].
  rewrite Hfind. apply list_find_Some in Hfind as (Hi & -> & _). by exists i.
Qed.

Lemma code_index_unseen (vocabulary : list Z) c :
  c ∉ vocabulary → code_index vocabulary c = 0%nat.
Proof.
  intros Hc. unfold code_index.
  destruct (list_find _ _) as [[i t]|] eqn:Hfind; [|done].
  apply list_find_Some in Hfind as (Hi & -> & _).
  destruct Hc. by eapply list_elem_of_lookup_2.
Qed.

Lemma one_hot_length width i : length (one_hot width i) = width.
Proof. unfold one_hot. by rewrite length_fmap, length_seq. Qed.

Lemma one_hot_lookup width i j :
  (j < width)%nat →
  one_hot width i !! j = Some (if decide (j = i) then 1%R else 0%R).
Proof.
  intros Hj. unfold one_hot. by rewrite list_lookup_fmap, lookup_seq_lt.
Qed.

End Vocabulary.

(** C2: after the adapt pass of an integer-categorical encoder, the
    one-hot width is the number of distinct codes seen plus one reserved
    slot; a seen code is encoded as a vector of that width with exactly
    one 1, at an index of its own among the seen codes and other than the
    reserved slot 0, and 0 elsewhere; a code that was not seen has its 1
    in the reserved slot. *)
Theorem integer_encoder_width_and_one_hot feature name dataset pass t :
  encode_integer_categorical_feature feature name dataset pass = Some t →
  ∃ xs,
    feature_values name dataset pass = Some xs
    ∧ let codes := value_to_code <$> xs in
      let width := output_width (tensor_layer t) in
      width = (size (list_to_set codes : gset Z) + 1)%nat
      ∧ (∀ v, length (call (tensor_layer t) v) = width)
      ∧ (∀ c, c ∈ codes →
           ∃ i, (0 < i < width)%nat
             ∧ (∀ j, (j < width)%nat →
                  call (tensor_layer t) (VInt c) !! j
                  = Some (if decide (j = i) then 1%R else 0%R))
             ∧ (∀ c', c' ∈ codes →
                  call (tensor_layer t) (VInt c') !! i = Some 1%R → c' = c))
      ∧ (∀ c, c ∉ codes →
           ∀ j, (j < width)%nat →
             call (tensor_layer t) (VInt c) !! j
             = Some (if decide (j = 0%nat) then 1%R else 0%R)).
Proof.
  rewrite encode_integer_categorical_feature_eq.
  destruct (feature_values name dataset pass) as [xs|]; [|done].
  intros [= <-]. exists xs. split; [done|]. intros codes width.
  unfold width. cbn [tensor_layer CategoryEncoding_adapt output_width call value_to_code].
  fold codes. unfold one_hot_width. rewrite learned_length.
  split; [lia|]. split; [intros v; by rewrite one_hot_length|]. split.
  - intros c Hc. apply elem_of_learned in Hc.
    destruct (code_index_seen _ _ Hc) as (i & Hidx & Hi).
    exists (S i). rewrite <- learned_length.
    split; [apply lookup_lt_Some in Hi; lia|]. split.
    + intros j Hj. by rewrite Hidx, one_hot_lookup.
    + intros c' Hc'. apply elem_of_learned in Hc'.
      destruct (code_index_seen _ _ Hc') as (i' & Hidx' & Hi').
      rewrite Hidx', one_hot_lookup by (apply lookup_lt_Some in Hi; lia).
      case_decide as Heq; [|intros [= H01]; symmetry in H01; by apply R1_neq_R0 in H01].
      intros _. injection Heq as ->. congruence.
  - intros c Hc j Hj. rewrite code_index_unseen; [by rewrite one_hot_lookup|].
    by rewrite elem_of_learned.
Qed.

Lemma integer_encoder_width_and_one_hot_witness :
  encode_integer_categorical_feature Profile_pic "Profile_picture" example_train_ds []
  = Some (mkTensor Profile_pic (CategoryEncoding [0; 1]%Z))
  ∧ ∃ xs,
      feature_values "Profile_picture" example_train_ds [] = Some xs
      ∧ let codes := value_to_code <$> xs in
        let width := output_width (CategoryEncoding [0; 1]%Z) in
        width = (size (list_to_set codes : gset Z) + 1)%nat
        ∧ (∀ v, length (call (CategoryEncoding [0; 1]%Z) v) = width)
        ∧ (∀ c, c ∈ codes →
             ∃ i, (0 < i < width)%nat
               ∧ (∀ j, (j < width)%nat →
                    call (CategoryEncoding [0; 1]%Z) (VInt c) !! j
                    = Some (if decide (j = i) then 1%R else 0%R))
               ∧ (∀ c', c' ∈ codes →
                    call (CategoryEncoding [0; 1]%Z) (VInt c') !! i = Some 1%R → c' = c))
        ∧ (∀ c, c ∉ codes →
             ∀ j, (j < width)%nat →
               call (CategoryEncoding [0; 1]%Z) (VInt c) !! j
               = Some (if decide (j = 0%nat) then 1%R else 0%R)).
Proof.
  split; [vm_compute; reflexivity|].
  apply (integer_encoder_width_and_one_hot Profile_pic "Profile_picture"
           example_train_ds [] (mkTensor Profile_pic (CategoryEncoding [0; 1]%Z))).
  vm_compute. reflexivity.
Defined.

(** ** Normalization *)

Section Statistics.

Open Scope R_scope.

Implicit Types (xs : list R) (m d c : R).

Lemma sum_fmap_affine xs m d :
  sum ((λ x, (x - m) / d) <$> xs) = (sum xs - INR (length xs) * m) / d.
Proof.
  induction xs as [|x xs IH].
  - cbn. unfold Rdiv. ring.
  - cbn [fmap list_fmap sum foldr length]. fold (sum ((λ x, (x - m) / d) <$> xs)).
    fold (sum xs). rewrite IH, S_INR. unfold Rdiv. ring.
Qed.

Lemma sum_fmap_div (f : R → R) xs d :
  sum ((λ x, f x / d) <$> xs) = sum (f <$> xs) / d.
Proof.
  induction xs as [|x xs IH].
  - cbn. unfold Rdiv. ring.
  - cbn [fmap list_fmap sum foldr]. fold (sum ((λ x, f x / d) <$> xs)).
    fold (sum (f <$> xs)). rewrite IH. unfold Rdiv. ring.
Qed.

Lemma mean_normalized xs m d :
  m = mean xs → mean ((λ x, (x - m) / d) <$> xs) = 0.
Proof.
  intros ->. unfold mean. rewrite length_fmap, sum_fmap_affine.
  destruct xs as [|x xs]; [cbn; unfold Rdiv; ring|].
  assert (INR (length (x :: xs)) ≠ 0) as Hn by (apply not_0_INR; done).
  replace (INR (length (x :: xs)) * (sum (x :: xs) / INR (length (x :: xs))))
    with (sum (x :: xs)) by (field; exact Hn).
  unfold Rdiv. ring.
Qed.

Lemma variance_normalized xs m d :
  m = mean xs →
  variance ((λ x, (x - m) / d) <$> xs) = variance xs / (d * d).
Proof.
  intros Hm. unfold variance at 1. rewrite (mean_normalized xs m d Hm).
  rewrite <- list_fmap_compose. unfold mean at 1. rewrite length_fmap.
  rewrite (list_fmap_ext _ (λ x, ((x - m) * (x - m)) / (d * d)) xs).
  - rewrite (sum_fmap_div (λ x, (x - m) * (x - m))).
    unfold variance, mean at 1. rewrite length_fmap, <- Hm.
    unfold Rdiv. ring.
  - intros _ x _. cbn. unfold Rdiv.
    destruct (Req_dec d 0) as [->|Hd]; [rewrite Rmult_0_l, Rinv_0; ring|].
    field. exact Hd.
Qed.

Lemma epsilon_pos : 0 < epsilon.
Proof. unfold epsilon. lra. Qed.

Lemma divisor_pos v : 0 < Rmax (sqrt v) epsilon.
Proof. pose proof epsilon_pos. pose proof (Rmax_r (sqrt v) epsilon). lra. Qed.

(** The standard deviation of the normalized values is the one of the raw
    values over the divisor. *)
Lemma std_normalized xs :
  std (normalize (mean xs) (variance xs) <$> xs)
  = std xs / Rmax (std xs) epsilon.
Proof.
  unfold std at 1, normalize. rewrite (variance_normalized _ _ _ eq_refl).
  fold (std xs). pose proof (divisor_pos (variance xs)) as Hd. fold (std xs) in Hd.
  rewrite sqrt_div_alt by nra. rewrite sqrt_square by lra. done.
Qed.

Lemma variance_constant xs c : Forall (λ x, x = c) xs → variance xs = 0.
Proof.
  intros Hc. unfold variance.
  assert (Hzero : ∀ ys : list R, Forall (λ y, y = 0) ys → sum ys = 0).
  { induction 1 as [|y ys -> _ IH]; [done|]. cbn. fold (sum ys). rewrite IH. ring. }
  assert (Hsum : sum xs = INR (length xs) * c).
  { induction Hc as [|x xs -> _ IH]; [cbn; ring|].
    cbn [sum foldr length]. fold (sum xs). rewrite IH, S_INR. ring. }
  unfold mean at 1. rewrite Hzero; [unfold Rdiv; ring|].
  apply Forall_fmap, Forall_forall. intros x Hx. cbn.
  rewrite (proj1 (Forall_forall _ _) Hc x Hx).
  destruct xs as [|x0 xs0] eqn:Hxs; [by apply elem_of_nil in Hx|].
  unfold mean. rewrite Hsum.
  assert (INR (length (x0 :: xs0)) ≠ 0) as Hn by (apply not_0_INR; done).
  field. exact Hn.
Qed.

End Statistics.

(** ** Statistics of values known within a tolerance *)

Section Tolerance.

Open Scope R_scope.

Context {X : Type}.
Implicit Types (l : list X) (f g : X → R).

Lemma sum_fmap_plus l f g :
  sum ((λ x, f x + g x) <$> l) = sum (f <$> l) + sum (g <$> l).
Proof.
  induction l as [|x l IH]; [cbn; ring|].
  cbn [fmap list_fmap sum foldr]. fold (sum ((λ x, f x + g x) <$> l)).
  fold (sum (f <$> l)). fold (sum (g <$> l)). rewrite IH. ring.
Qed.

Lemma sum_fmap_nonneg l f : (∀ x, 0 <= f x) → 0 <= sum (f <$> l).
Proof.
  intros Hf. induction l as [|x l IH]; [cbn; lra|].
  cbn [fmap list_fmap sum foldr]. fold (sum (f <$> l)). specialize (Hf x). lra.
Qed.

Lemma sum_fmap_le l f c :
  (∀ x, x ∈ l → f x <= c) → sum (f <$> l) <= INR (length l) * c.
Proof.
  induction l as [|x l IH]; intros Hf; [cbn; lra|].
  cbn [fmap list_fmap sum foldr length]. fold (sum (f <$> l)). rewrite S_INR.
  assert (f x <= c) by (apply Hf; left).
  assert (sum (f <$> l) <= INR (length l) * c) by (apply IH; intros y Hy; apply Hf; by right).
  lra.
Qed.

(** The sum of the squared deviations from any centre. *)
Lemma sum_squared_deviations l g m :
  sum ((λ x, (g x - m) * (g x - m)) <$> l)
  = sum ((λ x, g x * g x) <$> l) - 2 * m * sum (g <$> l) + INR (length l) * m * m.
Proof.
  induction l as [|x l IH]; [cbn; ring|].
  cbn [fmap list_fmap sum foldr length].
  fold (sum ((λ x, (g x - m) * (g x - m)) <$> l)).
  fold (sum ((λ x, g x * g x) <$> l)). fold (sum (g <$> l)).
  rewrite IH, S_INR. ring.
Qed.

Lemma cauchy_schwarz l f g :
  sum ((λ x, f x * g x) <$> l) * sum ((λ x, f x * g x) <$> l)
  <= sum ((λ x, f x * f x) <$> l) * sum ((λ x, g x * g x) <$> l).
Proof.
  induction l as [|x l IH]; [cbn; lra|].
  cbn [fmap list_fmap sum foldr].
  fold (sum ((λ x, f x * g x) <$> l)). fold (sum ((λ x, f x * f x) <$> l)).
  fold (sum ((λ x, g x * g x) <$> l)).
  pose proof (sum_fmap_nonneg l (λ x, f x * f x) (λ x, Rle_0_sqr (f x))) as Haa.
  pose proof (sum_fmap_nonneg l (λ x, g x * g x) (λ x, Rle_0_sqr (g x))) as Hbb.
  set (Sab := sum ((λ x, f x * g x) <$> l)) in *.
  set (Saa := sum ((λ x, f x * f x) <$> l)) in *.
  set (Sbb := sum ((λ x, g x * g x) <$> l)) in *.
  set (a := f x). set (b := g x).
  set (P := Saa * (b * b)). set (Q := Sbb * (a * a)). set (T := 2 * Sab * (a * b)).
  assert (HP : 0 <= P) by (unfold P; apply Rmult_le_pos; [done|apply Rle_0_sqr]).
  assert (HQ : 0 <= Q) by (unfold Q; apply Rmult_le_pos; [done|apply Rle_0_sqr]).
  assert (HT : T * T <= (P + Q) * (P + Q)).
  { assert (T * T = 4 * (Sab * Sab) * ((a * a) * (b * b))) as -> by (unfold T; ring).
    assert (4 * (Sab * Sab) * ((a * a) * (b * b)) <= 4 * (Saa * Sbb) * ((a * a) * (b * b))).
    { apply Rmult_le_compat_r; [|lra].
      apply Rmult_le_pos; apply Rle_0_sqr. }
    assert (4 * (Saa * Sbb) * ((a * a) * (b * b)) = 4 * P * Q) as Heq by (unfold P, Q; ring).
    pose proof (Rle_0_sqr (P - Q)) as Hsq. unfold Rsqr in Hsq. lra. }
  assert (T <= P + Q).
  { destruct (Rle_or_lt T (P + Q)) as [?|Hlt]; [done|].
    assert ((P + Q) * (P + Q) < T * T) by nra. lra. }
  unfold T, P, Q in *. nra.
Qed.

Lemma sqrt_triangle A B C :
  0 <= A → 0 <= B → C * C <= A * B → sqrt (A + 2 * C + B) <= sqrt A + sqrt B.
Proof.
  intros HA HB HC.
  pose proof (sqrt_pos A) as Ha. pose proof (sqrt_pos B) as Hb.
  pose proof (sqrt_sqrt A HA) as Haa. pose proof (sqrt_sqrt B HB) as Hbb.
  set (a := sqrt A) in *. set (b := sqrt B) in *.
  assert (C <= a * b).
  { destruct (Rle_or_lt C (a * b)) as [?|Hlt]; [done|].
    assert (0 <= a * b) by (by apply Rmult_le_pos).
    assert ((a * b) * (a * b) < C * C) by nra.
    assert ((a * b) * (a * b) = A * B) by (rewrite <- Haa, <- Hbb; ring). lra. }
  rewrite <- (sqrt_square (a + b)) by lra.
  apply sqrt_le_1_alt. nra.
Qed.

Lemma mean_fmap_plus l f g :
  mean ((λ x, f x + g x) <$> l) = mean (f <$> l) + mean (g <$> l).
Proof. unfold mean. rewrite !length_fmap, sum_fmap_plus. unfold Rdiv. ring. Qed.

Lemma variance_fmap l f :
  variance (f <$> l)
  = sum ((λ x, (f x - mean (f <$> l)) * (f x - mean (f <$> l))) <$> l)
    / INR (length l).
Proof.
  unfold variance. rewrite <- list_fmap_compose. unfold mean at 1.
  by rewrite !length_fmap.
Qed.

Lemma inv_length_nonneg l : 0 <= / INR (length l).
Proof.
  destruct l as [|x l]; [cbn; rewrite Rinv_0; lra|].
  left. apply Rinv_0_lt_compat, lt_0_INR. cbn. lia.
Qed.

(** The standard deviation obeys the triangle inequality. *)
Lemma std_fmap_plus l f g :
  std ((λ x, f x + g x) <$> l) <= std (f <$> l) + std (g <$> l).
Proof.
  unfold std. rewrite !variance_fmap, mean_fmap_plus.
  set (F := λ x, f x - mean (f <$> l)). set (G := λ x, g x - mean (g <$> l)).
  pose proof (inv_length_nonneg l) as HN. set (N := / INR (length l)) in *.
  pose proof (cauchy_schwarz l F G) as HCS.
  pose proof (sum_fmap_nonneg l (λ x, F x * F x) (λ x, Rle_0_sqr (F x))) as HA.
  pose proof (sum_fmap_nonneg l (λ x, G x * G x) (λ x, Rle_0_sqr (G x))) as HB.
  assert (Hsplit :
    sum ((λ x, (f x + g x - (mean (f <$> l) + mean (g <$> l)))
               * (f x + g x - (mean (f <$> l) + mean (g <$> l)))) <$> l)
    = sum ((λ x, F x * F x) <$> l) + 2 * sum ((λ x, F x * G x) <$> l)
      + sum ((λ x, G x * G x) <$> l)).
  { rewrite (list_fmap_ext _ (λ x, (F x * F x + (F x * G x + F x * G x)) + G x * G x) l).
    - rewrite (sum_fmap_plus l (λ x, F x * F x + (F x * G x + F x * G x))).
      rewrite (sum_fmap_plus l (λ x, F x * F x)).
      rewrite (sum_fmap_plus l (λ x, F x * G x)). ring.
    - intros _ x _. unfold F, G. ring. }
  rewrite Hsplit.
  change (sum ((λ x, (f x - mean (f <$> l)) * (f x - mean (f <$> l))) <$> l))
    with (sum ((λ x, F x * F x) <$> l)).
  change (sum ((λ x, (g x - mean (g <$> l)) * (g x - mean (g <$> l))) <$> l))
    with (sum ((λ x, G x * G x) <$> l)).
  set (SA := sum ((λ x, F x * F x) <$> l)) in *.
  set (SB := sum ((λ x, G x * G x) <$> l)) in *.
  set (SC := sum ((λ x, F x * G x) <$> l)) in *.
  replace ((SA + 2 * SC + SB) / INR (length l))
    with (SA * N + 2 * (SC * N) + SB * N) by (unfold N, Rdiv; ring).
  replace (SA / INR (length l)) with (SA * N) by (unfold N, Rdiv; ring).
  replace (SB / INR (length l)) with (SB * N) by (unfold N, Rdiv; ring).
  apply sqrt_triangle.
  - by apply Rmult_le_pos.
  - by apply Rmult_le_pos.
  - replace (SC * N * (SC * N)) with ((SC * SC) * (N * N)) by ring.
    replace (SA * N * (SB * N)) with ((SA * SB) * (N * N)) by ring.
    apply Rmult_le_compat_r; [by apply Rmult_le_pos|done].
Qed.

Lemma abs_le_square (x tol : R) : Rabs x <= tol → x * x <= tol * tol.
Proof.
  intros Hx. pose proof (Rabs_pos x) as Hpos.
  assert (x * x = Rabs x * Rabs x) as ->.
  { unfold Rabs. destruct (Rcase_abs x); ring. }
  nra.
Qed.

(** Values that are all within [tol] of 0 have a mean and a standard
    deviation within [tol] of 0. *)
Lemma mean_small l g tol :
  0 <= tol → (∀ x, x ∈ l → Rabs (g x) <= tol) → Rabs (mean (g <$> l)) <= tol.
Proof.
  intros Htol Hg. unfold mean. rewrite length_fmap.
  destruct l as [|x0 l0] eqn:Hl; [cbn; unfold Rdiv; rewrite Rmult_0_l, Rabs_R0; done|].
  rewrite <- Hl in *.
  assert (Hn : 0 < INR (length l)) by (apply lt_0_INR; rewrite Hl; cbn; lia).
  pose proof (sum_fmap_le l g tol) as Hup.
  pose proof (sum_fmap_le l (λ x, - g x) tol) as Hlow.
  assert (Hneg : sum ((λ x, - g x) <$> l) = - sum (g <$> l)).
  { clear. induction l as [|x l IH]; [cbn; ring|].
    cbn [fmap list_fmap sum foldr]. fold (sum ((λ x, - g x) <$> l)).
    fold (sum (g <$> l)). rewrite IH. ring. }
  rewrite Hneg in Hlow.
  assert (sum (g <$> l) <= INR (length l) * tol).
  { apply Hup. intros x Hx. specialize (Hg x Hx).
    pose proof (Rle_abs (g x)). lra. }
  assert (- sum (g <$> l) <= INR (length l) * tol).
  { apply Hlow. intros x Hx. specialize (Hg x Hx).
    pose proof (Rle_abs (- g x)). rewrite Rabs_Ropp in *. lra. }
  apply Rabs_le. split.
  - apply (Rmult_le_reg_r (INR (length l))); [done|].
    unfold Rdiv. rewrite Rmult_assoc, Rinv_l by lra. lra.
  - apply (Rmult_le_reg_r (INR (length l))); [done|].
    unfold Rdiv. rewrite Rmult_assoc, Rinv_l by lra. lra.
Qed.

Lemma std_small l g tol :
  0 <= tol → (∀ x, x ∈ l → Rabs (g x) <= tol) → std (g <$> l) <= tol.
Proof.
  intros Htol Hg. unfold std. rewrite <- (sqrt_square tol) by done.
  apply sqrt_le_1_alt. rewrite variance_fmap, sum_squared_deviations.
  destruct l as [|x0 l0] eqn:Hl.
  { cbn. unfold Rdiv. rewrite Rinv_0. nra. }
  rewrite <- Hl in *.
  assert (Hn : 0 < INR (length l)) by (apply lt_0_INR; rewrite Hl; cbn; lia).
  set (n := INR (length l)) in *.
  assert (Hm : sum (g <$> l) = n * mean (g <$> l)).
  { unfold mean. rewrite length_fmap. fold n. field. lra. }
  set (m := mean (g <$> l)) in *. rewrite Hm.
  pose proof (sum_fmap_le l (λ x, g x * g x) (tol * tol)) as Hsq. fold n in Hsq.
  assert (sum ((λ x, g x * g x) <$> l) <= n * (tol * tol)).
  { apply Hsq. intros x Hx. apply abs_le_square. by apply Hg. }
  apply (Rmult_le_reg_r n); [done|].
  unfold Rdiv. rewrite Rmult_assoc, Rinv_l by lra.
  pose proof (Rle_0_sqr m) as Hmm. unfold Rsqr in Hmm. nra.
Qed.

End Tolerance.

Section Within.

Open Scope R_scope.

(** Values that agree within [tol], position by position, have means and
    standard deviations that agree within [tol]. *)
Lemma statistics_within_tolerance (cs es : list R) tol :
  0 <= tol →
  Forall2 (λ c e, Rabs (c - e) <= tol) cs es →
  Rabs (mean cs - mean es) <= tol ∧ Rabs (std cs - std es) <= tol.
Proof.
  intros Htol Hall.
  pose proof (Forall2_length _ _ _ Hall) as Hlen.
  set (l := zip cs es).
  assert (Hcs : cs = fst <$> l) by (unfold l; rewrite fst_zip; [done|lia]).
  assert (Hes : es = snd <$> l) by (unfold l; rewrite snd_zip; [done|lia]).
  assert (Hd : ∀ p, p ∈ l → Rabs (p.1 - p.2) <= tol).
  { unfold l. clear -Hall. induction Hall as [|c e cs es Hce _ IH]; intros p Hp.
    - by apply elem_of_nil in Hp.
    - cbn in Hp. apply elem_of_cons in Hp as [->|Hp]; [done|by apply IH]. }
  assert (Hd' : ∀ p, p ∈ l → Rabs (p.2 - p.1) <= tol).
  { intros p Hp. rewrite Rabs_minus_sym. by apply Hd. }
  assert (Hc1 : fst <$> l = (λ p : R * R, p.2 + (p.1 - p.2)) <$> l).
  { apply list_fmap_ext. intros _ p _. ring. }
  assert (He1 : snd <$> l = (λ p : R * R, p.1 + (p.2 - p.1)) <$> l).
  { apply list_fmap_ext. intros _ p _. ring. }
  rewrite Hcs, Hes. split.
  - rewrite Hc1 at 1. rewrite (mean_fmap_plus l snd (λ p, p.1 - p.2)).
    replace (mean (snd <$> l) + mean ((λ p : R * R, p.1 - p.2) <$> l) - mean (snd <$> l))
      with (mean ((λ p : R * R, p.1 - p.2) <$> l)) by ring.
    by apply mean_small.
  - apply Rabs_le. split.
    + assert (Htri : std (snd <$> l)
                     <= std (fst <$> l) + std ((λ p : R * R, p.2 - p.1) <$> l)).
      { rewrite He1 at 1. apply (std_fmap_plus l fst (λ p, p.2 - p.1)). }
      pose proof (std_small l (λ p, p.2 - p.1) tol Htol Hd'). lra.
    + assert (Htri : std (fst <$> l)
                     <= std (snd <$> l) + std ((λ p : R * R, p.1 - p.2) <$> l)).
      { rewrite Hc1 at 1. apply (std_fmap_plus l snd (λ p, p.1 - p.2)). }
      pose proof (std_small l (λ p, p.1 - p.2) tol Htol Hd). lra.
Qed.

End Within.

Lemma call_normalization_fmap m var (xs : list value) :
  concat (call (Normalization m var) <$> xs) = normalize m var <$> (value_to_R <$> xs).
Proof. induction xs as [|x xs IH]; [done|]. cbn. by rewrite <- IH. Qed.

(** C4, as amended: the numerical encoder maps [x] to
    [(x - mean) / max(std, epsilon)] with the mean and the standard
    deviation of the training values of its column, and the divisor is
    positive.  Whatever values a computation returns for the encoded
    training values, if each is within a tolerance of the exact one, then
    their mean is within that tolerance of 0 and their standard deviation
    within that tolerance of [std / max(std, epsilon)]: of 1 when the
    column's standard deviation is at least epsilon, and of 0 for a column
    without variance. *)
Theorem numerical_encoder_normalizes feature name dataset pass t :
  encode_numerical_feature feature name dataset pass = Some t →
  ∃ xs,
    feature_values name dataset pass = Some xs
    ∧ let raw := value_to_R <$> xs in
      let encoded := concat (call (tensor_layer t) <$> xs) in
      (∀ v, call (tensor_layer t) v
            = [((value_to_R v - mean raw) / Rmax (std raw) epsilon)%R])
      ∧ (0 < Rmax (std raw) epsilon)%R
      ∧ ∀ tol computed,
          (0 <= tol)%R →
          Forall2 (λ c e, (Rabs (c - e) <= tol)%R) computed encoded →
          (Rabs (mean computed) <= tol)%R
          ∧ (Rabs (std computed - std raw / Rmax (std raw) epsilon) <= tol)%R
          ∧ ((epsilon <= std raw)%R → (Rabs (std computed - 1) <= tol)%R)
          ∧ (std raw = 0%R → (Rabs (std computed) <= tol)%R).
Proof.
  rewrite encode_numerical_feature_eq.
  destruct (feature_values name dataset pass) as [xs|]; [|done].
  intros [= <-]. exists xs. split; [done|]. intros raw encoded.
  unfold encoded. cbn [tensor_layer]. unfold Normalization_adapt. fold raw.
  rewrite call_normalization_fmap. fold raw.
  pose proof (divisor_pos (variance raw)) as Hd. fold (std raw) in Hd.
  split; [done|]. split; [done|].
  intros tol computed Htol Hall.
  destruct (statistics_within_tolerance _ _ _ Htol Hall) as [Hmean Hstd].
  assert (Hm0 : mean (normalize (mean raw) (variance raw) <$> raw) = 0%R)
    by (by apply mean_normalized).
  rewrite Hm0, Rminus_0_r in Hmean.
  rewrite std_normalized in Hstd.
  split; [done|]. split; [done|]. split.
  - intros Heps. rewrite Rmax_left in Hstd by done.
    replace (std raw / std raw)%R with 1%R in Hstd; [done|].
    field. pose proof epsilon_pos. lra.
  - intros Hz. rewrite Hz in Hstd. unfold Rdiv in Hstd.
    by rewrite Rmult_0_l, Rminus_0_r in Hstd.
Qed.

Lemma example_followers_mean :
  mean (value_to_R <$> (VInt <$> [0; 10; 20; 30; 40; 50; 60]%Z)) = 30%R.
Proof.
  unfold mean. cbn [fmap list_fmap value_to_R length sum foldr].
  rewrite !INR_IZR_INZ. cbn [Z.of_nat Pos.of_succ_nat Pos.succ]. field.
Qed.

Lemma example_followers_variance :
  variance (value_to_R <$> (VInt <$> [0; 10; 20; 30; 40; 50; 60]%Z)) = (20 * 20)%R.
Proof.
  unfold variance. rewrite example_followers_mean.
  unfold mean. cbn [fmap list_fmap value_to_R length sum foldr].
  rewrite !INR_IZR_INZ. cbn [Z.of_nat Pos.of_succ_nat Pos.succ]. field.
Qed.

Lemma example_followers_std :
  std (value_to_R <$> (VInt <$> [0; 10; 20; 30; 40; 50; 60]%Z)) = 20%R.
Proof. unfold std. rewrite example_followers_variance. apply sqrt_square. lra. Qed.

(** The encoder adapted on the "followers" column of the example table,
    with the encoded values rounded to whole numbers as the computed
    ones: each is within 1/2 of the exact value. *)
Lemma numerical_encoder_normalizes_witness :
  ∃ t,
    encode_numerical_feature followers "followers" example_train_ds [] = Some t
    ∧ (∃ xs,
        feature_values "followers" example_train_ds [] = Some xs
        ∧ let raw := value_to_R <$> xs in
          let encoded := concat (call (tensor_layer t) <$> xs) in
          (∀ v, call (tensor_layer t) v
                = [((value_to_R v - mean raw) / Rmax (std raw) epsilon)%R])
          ∧ (0 < Rmax (std raw) epsilon)%R
          ∧ ∀ tol computed,
              (0 <= tol)%R →
              Forall2 (λ c e, (Rabs (c - e) <= tol)%R) computed encoded →
              (Rabs (mean computed) <= tol)%R
              ∧ (Rabs (std computed - std raw / Rmax (std raw) epsilon) <= tol)%R
              ∧ ((epsilon <= std raw)%R → (Rabs (std computed - 1) <= tol)%R)
              ∧ (std raw = 0%R → (Rabs (std computed) <= tol)%R))
    ∧ (epsilon <= std (value_to_R <$> (VInt <$> [0; 10; 20; 30; 40; 50; 60]%Z)))%R
    ∧ Forall2 (λ c e, (Rabs (c - e) <= 1 / 2)%R)
        [-1; -1; 0; 0; 0; 1; 1]%R
        (concat (call (tensor_layer t) <$> (VInt <$> [0; 10; 20; 30; 40; 50; 60]%Z)))
    ∧ (Rabs (mean [-1; -1; 0; 0; 0; 1; 1]%R) <= 1 / 2)%R
    ∧ (Rabs (std [-1; -1; 0; 0; 0; 1; 1]%R - 1) <= 1 / 2)%R.
Proof.
  assert (Hfv : feature_values "followers" example_train_ds []
                = Some (VInt <$> [0; 10; 20; 30; 40; 50; 60]%Z))
    by (vm_compute; reflexivity).
  assert (Henc : encode_numerical_feature followers "followers" example_train_ds []
                 = Some (mkTensor followers
                           (Normalization_adapt
                              (value_to_R <$> (VInt <$> [0; 10; 20; 30; 40; 50; 60]%Z)))))
    by (rewrite encode_numerical_feature_eq, Hfv; reflexivity).
  pose proof (numerical_encoder_normalizes _ _ _ _ _ Henc) as Hthm.
  assert (Heps : (epsilon
                  <= std (value_to_R <$> (VInt <$> [0; 10; 20; 30; 40; 50; 60]%Z)))%R)
    by (rewrite example_followers_std; unfold epsilon; lra).
  assert (Hnear :
    Forall2 (λ c e, (Rabs (c - e) <= 1 / 2)%R)
      [-1; -1; 0; 0; 0; 1; 1]%R
      (concat (call (Normalization_adapt
                       (value_to_R <$> (VInt <$> [0; 10; 20; 30; 40; 50; 60]%Z)))
                 <$> (VInt <$> [0; 10; 20; 30; 40; 50; 60]%Z)))).
  { unfold Normalization_adapt. rewrite call_normalization_fmap.
    rewrite example_followers_mean, example_followers_variance.
    unfold normalize. rewrite sqrt_square by lra.
    rewrite Rmax_left by (unfold epsilon; lra).
    cbn [fmap list_fmap value_to_R].
    repeat (constructor; [apply Rabs_le; lra|]). constructor. }
  eexists. split; [exact Henc|]. split; [exact Hthm|]. split; [exact Heps|].
  split; [exact Hnear|].
  destruct Hthm as (xs & Hxs & Hrest).
  rewrite Hfv in Hxs. injection Hxs as <-. cbn zeta in Hrest.
  destruct Hrest as (_ & _ & Htol).
  assert (Hhalf : (0 <= 1 / 2)%R) by lra.
  destruct (Htol (1 / 2)%R [-1; -1; 0; 0; 0; 1; 1]%R Hhalf Hnear)
    as (Hmean & _ & Hstd & _).
  split; [exact Hmean|exact (Hstd Heps)].
Defined.

(** C4 as stated fails on a column without variance: every account of the
    example table was created in 2010, the encoder adapted on that column
    maps every training value to 0, and the standard deviation of the
    encoded values is 0, a full unit away from 1. *)
Lemma numerical_encoder_constant_column_counterexample :
  ∃ t,
    encode_numerical_feature creation_date "creation_date" example_train_ds [] = Some t
    ∧ feature_values "creation_date" example_train_ds [] = Some (replicate 7 (VInt 2010))
    ∧ std (concat (call (tensor_layer t) <$> replicate 7 (VInt 2010))) = 0%R
    ∧ ¬ (Rabs (std (concat (call (tensor_layer t) <$> replicate 7 (VInt 2010))) - 1)
         < 1)%R.
Proof.
  assert (Hfv : feature_values "creation_date" example_train_ds []
                = Some (replicate 7 (VInt 2010)))
    by (vm_compute; reflexivity).
  eexists. split; [rewrite encode_numerical_feature_eq, Hfv; reflexivity|].
  split; [exact Hfv|].
  cbn [tensor_layer]. unfold Normalization_adapt.
  rewrite call_normalization_fmap, std_normalized.
  assert (Hstd : std (value_to_R <$> replicate 7 (VInt 2010)) = 0%R).
  { unfold std. rewrite (variance_constant _ (IZR 2010)); [apply sqrt_0|].
    cbn. repeat constructor. }
  rewrite Hstd. unfold Rdiv. rewrite Rmult_0_l.
  split; [done|]. rewrite Rminus_0_l, Rabs_Ropp, Rabs_R1. lra.
Qed.

(** * Properties of the model *)

Section ModelFacts.

Variable draws : nat → list nat.
Variable initializer : nat → nat → list (list R) * list R.

(** The model in terms of the values each adapt pass sees. *)
Lemma build_model_eq train_ds xs1 xs2 xs3 xs4 xs5 xs6 xs7 xs8 :
  feature_values "Profile_picture" train_ds (draws 1) = Some xs1 →
  feature_values "Bot_Score" train_ds (draws 2) = Some xs2 →
  feature_values "followers" train_ds (draws 3) = Some xs3 →
  feature_values "following" train_ds (draws 4) = Some xs4 →
  feature_values "creation_date" train_ds (draws 5) = Some xs5 →
  feature_values "number_of_tweets" train_ds (draws 6) = Some xs6 →
  feature_values "Retweet_Ratio" train_ds (draws 7) = Some xs7 →
  feature_values "Tweets_Per_Day" train_ds (draws 8) = Some xs8 →
  ∃ w,
    build_model draws initializer train_ds
    = Some (mkModel all_inputs
              [ mkTensor followers (Normalization_adapt (value_to_R <$> xs3));
                mkTensor following (Normalization_adapt (value_to_R <$> xs4));
                mkTensor creation_date (Normalization_adapt (value_to_R <$> xs5));
                mkTensor number_of_tweets (Normalization_adapt (value_to_R <$> xs6));
                mkTensor Retweet_Ratio (Normalization_adapt (value_to_R <$> xs7));
                mkTensor Profile_pic (CategoryEncoding_adapt (value_to_code <$> xs1));
                mkTensor Tweets_Per_Day (CategoryEncoding_adapt (value_to_code <$> xs2));
                mkTensor Bot_Score (Normalization_adapt (value_to_R <$> xs8)) ]
              w).
Proof.
  intros H1 H2 H3 H4 H5 H6 H7 H8. unfold build_model.
  rewrite !encode_integer_categorical_feature_eq, !encode_numerical_feature_eq.
  rewrite H1, H2, H3, H4, H5, H6, H7, H8. cbn. by eexists.
Qed.

(** A model that was built saw values for all eight adapt passes. *)
Lemma build_model_inv train_ds m :
  build_model draws initializer train_ds = Some m →
  ∃ xs1 xs2 xs3 xs4 xs5 xs6 xs7 xs8,
    feature_values "Profile_picture" train_ds (draws 1) = Some xs1
    ∧ feature_values "Bot_Score" train_ds (draws 2) = Some xs2
    ∧ feature_values "followers" train_ds (draws 3) = Some xs3
    ∧ feature_values "following" train_ds (draws 4) = Some xs4
    ∧ feature_values "creation_date" train_ds (draws 5) = Some xs5
    ∧ feature_values "number_of_tweets" train_ds (draws 6) = Some xs6
    ∧ feature_values "Retweet_Ratio" train_ds (draws 7) = Some xs7
    ∧ feature_values "Tweets_Per_Day" train_ds (draws 8) = Some xs8
    ∧ inputs m = all_inputs
    ∧ features m
      = [ mkTensor followers (Normalization_adapt (value_to_R <$> xs3));
          mkTensor following (Normalization_adapt (value_to_R <$> xs4));
          mkTensor creation_date (Normalization_adapt (value_to_R <$> xs5));
          mkTensor number_of_tweets (Normalization_adapt (value_to_R <$> xs6));
          mkTensor Retweet_Ratio (Normalization_adapt (value_to_R <$> xs7));
          mkTensor Profile_pic (CategoryEncoding_adapt (value_to_code <$> xs1));
          mkTensor Tweets_Per_Day (CategoryEncoding_adapt (value_to_code <$> xs2));
          mkTensor Bot_Score (Normalization_adapt (value_to_R <$> xs8)) ].
Proof.
  unfold build_model.
  rewrite !encode_integer_categorical_feature_eq, !encode_numerical_feature_eq.
  destruct (feature_values "Profile_picture" _ _) as [xs1|]; [|done].
  destruct (feature_values "Bot_Score" _ _) as [xs2|]; [|done].
  destruct (feature_values "followers" _ _) as [xs3|]; [|done].
  destruct (feature_values "following" _ _) as [xs4|]; [|done].
  destruct (feature_values "creation_date" _ _) as [xs5|]; [|done].
  destruct (feature_values "number_of_tweets" _ _) as [xs6|]; [|done].
  destruct (feature_values "Retweet_Ratio" _ _) as [xs7|]; [|done].
  destruct (feature_values "Tweets_Per_Day" _ _) as [xs8|]; [|done].
  cbn. intros [= <-]. by exists xs1, xs2, xs3, xs4, xs5, xs6, xs7, xs8.
Qed.

End ModelFacts.

Lemma example_bot_score_values :
  feature_values "Bot_Score" example_train_ds []
  = Some (VInt <$> [0; 1; 2; 0; 1; 2; 0]%Z).
Proof. vm_compute. reflexivity. Qed.

Lemma example_tweets_per_day_values :
  feature_values "Tweets_Per_Day" example_train_ds []
  = Some (VFloat <$> [0 # 2; 1 # 2; 2 # 2; 3 # 2; 4 # 2; 5 # 2; 6 # 2]).
Proof. vm_compute. reflexivity. Qed.

Lemma example_model_built initializer :
  ∃ w, build_model (λ _, []) initializer example_train_ds
       = Some (mkModel all_inputs example_features w).
Proof.
  assert (H1 : feature_values "Profile_picture" example_train_ds []
               = Some (VInt <$> [0; 1; 0; 1; 0; 1; 0]%Z)) by (vm_compute; reflexivity).
  assert (H3 : feature_values "followers" example_train_ds []
               = Some (VInt <$> [0; 10; 20; 30; 40; 50; 60]%Z))
    by (vm_compute; reflexivity).
  assert (H4 : feature_values "following" example_train_ds []
               = Some (VInt <$> [1; 6; 11; 16; 21; 26; 31]%Z))
    by (vm_compute; reflexivity).
  assert (H5 : feature_values "creation_date" example_train_ds []
               = Some (replicate 7 (VInt 2010))) by (vm_compute; reflexivity).
  assert (H6 : feature_values "number_of_tweets" example_train_ds []
               = Some (VInt <$> [0; 100; 200; 300; 400; 500; 600]%Z))
    by (vm_compute; reflexivity).
  assert (H7 : feature_values "Retweet_Ratio" example_train_ds []
               = Some (VFloat <$> [0 # 10; 1 # 10; 2 # 10; 3 # 10; 4 # 10; 5 # 10;
                                   6 # 10]))
    by (vm_compute; reflexivity).
  exact (build_model_eq (λ _, []) initializer example_train_ds _ _ _ _ _ _ _ _
           H1 example_bot_score_values H3 H4 H5 H6 H7 example_tweets_per_day_values).
Qed.

(** C5: in the model as built, the layer on the Tweets_Per_Day input is a
    category encoder adapted on the values of the "Bot_Score" column, and
    the layer on the Bot_Score input is a normalizer adapted on the values
    of the "Tweets_Per_Day" column; on the example table these differ from
    the layers that the inputs' own columns would give. *)
Theorem encoders_cross_wired draws initializer train_ds m :
  build_model draws initializer train_ds = Some m →
  (∃ bot_score tweets_per_day,
     feature_values "Bot_Score" train_ds (draws 2) = Some bot_score
     ∧ feature_values "Tweets_Per_Day" train_ds (draws 8) = Some tweets_per_day
     ∧ layer_of m "Tweets_Per_Day"
       = Some (CategoryEncoding_adapt (value_to_code <$> bot_score))
     ∧ layer_of m "Bot_Score"
       = Some (Normalization_adapt (value_to_R <$> tweets_per_day)))
  ∧ (∃ m0 bot_score tweets_per_day,
       build_model (λ _, []) initializer example_train_ds = Some m0
       ∧ feature_values "Bot_Score" example_train_ds [] = Some bot_score
       ∧ feature_values "Tweets_Per_Day" example_train_ds [] = Some tweets_per_day
       ∧ layer_of m0 "Tweets_Per_Day"
         ≠ Some (CategoryEncoding_adapt (value_to_code <$> tweets_per_day))
       ∧ layer_of m0 "Bot_Score"
         ≠ Some (Normalization_adapt (value_to_R <$> bot_score))).
Proof.
  intros Hm. split.
  - apply build_model_inv in Hm
      as (xs1 & xs2 & xs3 & xs4 & xs5 & xs6 & xs7 & xs8
          & _ & H2 & _ & _ & _ & _ & _ & H8 & _ & Hf).
    exists xs2, xs8. split; [done|]. split; [done|].
    unfold layer_of. rewrite Hf. split; reflexivity.
  - destruct (example_model_built initializer) as [w Hw].
    eexists _, _, _. split; [exact Hw|].
    split; [exact example_bot_score_values|].
    split; [exact example_tweets_per_day_values|].
    unfold layer_of, example_features. cbn [features filter list_filter]. split.
    + intros Heq. vm_compute in Heq. discriminate Heq.
    + change (Some (Normalization_adapt
                      (value_to_R <$> (VFloat <$> [0 # 2; 1 # 2; 2 # 2; 3 # 2; 4 # 2;
                                                   5 # 2; 6 # 2])))
              ≠ Some (Normalization_adapt
                        (value_to_R <$> (VInt <$> [0; 1; 2; 0; 1; 2; 0]%Z)))).
      unfold Normalization_adapt. intros [= Hmean _]. revert Hmean.
      unfold mean, Q2R. cbn. lra.
Qed.

Lemma encoders_cross_wired_witness :
  ∃ m,
    build_model (λ _, []) (λ _ _, ([], [])) example_train_ds = Some m
    ∧ ∃ bot_score tweets_per_day,
        feature_values "Bot_Score" example_train_ds [] = Some bot_score
        ∧ feature_values "Tweets_Per_Day" example_train_ds [] = Some tweets_per_day
        ∧ layer_of m "Tweets_Per_Day"
          = Some (CategoryEncoding_adapt (value_to_code <$> bot_score))
        ∧ layer_of m "Bot_Score"
          = Some (Normalization_adapt (value_to_R <$> tweets_per_day)).
Proof.
  destruct (example_model_built (λ _ _, ([], []))) as [w Hw].
  eexists. split; [exact Hw|].
  exact (proj1 (encoders_cross_wired _ _ _ _ Hw)).
Defined.

(** ** The adapted state does not depend on the order of the pass *)

Lemma sum_Permutation (xs ys : list R) : xs ≡ₚ ys → sum xs = sum ys.
Proof.
  induction 1 as [|x xs ys _ IH|x y xs|xs ys zs _ IH1 _ IH2]; cbn.
  - done.
  - fold (sum xs) (sum ys). by rewrite IH.
  - fold (sum xs). ring.
  - congruence.
Qed.

Lemma mean_Permutation (xs ys : list R) : xs ≡ₚ ys → mean xs = mean ys.
Proof.
  intros Hp. unfold mean.
  by rewrite (sum_Permutation _ _ Hp), (Permutation_length Hp).
Qed.

Lemma Normalization_adapt_Permutation (xs ys : list R) :
  xs ≡ₚ ys → Normalization_adapt xs = Normalization_adapt ys.
Proof.
  intros Hp. unfold Normalization_adapt, variance.
  rewrite (mean_Permutation _ _ Hp). f_equal.
  apply mean_Permutation. by apply fmap_Permutation.
Qed.

Lemma CategoryEncoding_adapt_Permutation (xs ys : list Z) :
  xs ≡ₚ ys → CategoryEncoding_adapt xs = CategoryEncoding_adapt ys.
Proof.
  intros Hp. unfold CategoryEncoding_adapt, learned.
  by rewrite (list_to_set_perm_L (C := gset Z) _ _ Hp).
Qed.

Lemma stack_lookup (chunk : list TfData.Element) name col :
  (TfData.stack chunk).1 !! name = Some col →
  col = omap (λ e : TfData.Element, e.1 !! name) chunk.
Proof.
  unfold TfData.stack. cbn [fst]. destruct chunk as [|e0 chunk]; [done|].
  rewrite map_lookup_imap. destruct (e0.1 !! name); [|done]. cbn. by intros [= <-].
Qed.

Lemma mapM_stack_lookup (cs : list (list TfData.Element)) name cols :
  mapM (λ b : TfData.Batch, b.1 !! name) (TfData.stack <$> cs) = Some cols →
  concat cols = omap (λ e : TfData.Element, e.1 !! name) (concat cs).
Proof.
  revert cols. induction cs as [|c cs IH]; intros cols.
  - cbn. by intros [= <-].
  - cbn [fmap list_fmap mapM]. cbn [mbind option_bind].
    destruct ((TfData.stack c).1 !! name) as [col|] eqn:Hcol; [|done].
    cbn. destruct (mapM _ (TfData.stack <$> cs)) as [cols'|] eqn:Hcols; [|done].
    cbn. intros [= <-]. cbn [concat].
    by rewrite omap_app, (IH cols' eq_refl), (stack_lookup _ _ _ Hcol).
Qed.

(** The values an adapt pass sees on a batched dataset are the feature's
    values of the elements of that pass, in their order. *)
Lemma feature_values_batch name (ds : TfData.Dataset TfData.Element) pass xs :
  feature_values name (TfData.batch 32 ds) pass = Some xs →
  xs = omap (λ e : TfData.Element, e.1 !! name) (ds pass).
Proof.
  rewrite feature_values_eq. unfold TfData.batch.
  destruct (mapM _ _) as [cols|] eqn:Hcols; [|done]. cbn. intros [= <-].
  rewrite (mapM_stack_lookup _ _ _ Hcols), chunks_concat; [done|lia|done].
Qed.

Lemma feature_values_wrapped name (elements : list TfData.Element) pass pass' xs ys :
  let train_ds := TfData.batch 32 (TfData.shuffle (length elements) (λ _, elements)) in
  feature_values name train_ds pass = Some xs →
  feature_values name train_ds pass' = Some ys →
  xs ≡ₚ ys.
Proof.
  intros train_ds Hxs Hys.
  apply feature_values_batch in Hxs, Hys. subst xs ys.
  apply omap_Permutation. by rewrite !shuffle_full_Permutation.
Qed.

Lemma dataframe_to_dataset_inv σ dataframe df ds σ' :
  σ !! dataframe = Some df →
  dataframe_to_dataset dataframe σ = Some (ds, σ') →
  ∃ labels,
    df_column "Bot_or_Not" df = Some labels
    ∧ ds = TfData.shuffle (df_len df)
             (λ _, TfData.slices (dict (df_without "Bot_or_Not" df)) labels)
    ∧ σ' = <[next_loc σ := df_without "Bot_or_Not" df]> σ.
Proof.
  intros Hdf. destruct (df_column "Bot_or_Not" df) as [labels|] eqn:Hlabels.
  - rewrite (dataframe_to_dataset_eq _ _ _ _ Hdf Hlabels).
    intros [= <- <-]. by exists labels.
  - unfold dataframe_to_dataset, bind, copy, bind, deref, alloc, pop.
    unfold Store, loc in *. by rewrite Hdf, lookup_insert_eq, Hlabels.
Qed.

Lemma datasets_train_inv σ train val df dss σ' :
  σ !! train = Some df →
  datasets train val σ = Some (dss, σ') →
  ∃ elements,
    length elements = df_len df
    ∧ dss.1 = TfData.batch 32 (TfData.shuffle (df_len df) (λ _, elements))
    ∧ elements = TfData.slices (dict (df_without "Bot_or_Not" df))
                   (default [] (df_column "Bot_or_Not" df)).
Proof.
  intros Hdf. unfold datasets, bind at 1.
  destruct (dataframe_to_dataset train σ) as [[train_ds σ1]|] eqn:Htrain; [|done].
  destruct (dataframe_to_dataset_inv _ _ _ _ _ Hdf Htrain) as (labels & Hl & -> & _).
  unfold bind, ret. destruct (dataframe_to_dataset val σ1) as [[val_ds σ2]|]; [|done].
  intros [= <- _]. eexists. rewrite Hl. cbn [default fst].
  split; [|done]. rewrite slices_length. by eapply df_column_length.
Qed.

Lemma fit_features draws optimizer_step m train_ds epochs m' :
  fit draws optimizer_step m train_ds epochs = Some m' →
  features m' = features m ∧ inputs m' = inputs m.
Proof.
  unfold fit. destruct (fit_epochs _ _ _ _ _ _ _) as [w|]; [|done].
  cbn. by intros [= <-].
Qed.

(** C8: two runs whose training frames are equal, whatever their
    validation frames, stores, shuffling draws and initial weights, adapt
    all eight encoders to the same state; fitting leaves that state as it
    is, so training and inference encode a row in the same way. *)
Theorem encoder_states_from_training_partition_only
  draws1 draws2 initializer1 initializer2
  (σ1 σ2 : Store) train1 val1 train2 val2 df dss1 σ1' dss2 σ2' m1 m2 :
  σ1 !! train1 = Some df →
  σ2 !! train2 = Some df →
  datasets train1 val1 σ1 = Some (dss1, σ1') →
  datasets train2 val2 σ2 = Some (dss2, σ2') →
  build_model draws1 initializer1 dss1.1 = Some m1 →
  build_model draws2 initializer2 dss2.1 = Some m2 →
  features m1 = features m2
  ∧ ∀ optimizer_step epochs m1',
      fit draws1 optimizer_step m1 dss1.1 epochs = Some m1' →
      features m1' = features m1
      ∧ ∀ x j, encode_row m1' x j = encode_row m1 x j.
Proof.
  intros Hdf1 Hdf2 Hds1 Hds2 Hm1 Hm2.
  destruct (datasets_train_inv _ _ _ _ _ _ Hdf1 Hds1) as (es1 & Hlen1 & Heq1 & Hes1).
  destruct (datasets_train_inv _ _ _ _ _ _ Hdf2 Hds2) as (es2 & Hlen2 & Heq2 & Hes2).
  assert (es1 = es2) as <- by congruence. clear Hes1 Hes2 Hlen2.
  rewrite <- Hlen1 in Heq1, Heq2. rewrite Heq1 in Hm1. rewrite Heq2 in Hm2.
  split.
  - apply build_model_inv in Hm1
      as (a1 & a2 & a3 & a4 & a5 & a6 & a7 & a8
          & A1 & A2 & A3 & A4 & A5 & A6 & A7 & A8 & _ & ->).
    apply build_model_inv in Hm2
      as (b1 & b2 & b3 & b4 & b5 & b6 & b7 & b8
          & B1 & B2 & B3 & B4 & B5 & B6 & B7 & B8 & _ & ->).
    pose proof (feature_values_wrapped _ _ _ _ _ _ A1 B1) as P1.
    pose proof (feature_values_wrapped _ _ _ _ _ _ A2 B2) as P2.
    pose proof (feature_values_wrapped _ _ _ _ _ _ A3 B3) as P3.
    pose proof (feature_values_wrapped _ _ _ _ _ _ A4 B4) as P4.
    pose proof (feature_values_wrapped _ _ _ _ _ _ A5 B5) as P5.
    pose proof (feature_values_wrapped _ _ _ _ _ _ A6 B6) as P6.
    pose proof (feature_values_wrapped _ _ _ _ _ _ A7 B7) as P7.
    pose proof (feature_values_wrapped _ _ _ _ _ _ A8 B8) as P8.
    rewrite (Normalization_adapt_Permutation _ _ (fmap_Permutation value_to_R _ _ P3)).
    rewrite (Normalization_adapt_Permutation _ _ (fmap_Permutation value_to_R _ _ P4)).
    rewrite (Normalization_adapt_Permutation _ _ (fmap_Permutation value_to_R _ _ P5)).
    rewrite (Normalization_adapt_Permutation _ _ (fmap_Permutation value_to_R _ _ P6)).
    rewrite (Normalization_adapt_Permutation _ _ (fmap_Permutation value_to_R _ _ P7)).
    rewrite (Normalization_adapt_Permutation _ _ (fmap_Permutation value_to_R _ _ P8)).
    rewrite (CategoryEncoding_adapt_Permutation _ _
               (fmap_Permutation value_to_code _ _ P1)).
    rewrite (CategoryEncoding_adapt_Permutation _ _
               (fmap_Permutation value_to_code _ _ P2)).
    done.
  - intros optimizer_step epochs m1' Hfit.
    apply fit_features in Hfit as [Hf _]. split; [done|].
    intros x j. unfold encode_row. by rewrite Hf.
Qed.

Lemma datasets_is_Some (σ : Store) train val df dfv :
  σ !! train = Some df → is_Some (df_column "Bot_or_Not" df) →
  σ !! val = Some dfv → is_Some (df_column "Bot_or_Not" dfv) →
  is_Some (datasets train val σ).
Proof.
  intros Hdf [labels Hl] Hdfv [vlabels Hvl]. unfold datasets, bind, ret.
  rewrite (dataframe_to_dataset_eq _ _ _ _ Hdf Hl).
  assert (Hval : (<[next_loc σ := df_without "Bot_or_Not" df]> σ) !! val = Some dfv).
  { unfold Store, loc in *. rewrite lookup_insert_ne; [done|].
    intros <-. by rewrite next_loc_fresh in Hdfv. }
  by rewrite (dataframe_to_dataset_eq _ _ _ _ Hval Hvl).
Qed.

Lemma example_datasets1_eq :
  ∃ σ', datasets 1%positive 2%positive example_store1 = Some (example_datasets1, σ').
Proof.
  unfold example_datasets1.
  destruct (datasets_is_Some example_store1 1%positive 2%positive
              example_dataframe same_label_dataframe) as [[dss σ'] Hds];
    [vm_compute; first [reflexivity|by eexists]..|].
  rewrite Hds. by exists σ'.
Qed.

Lemma example_datasets2_eq :
  ∃ σ', datasets 5%positive 3%positive example_store2 = Some (example_datasets2, σ').
Proof.
  unfold example_datasets2.
  destruct (datasets_is_Some example_store2 5%positive 3%positive
              example_dataframe example_dataframe) as [[dss σ'] Hds];
    [vm_compute; first [reflexivity|by eexists]..|].
  rewrite Hds. by exists σ'.
Qed.

Tactic Notation "feature_values_computes" constr(name) constr(ds) constr(pass)
  "as" ident(xs) ident(H) :=
  destruct (feature_values name ds pass) as [xs|] eqn:H;
  [|vm_compute in H; discriminate H].

Lemma example_models_built initializer :
  ∃ m1 m2,
    build_model (λ _, []) initializer example_datasets1.1 = Some m1
    ∧ build_model example_draws initializer example_datasets2.1 = Some m2.
Proof.
  assert (∃ m1, build_model (λ _, []) initializer example_datasets1.1 = Some m1)
    as [m1 Hm1].
  { feature_values_computes "Profile_picture" example_datasets1.1 (@nil nat) as a1 A1.
    feature_values_computes "Bot_Score" example_datasets1.1 (@nil nat) as a2 A2.
    feature_values_computes "followers" example_datasets1.1 (@nil nat) as a3 A3.
    feature_values_computes "following" example_datasets1.1 (@nil nat) as a4 A4.
    feature_values_computes "creation_date" example_datasets1.1 (@nil nat) as a5 A5.
    feature_values_computes "number_of_tweets" example_datasets1.1 (@nil nat) as a6 A6.
    feature_values_computes "Retweet_Ratio" example_datasets1.1 (@nil nat) as a7 A7.
    feature_values_computes "Tweets_Per_Day" example_datasets1.1 (@nil nat) as a8 A8.
    destruct (build_model_eq (λ _, []) initializer example_datasets1.1
                _ _ _ _ _ _ _ _ A1 A2 A3 A4 A5 A6 A7 A8) as [w Hw].
    eexists. exact Hw. }
  assert (∃ m2, build_model example_draws initializer example_datasets2.1 = Some m2)
    as [m2 Hm2].
  { feature_values_computes "Profile_picture" example_datasets2.1 (example_draws 1) as b1 B1.
    feature_values_computes "Bot_Score" example_datasets2.1 (example_draws 2) as b2 B2.
    feature_values_computes "followers" example_datasets2.1 (example_draws 3) as b3 B3.
    feature_values_computes "following" example_datasets2.1 (example_draws 4) as b4 B4.
    feature_values_computes "creation_date" example_datasets2.1 (example_draws 5) as b5 B5.
    feature_values_computes "number_of_tweets" example_datasets2.1 (example_draws 6) as b6 B6.
    feature_values_computes "Retweet_Ratio" example_datasets2.1 (example_draws 7) as b7 B7.
    feature_values_computes "Tweets_Per_Day" example_datasets2.1 (example_draws 8) as b8 B8.
    destruct (build_model_eq example_draws initializer example_datasets2.1
                _ _ _ _ _ _ _ _ B1 B2 B3 B4 B5 B6 B7 B8) as [w Hw].
    eexists. exact Hw. }
  exists m1, m2. split; [exact Hm1|exact Hm2].
Qed.

Lemma encoder_states_from_training_partition_only_witness :
  ∃ σ1' σ2' m1 m2,
    example_store1 !! 1%positive = Some example_dataframe
    ∧ example_store2 !! 5%positive = Some example_dataframe
    ∧ datasets 1%positive 2%positive example_store1 = Some (example_datasets1, σ1')
    ∧ datasets 5%positive 3%positive example_store2 = Some (example_datasets2, σ2')
    ∧ build_model (λ _, []) (λ _ _, ([], [])) example_datasets1.1 = Some m1
    ∧ build_model example_draws (λ _ _, ([], [])) example_datasets2.1 = Some m2
    ∧ features m1 = features m2
    ∧ ∀ optimizer_step epochs m1',
        fit (λ _, []) optimizer_step m1 example_datasets1.1 epochs = Some m1' →
        features m1' = features m1
        ∧ ∀ x j, encode_row m1' x j = encode_row m1 x j.
Proof.
  destruct example_datasets1_eq as [σ1' Hds1].
  destruct example_datasets2_eq as [σ2' Hds2].
  destruct (example_models_built (λ _ _, ([], []))) as (m1 & m2 & Hm1 & Hm2).
  assert (H1 : example_store1 !! 1%positive = Some example_dataframe)
    by (vm_compute; reflexivity).
  assert (H2 : example_store2 !! 5%positive = Some example_dataframe)
    by (vm_compute; reflexivity).
  exists σ1', σ2', m1, m2.
  split; [exact H1|]. split; [exact H2|]. split; [exact Hds1|]. split; [exact Hds2|].
  split; [exact Hm1|]. split; [exact Hm2|].
  exact (encoder_states_from_training_partition_only
           _ _ _ _ _ _ _ _ _ _ _ _ _ _ _ _ _ H1 H2 Hds1 Hds2 Hm1 Hm2).
Defined.

(** * Properties of the predictor *)

Lemma sigmoid_bounds x : (0 < sigmoid x < 1)%R.
Proof.
  unfold sigmoid. pose proof (exp_pos (- x)) as He.
  set (e := exp (- x)) in *.
  assert (0 < / (1 + e))%R as Hz by (apply Rinv_0_lt_compat; lra).
  assert ((1 + e) * / (1 + e) = 1)%R as Hinv by (apply Rinv_r; lra).
  split; [done|]. pose proof (Rmult_lt_0_compat _ _ He Hz). lra.
Qed.

Lemma network_bounds w x y : y ∈ network w x → (0 < y < 1)%R.
Proof.
  unfold network. intros Hy. apply list_elem_of_fmap in Hy as (z & -> & _).
  apply sigmoid_bounds.
Qed.

Lemma sigmoid_range x : (0 <= sigmoid x <= 1)%R.
Proof. pose proof (sigmoid_bounds x). lra. Qed.

Lemma network_range w x y : y ∈ network w x → (0 <= y <= 1)%R.
Proof. intros Hy. pose proof (network_bounds w x y Hy). lra. Qed.

Lemma network_length w x : length (network w x) = units (output w).
Proof. unfold network, dense_call. by rewrite !length_fmap, length_seq. Qed.

Lemma gather_missing x slots s :
  s ∈ slots → x !! input_name s = None → ∃ e, gather x slots = inl e.
Proof.
  intros Hs Hx. induction slots as [|s' slots IH]; [by apply elem_of_nil in Hs|].
  cbn. destruct (x !! input_name s') as [t|] eqn:Hs'; [|by eexists].
  apply elem_of_cons in Hs as [->|Hs]; [congruence|].
  destruct (IH Hs) as [e ->]. by eexists.
Qed.

Lemma gather_inr x slots ts :
  gather x slots = inr ts →
  ∀ s, s ∈ slots → ∃ t, x !! input_name s = Some t ∧ (s, t) ∈ ts.
Proof.
  revert ts. induction slots as [|s' slots IH]; intros ts Hts s Hs;
    [by apply elem_of_nil in Hs|].
  cbn in Hts. destruct (x !! input_name s') as [t'|] eqn:Hs'; [|done].
  destruct (gather x slots) as [e|ts'] eqn:Hg; [done|]. injection Hts as <-.
  apply elem_of_cons in Hs as [->|Hs].
  - exists t'. split; [done|left].
  - destruct (IH ts' eq_refl s Hs) as (t & Ht & Hin). exists t. split; [done|by right].
Qed.

Lemma gather_inl x slots e :
  gather x slots = inl e →
  ∃ s, s ∈ slots ∧ x !! input_name s = None ∧ e = MissingInput (input_name s).
Proof.
  induction slots as [|s slots IH]; [done|]. cbn.
  destruct (x !! input_name s) as [t|] eqn:Hs.
  - destruct (gather x slots) as [e'|ts]; [|done]. intros [= <-].
    destruct (IH eq_refl) as (s' & Hin & Hx & He). exists s'. split; [by right|done].
  - intros [= <-]. exists s. split; [left|done].
Qed.

Lemma gather_elem_of x slots ts s t :
  gather x slots = inr ts → (s, t) ∈ ts → s ∈ slots ∧ x !! input_name s = Some t.
Proof.
  revert ts. induction slots as [|s' slots IH]; intros ts; cbn.
  - intros [= <-] Hin. by apply elem_of_nil in Hin.
  - destruct (x !! input_name s') as [t'|] eqn:Hs'; [|done].
    destruct (gather x slots) as [e|ts']; [done|]. intros [= <-] Hin.
    apply elem_of_cons in Hin as [[= -> ->]|Hin]; [split; [left|done]|].
    destruct (IH ts' eq_refl Hin) as [? ?]. split; [by right|done].
Qed.

(** C6: a call of the predictor that leaves out an input of the model
    fails with a missing-input error; a call that supplies a float for an
    input typed as integer fails with a missing-input or a wrong-type
    error; neither produces a probability.  A call that succeeds has
    supplied every input, in the correct numeric type and with one length,
    and what it returns is the output of the network's sigmoid for each
    row, not rounded to a label: one row per supplied row, of as many
    values as the output layer has units, each between 0 and 1. *)
Theorem predict_fails_or_returns_raw_probability m x :
  (∀ s, s ∈ inputs m → x !! input_name s = None →
     ∃ s', s' ∈ inputs m ∧ x !! input_name s' = None
           ∧ predict correct_numeric_type m x = inl (MissingInput (input_name s')))
  ∧ (∀ s t q, s ∈ inputs m → input_dtype s = int64 →
       x !! input_name s = Some t → VFloat q ∈ t →
       ∃ s', s' ∈ inputs m
             ∧ (predict correct_numeric_type m x = inl (MissingInput (input_name s'))
                ∨ predict correct_numeric_type m x = inl (WrongType (input_name s'))))
  ∧ (∀ p, predict correct_numeric_type m x = inr p →
       ∃ n rows,
         (∀ s, s ∈ inputs m →
            ∃ t, x !! input_name s = Some t
                 ∧ length t = n
                 ∧ Forall (λ v, correct_numeric_type (input_dtype s) v = true) t)
         ∧ mapM (encode_row m x) (seq 0 n) = Some rows
         ∧ p = (λ row, sigmoid <$> dense_call (output (weights m))
                         (relu <$> dense_call (hidden (weights m)) row)) <$> rows
         ∧ length p = n
         ∧ ∀ row, row ∈ p →
             length row = units (output (weights m))
             ∧ ∀ y, y ∈ row → (0 <= y <= 1)%R).
Proof.
  split; [|split].
  - intros s Hs Hx. unfold predict.
    destruct (gather_missing x (inputs m) s Hs Hx) as [e He]. rewrite He.
    destruct (gather_inl _ _ _ He) as (s' & Hs' & Hx' & ->). by exists s'.
  - intros s t q Hs Hint Hx Hq. unfold predict.
    destruct (gather x (inputs m)) as [e|ts] eqn:Hg.
    { destruct (gather_inl _ _ _ Hg) as (s' & Hs' & _ & ->). exists s'.
      split; [done|by left]. }
    destruct (gather_inr _ _ _ Hg s Hs) as (t' & Ht' & Hin).
    assert (t' = t) as -> by congruence.
    destruct (list_find _ ts) as [[i [s' t']]|] eqn:Hfind.
    + apply list_find_Some in Hfind as (Hi & _ & _).
      apply list_elem_of_lookup_2 in Hi.
      destruct (gather_elem_of _ _ _ _ _ Hg Hi) as [Hs' _].
      exists s'. split; [done|by right].
    + exfalso. apply list_find_None in Hfind.
      apply (proj1 (Forall_forall _ _) Hfind) in Hin. apply Hin. cbn.
      intros Hall. apply (proj1 (Forall_forall _ _) Hall) in Hq.
      rewrite Hint in Hq. done.
  - intros p. unfold predict.
    destruct (gather x (inputs m)) as [e|ts] eqn:Hg; [done|].
    match goal with
    | |- context [list_find ?P ts] =>
        destruct (list_find P ts) as [[i [s' t']]|] eqn:Htypes; [done|]
    end.
    match goal with
    | |- context [list_find ?P ts] =>
        destruct (list_find P ts) as [[i [s' t']]|] eqn:Hlens; [done|]
    end.
    destruct (mapM _ _) as [rows|] eqn:Hrows; [|done]. intros [= <-].
    set (n := from_option (λ st : Input * list value, length st.2) 0%nat (head ts)) in *.
    exists n, rows. split; [|split; [exact Hrows|split; [reflexivity|split]]].
    + intros s Hs. destruct (gather_inr _ _ _ Hg s Hs) as (t & Ht & Hin).
      exists t. split; [done|].
      apply list_find_None in Htypes, Hlens.
      apply (proj1 (Forall_forall _ _) Htypes) in Hin as Htype.
      apply (proj1 (Forall_forall _ _) Hlens) in Hin as Hlen. cbn in Htype, Hlen.
      split; [by apply dec_stable|by apply dec_stable].
    + by rewrite length_fmap, <- (length_mapM _ _ _ Hrows), length_seq.
    + intros row Hrow. apply list_elem_of_fmap in Hrow as (r & -> & _).
      split; [apply (network_length (weights m) r)|].
      intros y. apply (network_range (weights m) r).
Qed.

(** C1, evaluated at the script's own example: the sample has no entry for
    the "Tweets_Per_Day" input that the model was built with, so the
    prediction of lines 317-318 fails with a missing-input error and
    there is no probability to print. *)
Theorem example_prediction_fails accepts draws initializer optimizer_step
  train_ds epochs m m' :
  build_model draws initializer train_ds = Some m →
  fit draws optimizer_step m train_ds epochs = Some m' →
  Tweets_Per_Day ∈ inputs m'
  ∧ sample !! "Tweets_Per_Day" = None
  ∧ predictions accepts m' = inl (MissingInput "Tweets_Per_Day").
Proof.
  intros Hm Hfit. apply fit_features in Hfit as [_ Hin].
  apply build_model_inv in Hm
    as (? & ? & ? & ? & ? & ? & ? & ? & _ & _ & _ & _ & _ & _ & _ & _ & Hall & _).
  rewrite Hin, Hall.
  split; [unfold all_inputs; repeat (first [left|right])|].
  split; [vm_compute; reflexivity|].
  unfold predictions, predict. rewrite Hin, Hall.
  assert (gather input_dict all_inputs = inl (MissingInput "Tweets_Per_Day")) as ->
    by (vm_compute; reflexivity).
  done.
Qed.

Lemma example_prediction_fails_witness :
  ∃ m,
    build_model (λ _, []) (λ _ _, ([], [])) example_train_ds = Some m
    ∧ fit (λ _, []) (λ w _, w) m example_train_ds 0 = Some m
    ∧ Tweets_Per_Day ∈ inputs m
    ∧ sample !! "Tweets_Per_Day" = None
    ∧ predictions (λ _ _, true) m = inl (MissingInput "Tweets_Per_Day").
Proof.
  destruct (example_model_built (λ _ _, ([], []))) as [w Hw].
  eexists. split; [exact Hw|].
  assert (Hfit : fit (λ _, []) (λ w _, w) (mkModel all_inputs example_features w)
                   example_train_ds 0
                 = Some (mkModel all_inputs example_features w)) by reflexivity.
  split; [exact Hfit|].
  exact (example_prediction_fails (λ _ _, true) _ _ _ _ _ _ _ Hw Hfit).
Defined.

(** A call that supplies every input with accepted values of one length
    returns the network's output for every row. *)
Lemma predict_complete accepts m x ts rows :
  gather x (inputs m) = inr ts →
  Forall (λ st : Input * list value,
            Forall (λ v, accepts (input_dtype st.1) v = true) st.2) ts →
  Forall (λ st : Input * list value,
            length st.2 = from_option (λ st, length st.2) 0%nat (head ts)) ts →
  mapM (encode_row m x) (seq 0 (from_option (λ st, length st.2) 0%nat (head ts)))
  = Some rows →
  predict accepts m x = inr (network (weights m) <$> rows).
Proof.
  intros Hg Htypes Hlens Hrows. unfold predict. rewrite Hg.
  assert (HT : Forall (λ st : Input * list value,
                         ¬ ¬ Forall (λ v, accepts (input_dtype st.1) v = true) st.2) ts)
    by (eapply Forall_impl; [exact Htypes|]; intros st H Hn; by apply Hn).
  assert (HL : Forall (λ st : Input * list value,
                         ¬ length st.2
                           ≠ from_option (λ st, length st.2) 0%nat (head ts)) ts)
    by (eapply Forall_impl; [exact Hlens|]; intros st H Hn; by apply Hn).
  rewrite (proj2 (@list_find_None _ _ _ ts) HT).
  rewrite (proj2 (@list_find_None _ _ _ ts) HL).
  by rewrite Hrows.
Qed.

(** With a value for "Tweets_Per_Day" added to the sample, the prediction
    is a single probability strictly between 0 and 1. *)
Lemma completed_sample_prediction w :
  units (output w) = 1%nat →
  ∃ p, predict (λ _ _, true) (mkModel all_inputs example_features w)
         completed_input_dict = inr [[p]]
       ∧ (0 < p < 1)%R.
Proof.
  intros Hunits.
  assert (Hg : gather completed_input_dict all_inputs
               = inr [ (followers, [VInt 100]); (following, [VInt 50]);
                       (creation_date, [VInt 2010]); (number_of_tweets, [VInt 800]);
                       (Retweet_Ratio, [VFloat (3 # 10)]); (Profile_pic, [VInt 1]);
                       (Tweets_Per_Day, [VFloat (2 # 1)]); (Bot_Score, [VInt 5]) ])
    by (vm_compute; reflexivity).
  assert (∃ row, mapM (encode_row (mkModel all_inputs example_features w)
                         completed_input_dict) (seq 0 1) = Some [row])
    as [row Hrow].
  { unfold encode_row, example_features. cbn [features mapM seq].
    repeat match goal with
    | |- context [completed_input_dict !! ?name] =>
        let H := fresh in
        destruct (completed_input_dict !! name) as [?|] eqn:H;
        [|vm_compute in H; discriminate H];
        vm_compute in H; injection H as <-
    end.
    cbn. by eexists. }
  rewrite (predict_complete (λ _ _, true) (mkModel all_inputs example_features w)
             completed_input_dict _ [row] Hg).
  - cbn [fmap list_fmap weights].
    pose proof (network_length w row) as Hlen. rewrite Hunits in Hlen.
    destruct (network w row) as [|p [|q l]] eqn:Hn; try done.
    exists p. split; [done|]. apply (network_bounds w row). rewrite Hn. left.
  - repeat constructor.
  - repeat constructor.
  - exact Hrow.
Qed.

(** With a value for "Tweets_Per_Day" added, the script's sample has
    every input in the correct numeric type, and the prediction is a
    single value. *)
Lemma completed_sample_accepted w :
  units (output w) = 1%nat →
  ∃ p, predict correct_numeric_type (mkModel all_inputs example_features w)
         completed_input_dict = inr [[p]].
Proof.
  intros Hunits.
  assert (Hg : gather completed_input_dict all_inputs
               = inr [ (followers, [VInt 100]); (following, [VInt 50]);
                       (creation_date, [VInt 2010]); (number_of_tweets, [VInt 800]);
                       (Retweet_Ratio, [VFloat (3 # 10)]); (Profile_pic, [VInt 1]);
                       (Tweets_Per_Day, [VFloat (2 # 1)]); (Bot_Score, [VInt 5]) ])
    by (vm_compute; reflexivity).
  assert (∃ row, mapM (encode_row (mkModel all_inputs example_features w)
                         completed_input_dict) (seq 0 1) = Some [row])
    as [row Hrow].
  { unfold encode_row, example_features. cbn [features mapM seq].
    repeat match goal with
    | |- context [completed_input_dict !! ?name] =>
        let H := fresh in
        destruct (completed_input_dict !! name) as [?|] eqn:H;
        [|vm_compute in H; discriminate H];
        vm_compute in H; injection H as <-
    end.
    cbn. by eexists. }
  rewrite (predict_complete correct_numeric_type
             (mkModel all_inputs example_features w)
             completed_input_dict _ [row] Hg).
  - cbn [fmap list_fmap weights].
    pose proof (network_length w row) as Hlen. rewrite Hunits in Hlen.
    destruct (network w row) as [|p [|q l]] eqn:Hn; try done. by exists p.
  - repeat constructor.
  - repeat constructor.
  - exact Hrow.
Qed.

Lemma float_bot_score_gather :
  gather float_bot_score_input_dict all_inputs
  = inr [ (followers, [VInt 100]); (following, [VInt 50]);
          (creation_date, [VInt 2010]); (number_of_tweets, [VInt 800]);
          (Retweet_Ratio, [VFloat (3 # 10)]); (Profile_pic, [VInt 1]);
          (Tweets_Per_Day, [VFloat (2 # 1)]); (Bot_Score, [VFloat (5 # 2)]) ].
Proof. vm_compute. reflexivity. Qed.

Lemma float_bot_score_rejected :
  predict correct_numeric_type example_model float_bot_score_input_dict
  = inl (WrongType "Bot_Score").
Proof.
  unfold predict. cbn [inputs example_model]. rewrite float_bot_score_gather.
  match goal with
  | |- context [list_find ?P ?l] =>
      assert (list_find P l = Some (7%nat, (Bot_Score, [VFloat (5 # 2)]))) as ->
        by (vm_compute; reflexivity)
  end.
  reflexivity.
Qed.

(** The three cases on the example model: the script's own sample
    leaves out "Tweets_Per_Day" and fails; the completed sample with a
    float for the integer input "Bot_Score" is of the wrong numeric type
    and fails, naming that input; the completed sample, which supplies
    whole numbers for float inputs, is accepted and predicts one value
    between 0 and 1. *)
Lemma predict_fails_or_returns_raw_probability_witness :
  (Tweets_Per_Day ∈ inputs example_model
   ∧ input_dict !! "Tweets_Per_Day" = None
   ∧ ∃ s', s' ∈ inputs example_model ∧ input_dict !! input_name s' = None
       ∧ predict correct_numeric_type example_model input_dict
         = inl (MissingInput (input_name s')))
  ∧ (Bot_Score ∈ inputs example_model
     ∧ input_dtype Bot_Score = int64
     ∧ float_bot_score_input_dict !! "Bot_Score" = Some [VFloat (5 # 2)]
     ∧ predict correct_numeric_type example_model float_bot_score_input_dict
       = inl (WrongType "Bot_Score")
     ∧ ∃ s', s' ∈ inputs example_model
         ∧ (predict correct_numeric_type example_model float_bot_score_input_dict
            = inl (MissingInput (input_name s'))
            ∨ predict correct_numeric_type example_model float_bot_score_input_dict
              = inl (WrongType (input_name s'))))
  ∧ ∃ p, predict correct_numeric_type example_model completed_input_dict = inr [[p]]
         ∧ (0 <= p <= 1)%R.
Proof.
  assert (Hin1 : Tweets_Per_Day ∈ inputs example_model)
    by (cbn [inputs example_model]; unfold all_inputs; repeat (first [left|right])).
  assert (Hx1 : input_dict !! "Tweets_Per_Day" = None) by (vm_compute; reflexivity).
  assert (Hin : Bot_Score ∈ inputs example_model)
    by (cbn [inputs example_model]; unfold all_inputs; repeat (first [left|right])).
  assert (Hx : float_bot_score_input_dict !! "Bot_Score" = Some [VFloat (5 # 2)])
    by (vm_compute; reflexivity).
  assert (Hq : VFloat (5 # 2) ∈ [VFloat (5 # 2)]) by left.
  split; [|split].
  - split; [exact Hin1|]. split; [exact Hx1|].
    exact (proj1 (predict_fails_or_returns_raw_probability example_model input_dict)
             Tweets_Per_Day Hin1 Hx1).
  - split; [exact Hin|]. split; [reflexivity|]. split; [exact Hx|].
    split; [exact float_bot_score_rejected|].
    exact (proj1 (proj2 (predict_fails_or_returns_raw_probability example_model
                           float_bot_score_input_dict))
             Bot_Score [VFloat (5 # 2)] (5 # 2) Hin eq_refl Hx Hq).
  - destruct (completed_sample_accepted (weights example_model) eq_refl) as [p Hp].
    exists p. split; [exact Hp|].
    destruct (proj2 (proj2 (predict_fails_or_returns_raw_probability example_model
                              completed_input_dict)) [[p]] Hp)
      as (n & rows & _ & _ & _ & _ & Hrange).
    assert (Hrow : [p] ∈ [[p]]) by left.
    apply (proj2 (Hrange [p] Hrow) p). left.
Defined.

(** * Further properties of the split *)

Lemma sample_size_small N : (N ≤ 3)%nat → Pandas.sample_size (15 # 100) N = 0%nat.
Proof. intros HN. destruct N as [|[|[|[|N]]]]; [reflexivity..|lia]. Qed.

Lemma sample_size_pos N : (4 ≤ N)%nat → (0 < Pandas.sample_size (15 # 100) N < N)%nat.
Proof.
  intros HN. unfold Pandas.sample_size.
  pose proof (round_half_even_bounds N) as Hb. cbn zeta in Hb. lia.
Qed.

Lemma df_eta df : mkDataFrame (df_columns df) (df_rows df) = df.
Proof. by destruct df. Qed.

Lemma filter_all {A} (P : A → Prop) `{∀ x, Decision (P x)} (l : list A) :
  (∀ x, x ∈ l → P x) → filter P l = l.
Proof.
  induction l as [|x l IH]; intros Hl; [done|].
  rewrite filter_cons, decide_True by (apply Hl; left).
  f_equal. apply IH. intros y Hy. apply Hl. by right.
Qed.

Lemma drop_columns labels df train :
  Pandas.drop labels df = Some train → df_columns train = df_columns df.
Proof. unfold Pandas.drop. case_decide; [|done]. by intros [= <-]. Qed.

Section SplitExtras.

Variable permutation : Z → nat → list nat.
Hypothesis permutation_spec : ∀ seed n, permutation seed n ≡ₚ seq 0 n.

Lemma val_dataframe_len_large entropy dataframe :
  (4 ≤ df_len dataframe)%nat →
  (0 < df_len (val_dataframe permutation entropy dataframe) < df_len dataframe)%nat.
Proof.
  intros HN. unfold val_dataframe.
  rewrite (sample_len permutation permutation_spec). by apply sample_size_pos.
Qed.

(** X1: a table of at most three rows gets an empty validation partition
    and is its own training partition, because 15% of three rows rounds
    to no row; from four rows on the validation partition is not empty
    and is smaller than the table. *)
Theorem split_of_small_and_large_tables entropy dataframe :
  ((df_len dataframe ≤ 3)%nat →
     df_rows (val_dataframe permutation entropy dataframe) = []
     ∧ train_dataframe permutation entropy dataframe = Some dataframe)
  ∧ ((4 ≤ df_len dataframe)%nat →
     (0 < df_len (val_dataframe permutation entropy dataframe) < df_len dataframe)%nat).
Proof.
  split.
  - intros HN.
    assert (Hval : df_rows (val_dataframe permutation entropy dataframe) = []).
    { unfold val_dataframe, Pandas.sample. cbn [df_rows].
      by rewrite sample_size_small. }
    split; [done|]. unfold train_dataframe, val_dataframe.
    rewrite drop_sampled_is_Some.
    fold (val_dataframe permutation entropy dataframe).
    unfold df_index. rewrite Hval. cbn [fmap list_fmap].
    rewrite filter_all; [by rewrite df_eta|]. intros r _. apply not_elem_of_nil.
  - apply val_dataframe_len_large.
Qed.

(** X2: when the index labels are pairwise distinct, the two partitions
    together hold every row of the table exactly once, the training
    partition keeps its rows in the order of the table, and both
    partitions keep all columns. *)
Theorem split_keeps_every_row_once entropy dataframe :
  NoDup (df_index dataframe) →
  ∃ train,
    train_dataframe permutation entropy dataframe = Some train
    ∧ df_rows (val_dataframe permutation entropy dataframe) ++ df_rows train
      ≡ₚ df_rows dataframe
    ∧ df_rows train `sublist_of` df_rows dataframe
    ∧ df_columns train = df_columns dataframe
    ∧ df_columns (val_dataframe permutation entropy dataframe) = df_columns dataframe.
Proof.
  intros Hnd.
  destruct (split_distinct_index permutation permutation_spec entropy 1337%Z
              dataframe Hnd) as (train & Hdrop & Hrows & _ & _).
  exists train. split; [exact Hdrop|].
  set (val := Pandas.sample permutation entropy (15 # 100) (Some 1337%Z) dataframe) in *.
  change (val_dataframe permutation entropy dataframe) with val.
  split; [|split; [|split]].
  - rewrite Hrows.
    etransitivity;
      [|apply (filter_app_complement (λ r, r ∈ df_rows val) (df_rows dataframe))].
    apply Permutation_app_tail, NoDup_Permutation.
    + apply (sample_rows_NoDup permutation permutation_spec).
      by apply NoDup_rows_of_labels.
    + apply NoDup_filter. by apply NoDup_rows_of_labels.
    + intros r. rewrite list_elem_of_filter.
      split; [intros Hr; split; [done|by eapply elem_of_sample_rows]|by intros [Hr _]].
  - rewrite Hrows. apply sublist_filter.
  - by eapply drop_columns.
  - done.
Qed.

End SplitExtras.

Lemma example_dataframe_index_NoDup : NoDup (df_index example_dataframe).
Proof. apply (bool_decide_unpack _). vm_compute. reflexivity. Qed.

Lemma split_of_small_and_large_tables_witness :
  (∀ seed n, descending seed n ≡ₚ seq 0 n)
  ∧ (4 ≤ df_len example_dataframe)%nat
  ∧ (0 < df_len (val_dataframe descending 0 example_dataframe)
     < df_len example_dataframe)%nat.
Proof.
  assert (H4 : (4 ≤ df_len example_dataframe)%nat) by (vm_compute; lia).
  split; [exact descending_spec|]. split; [exact H4|].
  exact (proj2 (split_of_small_and_large_tables descending descending_spec
                  0%Z example_dataframe) H4).
Defined.

Lemma split_keeps_every_row_once_witness :
  (∀ seed n, descending seed n ≡ₚ seq 0 n)
  ∧ NoDup (df_index example_dataframe)
  ∧ ∃ train,
      train_dataframe descending 0 example_dataframe = Some train
      ∧ df_rows (val_dataframe descending 0 example_dataframe) ++ df_rows train
        ≡ₚ df_rows example_dataframe
      ∧ df_rows train `sublist_of` df_rows example_dataframe
      ∧ df_columns train = df_columns example_dataframe
      ∧ df_columns (val_dataframe descending 0 example_dataframe)
        = df_columns example_dataframe.
Proof.
  split; [exact descending_spec|]. split; [exact example_dataframe_index_NoDup|].
  exact (split_keeps_every_row_once descending descending_spec 0%Z example_dataframe
           example_dataframe_index_NoDup).
Defined.

(** * Further properties of the dataset wrapper *)

Lemma df_column_is_Some name df :
  is_Some (df_column name df)
  ↔ name ∈ df_columns df ∧ ∀ r, r ∈ df_rows df → is_Some (row_cells r !! name).
Proof.
  unfold df_column. case_decide as Hin.
  - rewrite mapM_is_Some, Forall_forall.
    split; [intros Hall; split; [done|exact Hall]|by intros [_ Hall]].
  - split; [by intros [? ?]|by intros [? _]].
Qed.

Lemma dataframe_to_dataset_is_Some (σ : Store) dataframe :
  is_Some (dataframe_to_dataset dataframe σ)
  ↔ ∃ df, σ !! dataframe = Some df ∧ is_Some (df_column "Bot_or_Not" df).
Proof.
  split.
  - intros [[ds σ'] Hds].
    destruct (σ !! dataframe) as [df|] eqn:Hdf.
    + destruct (dataframe_to_dataset_inv _ _ _ _ _ Hdf Hds) as (labels & Hl & _).
      exists df. split; [done|]. by exists labels.
    + unfold dataframe_to_dataset, bind, copy, bind, deref in Hds.
      unfold Store, loc in *. by rewrite Hdf in Hds.
  - intros (df & Hdf & [labels Hl]).
    rewrite (dataframe_to_dataset_eq _ _ _ _ Hdf Hl). by eexists.
Qed.

(** X3: on a non-empty frame the wrapper returns a dataset exactly when
    the frame has a "Bot_or_Not" column with a cell in every row, and
    raises otherwise. *)
Theorem wrapper_succeeds_iff_label_column (σ : Store) dataframe df :
  σ !! dataframe = Some df →
  df_rows df ≠ [] →
  is_Some (dataframe_to_dataset dataframe σ)
  ↔ "Bot_or_Not" ∈ df_columns df
    ∧ ∀ r, r ∈ df_rows df → is_Some (row_cells r !! "Bot_or_Not").
Proof.
  intros Hdf _.
  rewrite dataframe_to_dataset_is_Some, <- df_column_is_Some. split.
  - intros (df' & Hdf' & Hsome). congruence.
  - intros Hsome. by exists df.
Qed.

(** X4: because the wrapper works on a copy, wrapping the same non-empty
    frame a second time succeeds and gives the same dataset; the frame is
    still as it was, and each call adds one object to the store. *)
Theorem wrapper_twice_same_dataset (σ : Store) dataframe df labels :
  σ !! dataframe = Some df →
  df_rows df ≠ [] →
  df_column "Bot_or_Not" df = Some labels →
  ∃ ds σ1 σ2,
    dataframe_to_dataset dataframe σ = Some (ds, σ1)
    ∧ dataframe_to_dataset dataframe σ1 = Some (ds, σ2)
    ∧ σ2 !! dataframe = Some df
    ∧ size σ2 = S (S (size σ)).
Proof.
  intros Hdf _ Hl.
  pose proof (dataframe_to_dataset_eq _ _ _ _ Hdf Hl) as H1.
  set (σ1 := <[next_loc σ := df_without "Bot_or_Not" df]> σ) in *.
  assert (Hne : next_loc σ ≠ dataframe).
  { intros Heq. pose proof (next_loc_fresh σ) as Hf. rewrite Heq in Hf. congruence. }
  assert (Hdf1 : σ1 !! dataframe = Some df).
  { unfold σ1, Store, loc in *. by rewrite lookup_insert_ne. }
  pose proof (dataframe_to_dataset_eq _ _ _ _ Hdf1 Hl) as H2.
  assert (Hne1 : next_loc σ1 ≠ dataframe).
  { intros Heq. pose proof (next_loc_fresh σ1) as Hf. rewrite Heq in Hf. congruence. }
  do 3 eexists. split; [exact H1|]. split; [exact H2|].
  unfold Store, loc in *. split; [by rewrite lookup_insert_ne|].
  rewrite map_size_insert_None by apply next_loc_fresh.
  unfold σ1. by rewrite map_size_insert_None by apply next_loc_fresh.
Qed.

Lemma slices_column_from (d : gmap string (list value)) name col labels k :
  d !! name = Some col →
  length col = (k + length labels)%nat →
  omap (λ e : TfData.Element, e.1 !! name)
       (imap (λ i y, (omap (λ c : list value, c !! (k + i)%nat) d, y)) labels)
  = drop k col.
Proof.
  intros Hd. revert k. induction labels as [|y labels IH]; intros k Hlen.
  - cbn in *. rewrite drop_ge; [done|lia].
  - cbn [imap omap list_omap fst]. rewrite lookup_omap, Hd. cbn [mbind option_bind].
    rewrite Nat.add_0_r.
    destruct (lookup_lt_is_Some_2 col k) as [v Hv]; [cbn in Hlen; lia|].
    rewrite Hv. rewrite (drop_S _ _ _ Hv). f_equal.
    rewrite <- (IH (S k)) by (cbn in Hlen; lia).
    f_equal. apply imap_ext. intros i z _. cbn.
    by replace (k + S i)%nat with (S (k + i)) by lia.
Qed.

Lemma slices_column (d : gmap string (list value)) name col labels :
  d !! name = Some col → length col = length labels →
  omap (λ e : TfData.Element, e.1 !! name) (TfData.slices d labels) = col.
Proof.
  intros Hd Hlen. unfold TfData.slices.
  exact (slices_column_from d name col labels 0 Hd Hlen).
Qed.

Lemma slices_no_column (d : gmap string (list value)) name labels e :
  d !! name = None → e ∈ TfData.slices d labels → e.1 !! name = None.
Proof.
  intros Hd He. apply list_elem_of_lookup in He as [i Hi].
  rewrite slices_lookup in Hi. destruct (labels !! i); [|done].
  injection Hi as <-. cbn. by rewrite lookup_omap, Hd.
Qed.

Lemma slices_has_column (d : gmap string (list value)) name col labels e :
  d !! name = Some col → length col = length labels →
  e ∈ TfData.slices d labels → is_Some (e.1 !! name).
Proof.
  intros Hd Hlen He. apply list_elem_of_lookup in He as [i Hi].
  rewrite slices_lookup in Hi. destruct (labels !! i) as [y|] eqn:Hy; [|done].
  injection Hi as <-. cbn. rewrite lookup_omap, Hd. cbn.
  apply lookup_lt_is_Some. rewrite Hlen. by eapply lookup_lt_Some.
Qed.

Lemma stack_lookup_Some (chunk : list TfData.Element) name :
  chunk ≠ [] → (∀ e, e ∈ chunk → is_Some (e.1 !! name)) →
  (TfData.stack chunk).1 !! name
  = Some (omap (λ e : TfData.Element, e.1 !! name) chunk).
Proof.
  intros Hne Hall. unfold TfData.stack. cbn [fst].
  destruct chunk as [|e0 chunk]; [done|].
  rewrite map_lookup_imap. destruct (Hall e0) as [v ->]; [left|]. done.
Qed.

Lemma stack_lookup_None (chunk : list TfData.Element) name :
  (∀ e, e ∈ chunk → e.1 !! name = None) → (TfData.stack chunk).1 !! name = None.
Proof.
  intros Hall. unfold TfData.stack. cbn [fst].
  destruct chunk as [|e0 chunk]; [done|].
  rewrite map_lookup_imap, (Hall e0); [done|left].
Qed.

Lemma chunks_nonempty {A} fuel n (l c : list A) :
  (0 < n)%nat → c ∈ TfData.chunks fuel n l → c ≠ [].
Proof.
  intros Hn Hc. apply list_elem_of_lookup in Hc as [i Hi].
  apply chunks_lookup in Hi as [-> Hi]. destruct Hi as [Hi|Hi]; [|lia].
  intros Hnil. apply (f_equal length) in Hnil.
  rewrite length_take, length_drop in Hnil. cbn in Hnil. lia.
Qed.

Lemma mapM_stack_Some (cs : list (list TfData.Element)) name :
  (∀ c, c ∈ cs → c ≠ [] ∧ ∀ e, e ∈ c → is_Some (e.1 !! name)) →
  mapM (λ b : TfData.Batch, b.1 !! name) (TfData.stack <$> cs)
  = Some ((λ c : list TfData.Element, omap (λ e : TfData.Element, e.1 !! name) c)
            <$> cs).
Proof.
  induction cs as [|c cs IH]; intros Hall; [done|].
  cbn [fmap list_fmap mapM]. destruct (Hall c) as [Hne Hc]; [left|].
  rewrite (stack_lookup_Some c name Hne Hc). cbn.
  rewrite IH; [done|]. intros c' Hc'. apply Hall. by right.
Qed.

Lemma concat_omap {A B} (f : A → option B) (cs : list (list A)) :
  concat ((λ c : list A, omap f c) <$> cs) = omap f (concat cs).
Proof.
  induction cs as [|c cs IH]; [done|]. cbn. by rewrite omap_app, IH.
Qed.

(** The values an adapt pass sees when every element has the feature, and
    the failure of the pass when no element has it. *)
Lemma feature_values_present name (ds : TfData.Dataset TfData.Element) pass :
  (∀ e, e ∈ ds pass → is_Some (e.1 !! name)) →
  feature_values name (TfData.batch 32 ds) pass
  = Some (omap (λ e : TfData.Element, e.1 !! name) (ds pass)).
Proof.
  intros Hall. rewrite feature_values_eq. unfold TfData.batch.
  rewrite mapM_stack_Some.
  - cbn. by rewrite concat_omap, chunks_concat by lia.
  - intros c Hc. split; [by eapply chunks_nonempty; [|exact Hc]; lia|].
    intros e He. apply Hall. by eapply chunks_elem_of.
Qed.

Lemma feature_values_absent name (ds : TfData.Dataset TfData.Element) pass :
  ds pass ≠ [] → (∀ e, e ∈ ds pass → e.1 !! name = None) →
  feature_values name (TfData.batch 32 ds) pass = None.
Proof.
  intros Hne Hall. rewrite feature_values_eq. unfold TfData.batch.
  destruct (ds pass) as [|e l] eqn:Hl; [done|].
  rewrite (proj2 (mapM_None _ _)); [done|].
  cbn [length TfData.chunks fmap list_fmap]. apply Exists_cons_hd.
  apply stack_lookup_None. intros e' He'. apply Hall.
  apply elem_of_take in He' as (j & Hj & _). by eapply list_elem_of_lookup_2.
Qed.

Lemma omap_lookup_all {A B} (f : A → option B) (l : list A) j :
  (∀ x, x ∈ l → is_Some (f x)) → omap f l !! j = l !! j ≫= f.
Proof.
  revert j. induction l as [|x l IH]; intros j Hall; [done|].
  cbn. destruct (Hall x) as [y Hy]; [left|]. rewrite Hy.
  destruct j as [|j]; cbn; [done|]. apply IH. intros z Hz. apply Hall. by right.
Qed.

Section Wrapped.

Variables (df : DataFrame) (labels : list value).
Hypothesis Hlabels : df_column "Bot_or_Not" df = Some labels.

Let elements : list TfData.Element :=
  TfData.slices (dict (df_without "Bot_or_Not" df)) labels.

Lemma wrapped_length : length elements = df_len df.
Proof. unfold elements. rewrite slices_length. by eapply df_column_length. Qed.

Lemma wrapped_pass pass :
  TfData.shuffle (df_len df) (λ _, elements) pass ≡ₚ elements.
Proof. rewrite <- wrapped_length. apply shuffle_full_Permutation. Qed.

Lemma wrapped_feature_values name pass :
  df_rows df ≠ [] → name ≠ "Bot_or_Not" →
  match df_column name df with
  | Some col =>
      ∃ xs, feature_values name
              (TfData.batch 32 (TfData.shuffle (df_len df) (λ _, elements))) pass
            = Some xs ∧ xs ≡ₚ col
  | None =>
      feature_values name
        (TfData.batch 32 (TfData.shuffle (df_len df) (λ _, elements))) pass = None
  end.
Proof.
  intros Hne Hname.
  pose proof (df_without_column_ne "Bot_or_Not" name df Hname) as Hcol.
  rewrite <- dict_lookup in Hcol.
  destruct (df_column name df) as [col|] eqn:Hc.
  - assert (Hlen : length col = length labels).
    { rewrite (df_column_length _ _ _ Hc). symmetry. by eapply df_column_length. }
    eexists. split.
    + apply feature_values_present. intros e He. rewrite wrapped_pass in He.
      by eapply slices_has_column.
    + rewrite wrapped_pass. unfold elements. by rewrite (slices_column _ _ _ _ Hcol Hlen).
  - apply feature_values_absent.
    + intros Hnil. apply (f_equal length) in Hnil.
      rewrite (Permutation_length (wrapped_pass pass)), wrapped_length in Hnil.
      unfold df_len in Hnil. destruct (df_rows df); [done|discriminate].
    + intros e He. rewrite wrapped_pass in He. by eapply slices_no_column.
Qed.

Lemma wrapped_label_values pass :
  df_rows df ≠ [] →
  feature_values "Bot_or_Not"
    (TfData.batch 32 (TfData.shuffle (df_len df) (λ _, elements))) pass = None.
Proof.
  intros Hne. apply feature_values_absent.
  - intros Hnil. apply (f_equal length) in Hnil.
    rewrite (Permutation_length (wrapped_pass pass)), wrapped_length in Hnil.
    unfold df_len in Hnil. destruct (df_rows df); [done|discriminate].
  - intros e He. rewrite wrapped_pass in He. eapply slices_no_column; [|exact He].
    by rewrite dict_lookup, df_without_column.
Qed.

End Wrapped.
Lemma wrapped_batches_aligned df labels pass (b : TfData.Batch) j y :
  df_column "Bot_or_Not" df = Some labels →
  b ∈ TfData.batch 32
        (TfData.shuffle (df_len df)
           (λ _, TfData.slices (dict (df_without "Bot_or_Not" df)) labels)) pass →
  b.2 !! j = Some y →
  ∃ r, r ∈ df_rows df
       ∧ row_cells r !! "Bot_or_Not" = Some y
       ∧ ∀ name col, b.1 !! name = Some col →
           ∃ v, col !! j = Some v ∧ row_cells r !! name = Some v.
Proof.
  intros Hl Hb Hy.
  set (elements := TfData.slices (dict (df_without "Bot_or_Not" df)) labels) in *.
  pose proof (wrapped_pass df labels Hl pass) as Hperm. fold elements in Hperm.
  unfold TfData.batch in Hb.
  set (l := TfData.shuffle (df_len df) (λ _, elements) pass) in *.
  apply list_elem_of_fmap in Hb as (chunk & -> & Hchunk).
  assert (Hsub : ∀ e, e ∈ chunk → e ∈ elements).
  { intros e He. rewrite <- Hperm. by eapply chunks_elem_of. }
  unfold TfData.stack in Hy. cbn [snd] in Hy. rewrite list_lookup_fmap in Hy.
  match type of Hy with
  | snd <$> ?o = _ => destruct o as [e|] eqn:He; cbn in Hy; [|done]
  end.
  injection Hy as <-.
  assert (Hin : e ∈ elements) by (apply Hsub; by eapply list_elem_of_lookup_2).
  apply list_elem_of_lookup in Hin as [i Hi].
  destruct (slices_element _ _ _ _ _ Hl Hi) as (r & Hr & Hlab & _ & Hfeat).
  exists r. split; [by eapply list_elem_of_lookup_2|]. split; [done|].
  intros name col Hcol.
  assert (Hkeys : ∀ e', e' ∈ chunk → is_Some (e'.1 !! name)).
  { intros e' He'. destruct chunk as [|e0 chunk0] eqn:Hc; [by apply elem_of_nil in He'|].
    apply (slices_same_keys (df_without "Bot_or_Not" df) labels e0 e').
    - intros c col'. by apply dataset_slice_lengths.
    - apply Hsub. left.
    - by apply Hsub.
    - unfold TfData.stack in Hcol. cbn [fst] in Hcol.
      rewrite map_lookup_imap in Hcol. by destruct (e0.1 !! name). }
  apply stack_lookup in Hcol as ->.
  rewrite (omap_lookup_all _ _ _ Hkeys), He. cbn.
  destruct (Hkeys e) as [v Hv]; [by eapply list_elem_of_lookup_2|].
  exists v. split; [done|].
  apply (lookup_weaken _ _ _ _ Hv) in Hfeat.
  by apply lookup_delete_Some in Hfeat as [_ ?].
Qed.

(** X6: shuffling and batching keep features and labels together: at
    every position of every batch, the label and the value of each
    feature array come from one and the same row of the frame. *)
Theorem batches_keep_rows_aligned (σ : Store) dataframe df labels :
  σ !! dataframe = Some df →
  df_rows df ≠ [] →
  df_column "Bot_or_Not" df = Some labels →
  ∃ ds σ',
    dataframe_to_dataset dataframe σ = Some (ds, σ')
    ∧ ∀ pass b j y,
        b ∈ TfData.batch 32 ds pass → b.2 !! j = Some y →
        ∃ r, r ∈ df_rows df
             ∧ row_cells r !! "Bot_or_Not" = Some y
             ∧ ∀ name col, b.1 !! name = Some col →
                 ∃ v, col !! j = Some v ∧ row_cells r !! name = Some v.
Proof.
  intros Hdf _ Hl. do 2 eexists.
  split; [by apply dataframe_to_dataset_eq|].
  intros pass b j y. by apply wrapped_batches_aligned.
Qed.

Lemma slices_element_exact df labels i e r :
  complete df →
  df_column "Bot_or_Not" df = Some labels →
  TfData.slices (dict (df_without "Bot_or_Not" df)) labels !! i = Some e →
  df_rows df !! i = Some r →
  e.1 = delete "Bot_or_Not" (row_cells r).
Proof.
  intros Hcomp Hl Hi Hr. rewrite slices_lookup in Hi.
  destruct (labels !! i) as [y|]; [|done]. injection Hi as <-. cbn [fst].
  assert (Hrin : r ∈ df_rows df) by (by eapply list_elem_of_lookup_2).
  apply map_eq. intros name. rewrite lookup_omap, dict_lookup.
  destruct (decide (name = "Bot_or_Not")) as [->|Hne].
  - by rewrite df_without_column, lookup_delete_eq.
  - rewrite df_without_column_ne, lookup_delete_ne by done.
    destruct (df_column name df) as [col|] eqn:Hcol.
    + cbn. by rewrite (df_column_lookup _ _ _ i Hcol), Hr.
    + cbn. symmetry. apply eq_None_not_Some. intros Hsome.
      assert (is_Some (df_column name df)) as [? ?]; [|congruence].
      apply df_column_is_Some.
      assert (Hdom : ∀ r', r' ∈ df_rows df → name ∈ df_columns df →
                is_Some (row_cells r' !! name)).
      { intros r' Hr' Hin. apply elem_of_dom. rewrite (Hcomp r' Hr').
        by apply elem_of_list_to_set. }
      assert (name ∈ df_columns df).
      { apply elem_of_dom in Hsome. rewrite (Hcomp r Hrin) in Hsome.
        by apply elem_of_list_to_set in Hsome. }
      split; [done|]. intros r' Hr'. by apply Hdom.
Qed.

(** X5: for a non-empty complete frame with a "Bot_or_Not" column, the
    pairs a pass yields are exactly the rows of the frame: the cells of a
    row without the label, paired with that row's label. *)
Theorem wrapper_yields_exactly_the_rows (σ : Store) dataframe df :
  σ !! dataframe = Some df →
  df_rows df ≠ [] →
  complete df →
  "Bot_or_Not" ∈ df_columns df →
  ∃ ds σ',
    dataframe_to_dataset dataframe σ = Some (ds, σ')
    ∧ ∀ pass e,
        e ∈ ds pass
        ↔ ∃ r, r ∈ df_rows df
               ∧ row_cells r !! "Bot_or_Not" = Some e.2
               ∧ e.1 = delete "Bot_or_Not" (row_cells r).
Proof.
  intros Hdf _ Hcomp Hin.
  assert (is_Some (df_column "Bot_or_Not" df)) as [labels Hl].
  { apply df_column_is_Some. split; [done|]. intros r Hr.
    apply elem_of_dom. rewrite (Hcomp r Hr). by apply elem_of_list_to_set. }
  do 2 eexists. split; [by apply dataframe_to_dataset_eq|].
  intros pass e. rewrite (wrapped_pass df labels Hl pass). split.
  - intros He. apply list_elem_of_lookup in He as [i Hi].
    destruct (slices_element _ _ _ _ _ Hl Hi) as (r & Hr & Hlab & _ & _).
    exists r. split; [by eapply list_elem_of_lookup_2|]. split; [done|].
    by eapply slices_element_exact.
  - intros (r & Hr & Hlab & Hfeat). apply list_elem_of_lookup in Hr as [i Hr].
    apply list_elem_of_lookup. exists i.
    assert (Hy : labels !! i = Some e.2).
    { rewrite (df_column_lookup _ _ _ i Hl), Hr. done. }
    assert (Hs : TfData.slices (dict (df_without "Bot_or_Not" df)) labels !! i
                 = Some (omap (λ col : list value, col !! i)
                           (dict (df_without "Bot_or_Not" df)), e.2))
      by (by rewrite slices_lookup, Hy).
    refine (eq_trans Hs _). f_equal.
    pose proof (slices_element_exact df labels i _ r Hcomp Hl Hs Hr) as Hex.
    cbn [fst] in Hex. rewrite Hex, <- Hfeat. by destruct e.
Qed.

Lemma read_csv_complete header lines df :
  Pandas.read_csv header lines = Some df → complete df ∧ df_columns df = header
  ∧ df_len df = length lines.
Proof.
  unfold Pandas.read_csv. destruct (forallb _ lines) eqn:Hall; [|done].
  intros [= <-]. split; [|split; [done|unfold df_len; cbn; by rewrite length_imap]].
  intros r Hr. cbn [df_rows df_columns] in *.
  apply elem_of_lookup_imap in Hr as (i & l & -> & Hl). cbn [row_cells].
  rewrite dom_list_to_map_L, fst_zip; [done|].
  rewrite forallb_forall in Hall. specialize (Hall l).
  rewrite Nat.eqb_eq in Hall. rewrite Hall; [done|].
  apply list_elem_of_In. by eapply list_elem_of_lookup_2.
Qed.

Lemma complete_subframe df df' :
  complete df → df_columns df' = df_columns df →
  (∀ r, r ∈ df_rows df' → r ∈ df_rows df) → complete df'.
Proof. intros Hc Hcols Hrows r Hr. rewrite Hcols. apply Hc. by apply Hrows. Qed.

Lemma complete_column df name :
  complete df → name ∈ df_columns df → is_Some (df_column name df).
Proof.
  intros Hc Hin. apply df_column_is_Some. split; [done|]. intros r Hr.
  apply elem_of_dom. rewrite (Hc r Hr). by apply elem_of_list_to_set.
Qed.

Lemma example_dataframe_read :
  Pandas.read_csv example_header example_lines = Some example_dataframe.
Proof. vm_compute. reflexivity. Qed.

Lemma example_dataframe_complete : complete example_dataframe.
Proof. exact (proj1 (read_csv_complete _ _ _ example_dataframe_read)). Qed.

Lemma example_store_lookup : example_store !! 1%positive = Some example_dataframe.
Proof. vm_compute. reflexivity. Qed.

Lemma example_dataframe_rows : df_rows example_dataframe ≠ [].
Proof. unfold example_dataframe, example_lines. cbn. discriminate. Qed.

Lemma example_labels_column :
  df_column "Bot_or_Not" example_dataframe = Some example_labels.
Proof. vm_compute. reflexivity. Qed.

Lemma example_label_in_columns : "Bot_or_Not" ∈ df_columns example_dataframe.
Proof.
  unfold example_dataframe, example_header. cbn [df_columns].
  repeat (first [left|right]).
Qed.

Lemma wrapper_succeeds_iff_label_column_witness :
  example_store !! 1%positive = Some example_dataframe
  ∧ df_rows example_dataframe ≠ []
  ∧ (is_Some (dataframe_to_dataset 1%positive example_store)
     ↔ "Bot_or_Not" ∈ df_columns example_dataframe
       ∧ ∀ r, r ∈ df_rows example_dataframe →
              is_Some (row_cells r !! "Bot_or_Not")).
Proof.
  split; [exact example_store_lookup|]. split; [exact example_dataframe_rows|].
  exact (wrapper_succeeds_iff_label_column example_store 1%positive example_dataframe
           example_store_lookup example_dataframe_rows).
Defined.

Lemma wrapper_twice_same_dataset_witness :
  example_store !! 1%positive = Some example_dataframe
  ∧ df_rows example_dataframe ≠ []
  ∧ df_column "Bot_or_Not" example_dataframe = Some example_labels
  ∧ ∃ ds σ1 σ2,
      dataframe_to_dataset 1%positive example_store = Some (ds, σ1)
      ∧ dataframe_to_dataset 1%positive σ1 = Some (ds, σ2)
      ∧ σ2 !! 1%positive = Some example_dataframe
      ∧ size σ2 = S (S (size example_store)).
Proof.
  split; [exact example_store_lookup|]. split; [exact example_dataframe_rows|].
  split; [exact example_labels_column|].
  exact (wrapper_twice_same_dataset example_store 1%positive example_dataframe
           example_labels example_store_lookup example_dataframe_rows
           example_labels_column).
Defined.

Lemma wrapper_yields_exactly_the_rows_witness :
  example_store !! 1%positive = Some example_dataframe
  ∧ df_rows example_dataframe ≠ []
  ∧ complete example_dataframe
  ∧ "Bot_or_Not" ∈ df_columns example_dataframe
  ∧ ∃ ds σ',
      dataframe_to_dataset 1%positive example_store = Some (ds, σ')
      ∧ ∀ pass e,
          e ∈ ds pass
          ↔ ∃ r, r ∈ df_rows example_dataframe
                 ∧ row_cells r !! "Bot_or_Not" = Some e.2
                 ∧ e.1 = delete "Bot_or_Not" (row_cells r).
Proof.
  split; [exact example_store_lookup|]. split; [exact example_dataframe_rows|].
  split; [exact example_dataframe_complete|].
  split; [exact example_label_in_columns|].
  exact (wrapper_yields_exactly_the_rows example_store 1%positive example_dataframe
           example_store_lookup example_dataframe_rows example_dataframe_complete
           example_label_in_columns).
Defined.

Lemma batches_keep_rows_aligned_witness :
  example_store !! 1%positive = Some example_dataframe
  ∧ df_rows example_dataframe ≠ []
  ∧ df_column "Bot_or_Not" example_dataframe = Some example_labels
  ∧ ∃ ds σ',
      dataframe_to_dataset 1%positive example_store = Some (ds, σ')
      ∧ ∀ pass b j y,
          b ∈ TfData.batch 32 ds pass → b.2 !! j = Some y →
          ∃ r, r ∈ df_rows example_dataframe
               ∧ row_cells r !! "Bot_or_Not" = Some y
               ∧ ∀ name col, b.1 !! name = Some col →
                   ∃ v, col !! j = Some v ∧ row_cells r !! name = Some v.
Proof.
  split; [exact example_store_lookup|]. split; [exact example_dataframe_rows|].
  split; [exact example_labels_column|].
  exact (batches_keep_rows_aligned example_store 1%positive example_dataframe
           example_labels example_store_lookup example_dataframe_rows
           example_labels_column).
Defined.

(** * Further properties of the encoders and the model *)

(** X7: on the dataset the wrapper makes of a non-empty frame, either
    encoder adapts to the values of the frame's column of that name,
    whatever the shuffling draws of the pass: the normalizer learns the
    mean and variance of the column, the category encoder its codes. *)
Theorem encoders_adapt_to_training_column
  (σ : Store) dataframe df labels name col :
  σ !! dataframe = Some df →
  df_column "Bot_or_Not" df = Some labels →
  df_rows df ≠ [] →
  name ≠ "Bot_or_Not" →
  df_column name df = Some col →
  ∃ ds σ',
    dataframe_to_dataset dataframe σ = Some (ds, σ')
    ∧ ∀ feature pass,
        encode_numerical_feature feature name (TfData.batch 32 ds) pass
        = Some (mkTensor feature (Normalization_adapt (value_to_R <$> col)))
        ∧ encode_integer_categorical_feature feature name (TfData.batch 32 ds) pass
          = Some (mkTensor feature (CategoryEncoding_adapt (value_to_code <$> col))).
Proof.
  intros Hdf Hl Hne Hname Hcol. do 2 eexists.
  split; [by apply dataframe_to_dataset_eq|]. intros feature pass.
  pose proof (wrapped_feature_values df labels Hl name pass Hne Hname) as Hfv.
  rewrite Hcol in Hfv. destruct Hfv as (xs & Hxs & Hperm).
  rewrite encode_numerical_feature_eq, encode_integer_categorical_feature_eq, Hxs.
  cbn. split; do 2 f_equal.
  - apply Normalization_adapt_Permutation. by apply fmap_Permutation.
  - apply CategoryEncoding_adapt_Permutation. by apply fmap_Permutation.
Qed.


Lemma example_followers_column :
  df_column "followers" example_dataframe = Some example_followers.
Proof. vm_compute. reflexivity. Qed.

Lemma encoders_adapt_to_training_column_witness :
  example_store !! 1%positive = Some example_dataframe
  ∧ df_column "Bot_or_Not" example_dataframe = Some example_labels
  ∧ df_rows example_dataframe ≠ []
  ∧ "followers" ≠ "Bot_or_Not"
  ∧ df_column "followers" example_dataframe = Some example_followers
  ∧ ∃ ds σ',
      dataframe_to_dataset 1%positive example_store = Some (ds, σ')
      ∧ ∀ feature pass,
          encode_numerical_feature feature "followers" (TfData.batch 32 ds) pass
          = Some (mkTensor feature
                    (Normalization_adapt (value_to_R <$> example_followers)))
          ∧ encode_integer_categorical_feature feature "followers"
              (TfData.batch 32 ds) pass
            = Some (mkTensor feature
                      (CategoryEncoding_adapt (value_to_code <$> example_followers))).
Proof.
  assert (Hne : "followers" ≠ "Bot_or_Not") by discriminate.
  split; [exact example_store_lookup|]. split; [exact example_labels_column|].
  split; [exact example_dataframe_rows|]. split; [exact Hne|].
  split; [exact example_followers_column|].
  exact (encoders_adapt_to_training_column example_store 1%positive example_dataframe
           example_labels "followers" example_followers example_store_lookup
           example_labels_column example_dataframe_rows Hne example_followers_column).
Defined.

(** X8: on the dataset the wrapper makes of a non-empty frame, both
    encoders raise for the label name "Bot_or_Not", which the wrapper took
    out of the features, and for a name the frame has no column for. *)
Theorem encoders_fail_without_feature_column
  (σ : Store) dataframe df labels name :
  σ !! dataframe = Some df →
  df_column "Bot_or_Not" df = Some labels →
  df_rows df ≠ [] →
  name = "Bot_or_Not" ∨ df_column name df = None →
  ∃ ds σ',
    dataframe_to_dataset dataframe σ = Some (ds, σ')
    ∧ ∀ feature pass,
        encode_numerical_feature feature name (TfData.batch 32 ds) pass = None
        ∧ encode_integer_categorical_feature feature name (TfData.batch 32 ds) pass
          = None.
Proof.
  intros Hdf Hl Hne Hname. do 2 eexists.
  split; [by apply dataframe_to_dataset_eq|]. intros feature pass.
  rewrite encode_numerical_feature_eq, encode_integer_categorical_feature_eq.
  assert (feature_values name
            (TfData.batch 32
               (TfData.shuffle (df_len df)
                  (λ _, TfData.slices (dict (df_without "Bot_or_Not" df)) labels)))
            pass = None) as ->; [|done].
  destruct (decide (name = "Bot_or_Not")) as [->|Hn].
  - by apply wrapped_label_values.
  - destruct Hname as [?|Hnone]; [done|].
    pose proof (wrapped_feature_values df labels Hl name pass Hne Hn) as Hfv.
    by rewrite Hnone in Hfv.
Qed.

Lemma encoders_fail_without_feature_column_witness :
  example_store !! 1%positive = Some example_dataframe
  ∧ df_column "Bot_or_Not" example_dataframe = Some example_labels
  ∧ df_rows example_dataframe ≠ []
  ∧ ("Bot_or_Not" = "Bot_or_Not" ∨ df_column "Bot_or_Not" example_dataframe = None)
  ∧ ∃ ds σ',
      dataframe_to_dataset 1%positive example_store = Some (ds, σ')
      ∧ ∀ feature pass,
          encode_numerical_feature feature "Bot_or_Not" (TfData.batch 32 ds) pass = None
          ∧ encode_integer_categorical_feature feature "Bot_or_Not"
              (TfData.batch 32 ds) pass = None.
Proof.
  assert (Hname : "Bot_or_Not" = "Bot_or_Not"
                  ∨ df_column "Bot_or_Not" example_dataframe = None)
    by (left; reflexivity).
  split; [exact example_store_lookup|]. split; [exact example_labels_column|].
  split; [exact example_dataframe_rows|]. split; [exact Hname|].
  exact (encoders_fail_without_feature_column example_store 1%positive
           example_dataframe example_labels "Bot_or_Not" example_store_lookup
           example_labels_column example_dataframe_rows Hname).
Defined.

(** X9: on the dataset of a non-empty training frame the model can be
    built exactly when the frame has a column for each of the eight input
    names; one column missing makes an adapt pass raise. *)
Theorem model_builds_iff_feature_columns draws initializer
  (σ : Store) dataframe df labels :
  σ !! dataframe = Some df →
  df_column "Bot_or_Not" df = Some labels →
  df_rows df ≠ [] →
  ∃ ds σ',
    dataframe_to_dataset dataframe σ = Some (ds, σ')
    ∧ (is_Some (build_model draws initializer (TfData.batch 32 ds))
       ↔ ∀ name, name ∈ feature_names → is_Some (df_column name df)).
Proof.
  intros Hdf Hl Hne. do 2 eexists.
  split; [by apply dataframe_to_dataset_eq|].
  assert (Hfv : ∀ name pass, name ∈ feature_names →
            is_Some (feature_values name
                       (TfData.batch 32
                          (TfData.shuffle (df_len df)
                             (λ _, TfData.slices (dict (df_without "Bot_or_Not" df))
                                     labels))) pass)
            ↔ is_Some (df_column name df)).
  { intros name pass Hin.
    assert (name ≠ "Bot_or_Not") as Hname.
    { intros ->. unfold feature_names, all_inputs in Hin. cbn in Hin.
      rewrite !elem_of_cons, elem_of_nil in Hin.
      repeat (destruct Hin as [Hin|Hin]; [discriminate Hin|]). done. }
    pose proof (wrapped_feature_values df labels Hl name pass Hne Hname) as H.
    destruct (df_column name df) as [col|].
    - destruct H as (xs & -> & _). split; by eexists.
    - rewrite H. split; by intros [? ?]. }
  set (train_ds := TfData.batch 32 _) in *.
  assert (Hnames : ∀ name, name ∈ feature_names ↔
            name ∈ [ "Profile_picture"; "Bot_Score"; "followers"; "following";
                     "creation_date"; "number_of_tweets"; "Retweet_Ratio";
                     "Tweets_Per_Day" ]).
  { intros name. unfold feature_names, all_inputs. cbn. rewrite !elem_of_cons.
    rewrite !elem_of_nil. tauto. }
  split.
  - intros [m Hm] name Hin.
    apply build_model_inv in Hm
      as (a1 & a2 & a3 & a4 & a5 & a6 & a7 & a8
          & A1 & A2 & A3 & A4 & A5 & A6 & A7 & A8 & _).
    pose proof Hin as Hin'. apply Hnames in Hin'.
    rewrite !elem_of_cons, elem_of_nil in Hin'.
    destruct Hin' as [->|[->|[->|[->|[->|[->|[->|[->|[]]]]]]]]];
      eapply Hfv; first [exact Hin|by eexists].
  - intros Hall.
    assert (Hs : ∀ name pass, name ∈ feature_names →
              is_Some (feature_values name train_ds pass)).
    { intros name pass Hin. apply Hfv; [done|by apply Hall]. }
    destruct (Hs "Profile_picture" (draws 1)) as [a1 A1]; [apply Hnames; repeat (first [left|right])|].
    destruct (Hs "Bot_Score" (draws 2)) as [a2 A2]; [apply Hnames; repeat (first [left|right])|].
    destruct (Hs "followers" (draws 3)) as [a3 A3]; [apply Hnames; repeat (first [left|right])|].
    destruct (Hs "following" (draws 4)) as [a4 A4]; [apply Hnames; repeat (first [left|right])|].
    destruct (Hs "creation_date" (draws 5)) as [a5 A5]; [apply Hnames; repeat (first [left|right])|].
    destruct (Hs "number_of_tweets" (draws 6)) as [a6 A6]; [apply Hnames; repeat (first [left|right])|].
    destruct (Hs "Retweet_Ratio" (draws 7)) as [a7 A7]; [apply Hnames; repeat (first [left|right])|].
    destruct (Hs "Tweets_Per_Day" (draws 8)) as [a8 A8]; [apply Hnames; repeat (first [left|right])|].
    destruct (build_model_eq draws initializer train_ds _ _ _ _ _ _ _ _
                A1 A2 A3 A4 A5 A6 A7 A8) as [w Hw].
    by eexists.
Qed.

Lemma model_builds_iff_feature_columns_witness :
  example_store !! 1%positive = Some example_dataframe
  ∧ df_column "Bot_or_Not" example_dataframe = Some example_labels
  ∧ df_rows example_dataframe ≠ []
  ∧ ∃ ds σ',
      dataframe_to_dataset 1%positive example_store = Some (ds, σ')
      ∧ (is_Some (build_model example_draws (λ _ _, ([], [])) (TfData.batch 32 ds))
         ↔ ∀ name, name ∈ feature_names →
                   is_Some (df_column name example_dataframe)).
Proof.
  split; [exact example_store_lookup|]. split; [exact example_labels_column|].
  split; [exact example_dataframe_rows|].
  exact (model_builds_iff_feature_columns example_draws (λ _ _, ([], []))
           example_store 1%positive example_dataframe example_labels
           example_store_lookup example_labels_column example_dataframe_rows).
Defined.

Lemma call_length l v : length (call l v) = output_width l.
Proof. destruct l; [done|]. unfold call, output_width. apply one_hot_length. Qed.

Lemma mapM_concat_length {A B} (f : A → option (list B)) (g : A → nat)
  (l : list A) (k : list (list B)) :
  (∀ a y, f a = Some y → length y = g a) →
  mapM f l = Some k → length (concat k) = sum_list (g <$> l).
Proof.
  intros Hf. rewrite mapM_Some. induction 1 as [|a y l k Hay _ IH]; [done|].
  cbn. by rewrite length_app, (Hf a y Hay), IH.
Qed.

Lemma encode_row_length m x j row :
  encode_row m x j = Some row →
  length row = sum_list (output_width ∘ tensor_layer <$> features m).
Proof.
  unfold encode_row. destruct (mapM _ (features m)) as [rows|] eqn:Hrows; [|done].
  cbn. intros [= <-]. eapply mapM_concat_length; [|exact Hrows].
  intros t y. cbn.
  destruct (x !! input_name (tensor_input t)) as [col|]; [|done]. cbn.
  destruct (col !! j) as [v|]; [|done]. cbn. intros [= <-]. apply call_length.
Qed.

Lemma build_model_weights draws initializer train_ds m :
  build_model draws initializer train_ds = Some m →
  weights m
  = mkWeights
      (dense initializer 32 (sum_list (output_width ∘ tensor_layer <$> features m)))
      (dense initializer 1 32).
Proof.
  unfold build_model.
  destruct (encode_integer_categorical_feature Profile_pic _ _ _); [|done].
  destruct (encode_integer_categorical_feature Tweets_Per_Day _ _ _); [|done].
  destruct (encode_numerical_feature followers _ _ _); [|done].
  destruct (encode_numerical_feature following _ _ _); [|done].
  destruct (encode_numerical_feature creation_date _ _ _); [|done].
  destruct (encode_numerical_feature number_of_tweets _ _ _); [|done].
  destruct (encode_numerical_feature Retweet_Ratio _ _ _); [|done].
  destruct (encode_numerical_feature Bot_Score _ _ _); [|done].
  cbn. by intros [= <-].
Qed.

(** X10: a model that was built has a hidden layer of 32 units made for
    rows of one fixed width and an output layer of one unit; every row the
    encoders produce for it has that width, at least 8, whatever the
    input values. *)
Theorem encoded_rows_fit_the_hidden_layer draws initializer train_ds m :
  build_model draws initializer train_ds = Some m →
  ∃ width,
    weights m = mkWeights (dense initializer 32 width) (dense initializer 1 32)
    ∧ units (hidden (weights m)) = 32%nat
    ∧ units (output (weights m)) = 1%nat
    ∧ (6 + 1 + 1 ≤ width)%nat
    ∧ ∀ x j row, encode_row m x j = Some row → length row = width.
Proof.
  intros Hm. pose proof (build_model_weights _ _ _ _ Hm) as Hw.
  eexists. split; [exact Hw|]. rewrite Hw. split; [done|]. split; [done|]. split.
  - apply build_model_inv in Hm
      as (? & ? & ? & ? & ? & ? & ? & ? & _ & _ & _ & _ & _ & _ & _ & _ & _ & ->).
    cbn. unfold one_hot_width. lia.
  - intros x j row. apply encode_row_length.
Qed.

Lemma encoded_rows_fit_the_hidden_layer_witness :
  ∃ m,
    build_model (λ _, []) (λ _ _, ([], [])) example_train_ds = Some m
    ∧ ∃ width,
        weights m = mkWeights (dense (λ _ _, ([], [])) 32 width)
                      (dense (λ _ _, ([], [])) 1 32)
        ∧ units (hidden (weights m)) = 32%nat
        ∧ units (output (weights m)) = 1%nat
        ∧ (6 + 1 + 1 ≤ width)%nat
        ∧ ∀ x j row, encode_row m x j = Some row → length row = width.
Proof.
  destruct (example_model_built (λ _ _, ([], []))) as [w Hw].
  eexists. split; [exact Hw|].
  exact (encoded_rows_fit_the_hidden_layer _ _ _ _ Hw).
Defined.

Lemma fit_epochs_units draws optimizer_step m train_ds epochs pass w w' :
  (∀ w b, units (output (optimizer_step w b)) = units (output w)) →
  fit_epochs draws optimizer_step m train_ds epochs pass w = Some w' →
  units (output w') = units (output w).
Proof.
  intros Hstep.
  assert (Hfold : ∀ bs w0,
            units (output (foldl optimizer_step w0 bs)) = units (output w0)).
  { induction bs as [|b bs IHb]; intros w0; [done|]. cbn. by rewrite IHb, Hstep. }
  revert pass w. induction epochs as [|epochs IH]; intros pass w.
  - cbn. by intros [= <-].
  - cbn [fit_epochs]. destruct (mapM _ _) as [bs|]; [|done]. cbn.
    intros Hfit. by rewrite (IH _ _ Hfit), Hfold.
Qed.

Lemma predict_inr accepts m x p :
  predict accepts m x = inr p →
  ∃ ts rows,
    gather x (inputs m) = inr ts
    ∧ mapM (encode_row m x)
        (seq 0 (from_option (λ st : Input * list value, length st.2) 0%nat (head ts)))
      = Some rows
    ∧ p = network (weights m) <$> rows.
Proof.
  unfold predict. destruct (gather x (inputs m)) as [e|ts]; [done|].
  destruct (list_find _ ts) as [[i [s' t']]|]; [done|].
  destruct (list_find _ ts) as [[i [s' t']]|]; [done|].
  destruct (mapM _ _) as [rows|] eqn:Hrows; [|done]. intros [= <-].
  by exists ts, rows.
Qed.

Lemma gather_cons_inr x s slots ts :
  gather x (s :: slots) = inr ts →
  ∃ t ts', x !! input_name s = Some t ∧ ts = (s, t) :: ts'.
Proof.
  cbn. destruct (x !! input_name s) as [t|]; [|done].
  destruct (gather x slots) as [e|ts']; [done|]. intros [= <-]. by exists t, ts'.
Qed.

Lemma encode_batch_is_Some m (b : TfData.Batch) :
  Forall (λ t, length <$> b.1 !! input_name (tensor_input t) = Some (length b.2))
    (features m) →
  is_Some (encode_batch m b).
Proof.
  intros Hcols. unfold encode_batch. apply mapM_is_Some, Forall_forall.
  intros j Hj. apply elem_of_seq in Hj as [_ Hj]. cbn in Hj.
  unfold compose.
  assert (is_Some (encode_row m b.1 j)) as [row ->].
  { unfold encode_row. apply fmap_is_Some, mapM_is_Some.
    eapply Forall_impl; [exact Hcols|]. intros t Ht. unfold compose. cbn beta in *.
    destruct (b.1 !! input_name (tensor_input t)) as [col|]; [|done].
    cbn in Ht. injection Ht as Ht. cbn.
    destruct (lookup_lt_is_Some_2 col j) as [v Hv]; [lia|]. rewrite Hv. by eexists. }
  cbn. destruct (lookup_lt_is_Some_2 b.2 j Hj) as [y Hy]. rewrite Hy. by eexists.
Qed.

Lemma fit_epochs_is_Some draws optimizer_step m train_ds :
  (∀ pass, Forall (λ b, is_Some (encode_batch m b)) (train_ds (draws pass))) →
  ∀ epochs pass w, is_Some (fit_epochs draws optimizer_step m train_ds epochs pass w).
Proof.
  intros Hds. induction epochs as [|epochs IH]; intros pass w; [by eexists|].
  cbn [fit_epochs].
  destruct (proj2 (mapM_is_Some (encode_batch m) (train_ds (draws pass))) (Hds pass))
    as [bs ->].
  cbn. apply IH.
Qed.

Lemma example_model_is_built :
  build_model (λ _, []) example_initializer example_train_ds = Some example_model.
Proof.
  destruct (example_model_built example_initializer) as [w Hw].
  pose proof (build_model_weights _ _ _ _ Hw) as Hweights.
  cbn [weights features] in Hweights. by rewrite Hw, Hweights.
Qed.

Lemma example_model_fits epochs :
  ∃ w, fit (λ _, []) example_optimizer_step example_model example_train_ds epochs
       = Some (mkModel all_inputs example_features w).
Proof.
  unfold fit.
  destruct (fit_epochs_is_Some (λ _, []) example_optimizer_step example_model
              example_train_ds) with (epochs := epochs) (pass := 9%nat)
              (w := weights example_model) as [w Hw].
  - intros _. eapply Forall_impl; [|intros b; apply encode_batch_is_Some].
    cbn [features example_model].
    assert (Hnames :
      Forall (λ b : TfData.Batch,
                Forall (λ name, length <$> b.1 !! name = Some (length b.2))
                  feature_names)
        (example_train_ds [])).
    { apply (bool_decide_unpack _). vm_compute. reflexivity. }
    eapply Forall_impl; [exact Hnames|]. intros b Hb. cbn beta in Hb.
    unfold example_features.
    repeat (apply Forall_cons; split;
            [cbn [tensor_input input_name];
             apply (proj1 (Forall_forall _ _) Hb);
             unfold feature_names, all_inputs; cbn; repeat (first [left|right])|]).
    apply Forall_nil_2.
  - rewrite Hw. cbn. by exists w.
Qed.

Lemma example_optimizer_keeps_units w b :
  units (output (example_optimizer_step w b)) = units (output w).
Proof. reflexivity. Qed.

(** X11: when the optimizer keeps the number of output units, a
    successful prediction of the built and fitted model has one row per
    row supplied for the inputs, and each row is a single value between 0
    and 1, the bounds included. *)
Theorem prediction_is_one_probability_per_row
  accepts draws initializer optimizer_step train_ds epochs m m' x p :
  (∀ w b, units (output (optimizer_step w b)) = units (output w)) →
  build_model draws initializer train_ds = Some m →
  fit draws optimizer_step m train_ds epochs = Some m' →
  predict accepts m' x = inr p →
  (∀ t, x !! "followers" = Some t → length p = length t)
  ∧ ∀ row, row ∈ p → ∃ y, row = [y] ∧ (0 <= y <= 1)%R.
Proof.
  intros Hstep Hm Hfit Hp.
  assert (Hunits : units (output (weights m')) = 1%nat).
  { unfold fit in Hfit.
    destruct (fit_epochs _ _ _ _ _ _ _) as [w|] eqn:Hw; [|done].
    injection Hfit as <-. cbn [weights].
    rewrite (fit_epochs_units _ _ _ _ _ _ _ _ Hstep Hw).
    by rewrite (build_model_weights _ _ _ _ Hm). }
  assert (Hinputs : inputs m' = all_inputs).
  { apply fit_features in Hfit as [_ ->].
    by apply build_model_inv in Hm
      as (? & ? & ? & ? & ? & ? & ? & ? & _ & _ & _ & _ & _ & _ & _ & _ & -> & _). }
  destruct (predict_inr _ _ _ _ Hp) as (ts & rows & Hg & Hrows & ->).
  split.
  - intros t Ht. rewrite length_fmap, <- (length_mapM _ _ _ Hrows), length_seq.
    rewrite Hinputs in Hg. unfold all_inputs in Hg.
    apply gather_cons_inr in Hg as (t' & ts' & Ht' & ->).
    change (input_name followers) with "followers" in Ht'.
    assert (t' = t) as -> by congruence. done.
  - intros row Hrow. apply list_elem_of_fmap in Hrow as (r & -> & _).
    pose proof (network_length (weights m') r) as Hlen. rewrite Hunits in Hlen.
    destruct (network (weights m') r) as [|y [|z l]] eqn:Hn; try done.
    exists y. split; [done|]. apply (network_range (weights m') r). rewrite Hn. left.
Qed.

(** The model built on the example table with weights that are not
    empty, fitted for the fifty epochs of the script by an optimizer that
    moves the output bias, predicts the completed sample. *)
Lemma prediction_is_one_probability_per_row_witness :
  ∃ m' p,
    (∀ (w : Weights) (b : list (list R * R)),
       units (output (example_optimizer_step w b)) = units (output w))
    ∧ build_model (λ _, []) example_initializer example_train_ds = Some example_model
    ∧ fit (λ _, []) example_optimizer_step example_model example_train_ds 50 = Some m'
    ∧ predict correct_numeric_type m' completed_input_dict = inr [[p]]
    ∧ (∀ t, completed_input_dict !! "followers" = Some t →
            length [[p]] = length t)
    ∧ ∀ row, row ∈ [[p]] → ∃ y, row = [y] ∧ (0 <= y <= 1)%R.
Proof.
  destruct (example_model_fits 50) as [w Hfit].
  assert (Hu : units (output w) = 1%nat).
  { unfold fit in Hfit.
    destruct (fit_epochs _ _ _ _ _ _ _) as [w'|] eqn:Hw; [|discriminate Hfit].
    injection Hfit as <-.
    exact (fit_epochs_units _ _ _ _ _ _ _ _ example_optimizer_keeps_units Hw). }
  destruct (completed_sample_accepted w Hu) as [p Hp].
  exists (mkModel all_inputs example_features w), p.
  split; [exact example_optimizer_keeps_units|].
  split; [exact example_model_is_built|]. split; [exact Hfit|].
  split; [exact Hp|].
  exact (prediction_is_one_probability_per_row correct_numeric_type _ _ _ _ _ _ _ _ _
           example_optimizer_keeps_units example_model_is_built Hfit Hp).
Defined.

(** X12: the chance the script prints for a successful prediction of a
    model with at least one output unit lies between 0 and 100, the
    bounds included; for a prediction without rows the indexing of line
    321 raises. *)
Theorem printed_chance_is_a_percentage accepts m x p :
  predict accepts m x = inr p →
  (0 < units (output (weights m)))%nat →
  (p = [] → printed_chance p = None)
  ∧ (p ≠ [] → ∃ c, printed_chance p = Some c ∧ (0 <= c <= 100)%R).
Proof.
  intros Hp Hunits. split; [by intros ->|]. intros Hne.
  destruct (predict_inr _ _ _ _ Hp) as (ts & rows & _ & _ & ->).
  destruct rows as [|r rows]; [done|]. cbn [fmap list_fmap].
  pose proof (network_length (weights m) r) as Hlen.
  destruct (network (weights m) r) as [|y l] eqn:Hn; [cbn in Hlen; lia|].
  exists (100 * y)%R. split; [done|].
  assert (0 <= y <= 1)%R by (apply (network_range (weights m) r); rewrite Hn; left).
  lra.
Qed.

Lemma printed_chance_is_a_percentage_witness :
  ∃ p,
    predict correct_numeric_type example_model completed_input_dict = inr [[p]]
    ∧ (0 < units (output (weights example_model)))%nat
    ∧ ([[p]] = [] → printed_chance [[p]] = None)
    ∧ ([[p]] ≠ [] → ∃ c, printed_chance [[p]] = Some c ∧ (0 <= c <= 100)%R).
Proof.
  assert (Hu : units (output (weights example_model)) = 1%nat) by reflexivity.
  destruct (completed_sample_accepted (weights example_model) Hu) as [p Hp].
  assert (Hpos : (0 < units (output (weights example_model)))%nat)
    by (rewrite Hu; lia).
  exists p. split; [exact Hp|]. split; [exact Hpos|].
  exact (printed_chance_is_a_percentage correct_numeric_type
           example_model completed_input_dict [[p]] Hp Hpos).
Defined.

(** * Properties of the script up to the batched datasets *)

Lemma datasets_eq (σ : Store) train val dft dfv tl vl :
  σ !! train = Some dft → df_column "Bot_or_Not" dft = Some tl →
  σ !! val = Some dfv → df_column "Bot_or_Not" dfv = Some vl →
  ∃ σ',
    datasets train val σ
    = Some ((TfData.batch 32
               (TfData.shuffle (df_len dft)
                  (λ _, TfData.slices (dict (df_without "Bot_or_Not" dft)) tl)),
             TfData.batch 32
               (TfData.shuffle (df_len dfv)
                  (λ _, TfData.slices (dict (df_without "Bot_or_Not" dfv)) vl))),
            σ').
Proof.
  intros Hdf Hl Hdfv Hvl. unfold datasets, bind, ret.
  rewrite (dataframe_to_dataset_eq _ _ _ _ Hdf Hl).
  assert (Hval : (<[next_loc σ := df_without "Bot_or_Not" dft]> σ) !! val = Some dfv).
  { unfold Store, loc in *. rewrite lookup_insert_ne; [done|].
    intros <-. by rewrite next_loc_fresh in Hdfv. }
  rewrite (dataframe_to_dataset_eq _ _ _ _ Hval Hvl). by eexists.
Qed.

Lemma batched_count df labels pass :
  df_column "Bot_or_Not" df = Some labels →
  length (concat ((λ b : TfData.Batch, b.2)
                    <$> TfData.batch 32
                          (TfData.shuffle (df_len df)
                             (λ _, TfData.slices (dict (df_without "Bot_or_Not" df))
                                     labels)) pass))
  = df_len df.
Proof.
  intros Hl. rewrite batch_labels, length_fmap.
  etransitivity; [exact (Permutation_length (wrapped_pass df labels Hl pass))|].
  by apply wrapped_length.
Qed.

(** What the script has made when the datasets are batched: the frame
    that was read, its two partitions with their label columns, and the
    two datasets in terms of them. *)
Lemma prepare_datasets_eq permutation entropy header lines (σ : Store) :
  Forall (λ l, length l = length header) lines →
  "Bot_or_Not" ∈ header →
  ∃ df train tl vl σ',
    Pandas.read_csv header lines = Some df
    ∧ train_dataframe permutation entropy df = Some train
    ∧ df_column "Bot_or_Not" train = Some tl
    ∧ df_column "Bot_or_Not" (val_dataframe permutation entropy df) = Some vl
    ∧ prepare_datasets permutation entropy header lines σ
      = Some ((TfData.batch 32
                 (TfData.shuffle (df_len train)
                    (λ _, TfData.slices (dict (df_without "Bot_or_Not" train)) tl)),
               TfData.batch 32
                 (TfData.shuffle (df_len (val_dataframe permutation entropy df))
                    (λ _, TfData.slices
                            (dict (df_without "Bot_or_Not"
                                     (val_dataframe permutation entropy df))) vl))),
              σ').
Proof.
  intros Hlines Hlabel.
  assert (∃ df, Pandas.read_csv header lines = Some df) as [df Hcsv].
  { unfold Pandas.read_csv. rewrite (proj2 (forallb_forall _ _)); [by eexists|].
    intros l Hl. apply Nat.eqb_eq.
    apply (proj1 (Forall_forall _ _) Hlines). by apply list_elem_of_In. }
  destruct (read_csv_complete _ _ _ Hcsv) as (Hcomp & Hcols & Hlen).
  set (val := val_dataframe permutation entropy df).
  assert (Hdrop : train_dataframe permutation entropy df
                  = Some (mkDataFrame (df_columns df)
                            (filter (λ r, row_label r ∉ df_index val) (df_rows df))))
    by apply drop_sampled_is_Some.
  set (train := mkDataFrame _ _) in Hdrop.
  assert (Hvalc : complete val).
  { apply (complete_subframe df); [done|done|]. intros r. apply elem_of_sample_rows. }
  assert (Htrainc : complete train).
  { apply (complete_subframe df); [done|done|].
    intros r. unfold train. cbn [df_rows]. rewrite list_elem_of_filter. by intros [_ ?]. }
  destruct (complete_column val "Bot_or_Not" Hvalc) as [vl Hvl];
    [by rewrite <- Hcols in Hlabel|].
  destruct (complete_column train "Bot_or_Not" Htrainc) as [tl Htl];
    [by rewrite <- Hcols in Hlabel|].
  unfold prepare_datasets, bind at 1, raise_if_none. rewrite Hcsv.
  unfold bind at 1, alloc. unfold bind at 1. unfold bind at 1. rewrite Hdrop.
  unfold bind at 1.
  set (σ1 := <[next_loc σ := df]> σ).
  set (σ2 := <[next_loc σ1 := val]> σ1).
  set (σ3 := <[next_loc σ2 := train]> σ2).
  assert (H3 : σ3 !! next_loc σ2 = Some train).
  { unfold σ3, Store, loc in *. apply lookup_insert_eq. }
  assert (H2 : σ3 !! next_loc σ1 = Some val).
  { unfold σ3, Store, loc in *. rewrite lookup_insert_ne.
    - unfold σ2. apply lookup_insert_eq.
    - intros Heq. pose proof (next_loc_fresh σ2) as Hf. rewrite Heq in Hf.
      unfold σ2, Store, loc in *. by rewrite lookup_insert_eq in Hf. }
  destruct (datasets_eq σ3 _ _ _ _ _ _ H3 Htl H2 Hvl) as [σ' Hds].
  exists df, train, tl, vl, σ'. by repeat split.
Qed.

Section PipelineFacts.

Variable permutation : Z → nat → list nat.
Hypothesis permutation_spec : ∀ seed n, permutation seed n ≡ₚ seq 0 n.
Variable entropy : Z.

(** X13: for a table of at least four well-formed lines with a
    "Bot_or_Not" column, the script gets as far as the two batched
    datasets; in every pass the validation batches hold at least one
    record and the batches of both datasets together hold as many records
    as the table has lines. *)
Theorem prepare_datasets_covers_the_table header lines (σ : Store) :
  Forall (λ l, length l = length header) lines →
  "Bot_or_Not" ∈ header →
  (4 ≤ length lines)%nat →
  ∃ train_ds val_ds σ',
    prepare_datasets permutation entropy header lines σ = Some ((train_ds, val_ds), σ')
    ∧ ∀ pass pass',
        (0 < length (concat ((λ b : TfData.Batch, b.2) <$> val_ds pass')))%nat
        ∧ (length (concat ((λ b : TfData.Batch, b.2) <$> train_ds pass))
           + length (concat ((λ b : TfData.Batch, b.2) <$> val_ds pass'))
           = length lines)%nat.
Proof.
  intros Hlines Hlabel HN.
  destruct (prepare_datasets_eq permutation entropy header lines σ Hlines Hlabel)
    as (df & train & tl & vl & σ' & Hcsv & Hdrop & Htl & Hvl & Hprep).
  destruct (read_csv_complete _ _ _ Hcsv) as (_ & _ & Hlen).
  pose proof (read_csv_index_NoDup _ _ _ Hcsv) as Hnd.
  destruct (split_distinct_index permutation permutation_spec entropy 1337%Z df Hnd)
    as (train' & Hdrop' & _ & _ & Hsum).
  fold (val_dataframe permutation entropy df) in Hdrop', Hsum.
  fold (train_dataframe permutation entropy df) in Hdrop'.
  assert (train' = train) as -> by congruence.
  do 3 eexists. split; [exact Hprep|]. intros pass pass'.
  rewrite !batched_count by done.
  pose proof (val_dataframe_len_large permutation permutation_spec entropy df)
    as Hlarge.
  rewrite Hlen in Hlarge, Hsum. specialize (Hlarge HN). lia.
Qed.

(** X14: under the same conditions no record of the validation partition
    reaches training: every position of every training batch carries the
    label and the feature values of one row of the table that was not
    sampled for validation. *)
Theorem training_batches_hold_no_validation_row header lines (σ : Store) :
  Forall (λ l, length l = length header) lines →
  "Bot_or_Not" ∈ header →
  (4 ≤ length lines)%nat →
  ∃ df train_ds val_ds σ',
    Pandas.read_csv header lines = Some df
    ∧ prepare_datasets permutation entropy header lines σ
      = Some ((train_ds, val_ds), σ')
    ∧ ∀ pass b j y,
        b ∈ train_ds pass → b.2 !! j = Some y →
        ∃ r, r ∈ df_rows df
             ∧ (r ∉ df_rows (val_dataframe permutation entropy df))
             ∧ row_cells r !! "Bot_or_Not" = Some y
             ∧ ∀ name col, b.1 !! name = Some col →
                 ∃ v, col !! j = Some v ∧ row_cells r !! name = Some v.
Proof.
  intros Hlines Hlabel _.
  destruct (prepare_datasets_eq permutation entropy header lines σ Hlines Hlabel)
    as (df & train & tl & vl & σ' & Hcsv & Hdrop & Htl & Hvl & Hprep).
  pose proof (read_csv_index_NoDup _ _ _ Hcsv) as Hnd.
  destruct (split_distinct_index permutation permutation_spec entropy 1337%Z df Hnd)
    as (train' & Hdrop' & Hrows & _ & _).
  fold (val_dataframe permutation entropy df) in Hdrop', Hrows.
  fold (train_dataframe permutation entropy df) in Hdrop'.
  assert (train' = train) as -> by congruence.
  exists df. do 3 eexists. split; [exact Hcsv|]. split; [exact Hprep|].
  intros pass b j y Hb Hy.
  destruct (wrapped_batches_aligned train tl pass b j y Htl Hb Hy)
    as (r & Hr & Hlab & Hfeat).
  rewrite Hrows in Hr. apply list_elem_of_filter in Hr as [Hnot Hin].
  by exists r.
Qed.

(** X15: a table without a "Bot_or_Not" column makes the script raise
    before any dataset exists, whatever its lines are: the wrapper's pop
    of the label raises on the training partition. *)
Theorem prepare_datasets_needs_label_column header lines (σ : Store) :
  "Bot_or_Not" ∉ header →
  prepare_datasets permutation entropy header lines σ = None.
Proof.
  intros Hlabel. unfold prepare_datasets, bind at 1, raise_if_none.
  destruct (Pandas.read_csv header lines) as [df|] eqn:Hcsv; [|done].
  destruct (read_csv_complete _ _ _ Hcsv) as (_ & Hcols & _).
  unfold bind at 1, alloc. unfold bind at 1. unfold bind at 1.
  unfold train_dataframe, val_dataframe. rewrite drop_sampled_is_Some.
  unfold bind at 1.
  match goal with
  | |- datasets ?t ?v ?s = None => set (σ3 := s); set (tr := t)
  end.
  unfold datasets, bind at 1.
  destruct (dataframe_to_dataset tr σ3) as [[ds σ4]|] eqn:Hd; [|done].
  exfalso.
  assert (is_Some (dataframe_to_dataset tr σ3)) as Hsome by (by eexists).
  apply dataframe_to_dataset_is_Some in Hsome as (df' & Hdf' & Hsome).
  apply df_column_is_Some in Hsome as [Hin _].
  unfold σ3, tr, Store, loc in Hdf'. rewrite lookup_insert_eq in Hdf'.
  injection Hdf' as <-. cbn [df_columns] in Hin. by rewrite Hcols in Hin.
Qed.

End PipelineFacts.

Lemma example_lines_well_formed :
  Forall (λ l, length l = length example_header) example_lines.
Proof. apply (bool_decide_unpack _). vm_compute. reflexivity. Qed.

Lemma example_header_has_label : "Bot_or_Not" ∈ example_header.
Proof. unfold example_header. repeat (first [left|right]). Qed.

Lemma example_lines_enough : (4 ≤ length example_lines)%nat.
Proof. vm_compute. lia. Qed.

Lemma prepare_datasets_covers_the_table_witness :
  (∀ seed n, descending seed n ≡ₚ seq 0 n)
  ∧ Forall (λ l, length l = length example_header) example_lines
  ∧ "Bot_or_Not" ∈ example_header
  ∧ (4 ≤ length example_lines)%nat
  ∧ ∃ train_ds val_ds σ',
      prepare_datasets descending 0 example_header example_lines ∅
      = Some ((train_ds, val_ds), σ')
      ∧ ∀ pass pass',
          (0 < length (concat ((λ b : TfData.Batch, b.2) <$> val_ds pass')))%nat
          ∧ (length (concat ((λ b : TfData.Batch, b.2) <$> train_ds pass))
             + length (concat ((λ b : TfData.Batch, b.2) <$> val_ds pass'))
             = length example_lines)%nat.
Proof.
  split; [exact descending_spec|]. split; [exact example_lines_well_formed|].
  split; [exact example_header_has_label|]. split; [exact example_lines_enough|].
  exact (prepare_datasets_covers_the_table descending descending_spec 0%Z
           example_header example_lines ∅ example_lines_well_formed
           example_header_has_label example_lines_enough).
Defined.

Lemma training_batches_hold_no_validation_row_witness :
  (∀ seed n, descending seed n ≡ₚ seq 0 n)
  ∧ Forall (λ l, length l = length example_header) example_lines
  ∧ "Bot_or_Not" ∈ example_header
  ∧ (4 ≤ length example_lines)%nat
  ∧ ∃ df train_ds val_ds σ',
      Pandas.read_csv example_header example_lines = Some df
      ∧ prepare_datasets descending 0 example_header example_lines ∅
        = Some ((train_ds, val_ds), σ')
      ∧ ∀ pass b j y,
          b ∈ train_ds pass → b.2 !! j = Some y →
          ∃ r, r ∈ df_rows df
               ∧ (r ∉ df_rows (val_dataframe descending 0 df))
               ∧ row_cells r !! "Bot_or_Not" = Some y
               ∧ ∀ name col, b.1 !! name = Some col →
                   ∃ v, col !! j = Some v ∧ row_cells r !! name = Some v.
Proof.
  split; [exact descending_spec|]. split; [exact example_lines_well_formed|].
  split; [exact example_header_has_label|]. split; [exact example_lines_enough|].
  exact (training_batches_hold_no_validation_row descending descending_spec 0%Z
           example_header example_lines ∅ example_lines_well_formed
           example_header_has_label example_lines_enough).
Defined.

Lemma prepare_datasets_needs_label_column_witness :
  ("Bot_or_Not" ∉ unlabelled_header)
  ∧ prepare_datasets descending 0 unlabelled_header unlabelled_lines ∅ = None.
Proof.
  assert (Hbad : "Bot_or_Not" ∉ unlabelled_header).
  { apply (bool_decide_unpack _). vm_compute. reflexivity. }
  split; [exact Hbad|].
  exact (prepare_datasets_needs_label_column descending 0%Z unlabelled_header
           unlabelled_lines ∅ Hbad).
Defined.
